(** * Grant application form: validation, upload and submission handlers

    A shallow embedding of [src/components/GrantApplicationForm.tsx]
    (with the types of [src/types/index.ts] and the row type of
    [src/lib/supabase.ts]).

    - The draft [formData] and the two upload maps are JavaScript objects
      written with computed keys, so they are finite maps from property
      names to values.
    - The handlers are [async] functions with [try]/[catch]/[finally] and
      early [return]; they are written in a small monad over the live React
      state, the trace of collaborator calls and the pending timers. A
      handler is suspended at every [await].
    - The collaborators (identity, storage and table services, the UUID
      generator) are an environment of responses; a rejected promise is a
      possible response.
    - [dispatch] runs the handler of an event with nothing in between;
      [step] lets events and responses come in any order, so that uploads
      and a submission can be in flight together. *)

From Stdlib Require Import Ascii QArith Lqa.
From stdpp Require Import gmap strings pretty list fin_maps.

(** ** JavaScript values *)

Module JS.

(** A [number]: finite doubles are rationals, and comparisons between them
    are exact, so a finite number is its rational value ([-0] and [0] are one
    value, as they are for every operation used here). *)
Inductive number : Type :=
| NaN
| Infinity (negative : bool)
| Finite (q : Q).

(** [x < y], [x <= y], [x > y] on numbers (every comparison with [NaN] is false). *)
Definition lt (x y : number) : bool :=
  match x, y with
  | NaN, _ | _, NaN => false
  | Infinity true, Infinity true => false
  | Infinity true, _ => true
  | _, Infinity true => false
  | Infinity false, _ => false
  | _, Infinity false => true
  | Finite a, Finite b => negb (Qle_bool b a)
  end.

Definition le (x y : number) : bool :=
  match x, y with
  | NaN, _ | _, NaN => false
  | Infinity true, _ => true
  | _, Infinity false => true
  | _, Infinity true => false
  | Infinity false, _ => false
  | Finite a, Finite b => Qle_bool a b
  end.

Definition gt (x y : number) : bool := lt y x.

(** The number literal [n]. *)
Definition lit (n : Z) : number := Finite (inject_Z n).

(** Values held by the draft: text inputs write strings, the number input
    writes a number. *)
Inductive value : Type :=
| VStr (s : string)
| VNum (n : number).

(** [!!n] on a number: [0] and [NaN] are falsy. *)
Definition ToBoolean_number (n : number) : bool :=
  match n with
  | NaN => false
  | Infinity _ => true
  | Finite q => negb (Qeq_bool q 0)
  end.

(** [!!v] on what a property read gives: [None] stands for [undefined];
    the empty string is falsy. *)
Definition ToBoolean (v : option value) : bool :=
  match v with
  | None => false
  | Some (VStr s) => negb (String.eqb s "")
  | Some (VNum n) => ToBoolean_number n
  end.

(** [a || b] on numbers. *)
Definition or_number (a b : number) : number :=
  if ToBoolean_number a then a else b.

(** [s.split(c)] for a one-character separator: never empty. *)
Fixpoint split (c : ascii) (s : string) : list string :=
  match s with
  | EmptyString => [EmptyString]
  | String a s' =>
      if Ascii.eqb a c then EmptyString :: split c s'
      else match split c s' with
           | [] => [String a EmptyString]
           | seg :: segs => String a seg :: segs
           end
  end.

(** [arr.pop()], as a value: the last element, [undefined] on an empty array. *)
Definition pop (l : list string) : option string := last l.

(** [s.replace(c, r)] with a one-character string pattern: only the first
    occurrence is replaced. *)
Fixpoint replace (c : ascii) (r : string) (s : string) : string :=
  match s with
  | EmptyString => EmptyString
  | String a s' => if Ascii.eqb a c then r +:+ s' else String a (replace c r s')
  end.

(** A template-literal hole holding [undefined] prints as "undefined". *)
Definition template_hole (o : option string) : string :=
  match o with Some s => s | None => "undefined" end.

End JS.

(** ** Strings *)

Module Str.

(** [has c s]: the character [c] occurs in [s]. *)
Fixpoint has (c : ascii) (s : string) : bool :=
  match s with
  | EmptyString => false
  | String a s' => Ascii.eqb a c || has c s'
  end.

(** [all p s]: every character of [s] satisfies [p]. *)
Fixpoint all (p : ascii → bool) (s : string) : bool :=
  match s with
  | EmptyString => true
  | String a s' => p a && all p s'
  end.

(** [contains sub s]: [sub] is a substring of [s]. *)
Definition contains (sub s : string) : Prop :=
  ∃ pre post, s = pre +:+ sub +:+ post.

End Str.

(** ** Regular expressions

    [RegExp.prototype.test] for a pattern anchored with [^] and [$] and
    without flags: the whole string has to match. The matcher works by
    derivatives, one character at a time. *)

Module Regex.

Inductive re : Type :=
| Never
| Eps
| Class (p : ascii → bool)
| Seq (r1 r2 : re)
| Alt (r1 r2 : re)
| Star (r : re).

(** [r+] *)
Definition Plus (r : re) : re := Seq r (Star r).

Fixpoint nullable (r : re) : bool :=
  match r with
  | Never => false
  | Eps => true
  | Class _ => false
  | Seq r1 r2 => nullable r1 && nullable r2
  | Alt r1 r2 => nullable r1 || nullable r2
  | Star _ => true
  end.

Fixpoint deriv (c : ascii) (r : re) : re :=
  match r with
  | Never => Never
  | Eps => Never
  | Class p => if p c then Eps else Never
  | Seq r1 r2 =>
      if nullable r1 then Alt (Seq (deriv c r1) r2) (deriv c r2)
      else Seq (deriv c r1) r2
  | Alt r1 r2 => Alt (deriv c r1) (deriv c r2)
  | Star r' => Seq (deriv c r') (Star r')
  end.

Fixpoint test (r : re) (s : string) : bool :=
  match s with
  | EmptyString => nullable r
  | String c s' => test (deriv c r) s'
  end.

(** The strings a pattern denotes. *)
Inductive lang : re → string → Prop :=
| lang_eps : lang Eps ""
| lang_class p c : p c = true → lang (Class p) (String c "")
| lang_seq r1 r2 s1 s2 : lang r1 s1 → lang r2 s2 → lang (Seq r1 r2) (s1 +:+ s2)
| lang_alt_l r1 r2 s : lang r1 s → lang (Alt r1 r2) s
| lang_alt_r r1 r2 s : lang r2 s → lang (Alt r1 r2) s
| lang_star_nil r : lang (Star r) ""
| lang_star_app r s1 s2 : lang r s1 → lang (Star r) s2 → lang (Star r) (s1 +:+ s2).

(** [\s] on code units below 256: tab, line feed, vertical tab, form feed,
    carriage return, space and the no-break space. A character of a
    [string] stands for the code unit of the same number. *)
Definition is_space (c : ascii) : bool :=
  let n := N_of_ascii c in
  ((9 <=? n) && (n <=? 13) || (n =? 32) || (n =? 160))%N.

(** [[^\s@]] *)
Definition not_space_at (c : ascii) : bool :=
  negb (is_space c || Ascii.eqb c "@").

Definition is_char (a : ascii) (c : ascii) : bool := Ascii.eqb c a.

(** [/^[^\s@]+@[^\s@]+\.[^\s@]+$/] *)
Definition emailRegex : re :=
  Seq (Plus (Class not_space_at))
    (Seq (Class (is_char "@"))
       (Seq (Plus (Class not_space_at))
          (Seq (Class (is_char "."))
             (Plus (Class not_space_at))))).

End Regex.


(** ** Types ([src/types/index.ts], [src/lib/supabase.ts]) *)

(** A browser [File]: the handlers read its name and its size in bytes. *)
Module File.
Record t : Type := { name : string; size : N }.
End File.

(** [GrantApplication]: an object from property names to values. The
    handlers write it through computed keys ([[name]: ...],
    [[`${fileType}_url`]: ...]) and spread it, so it is a finite map; an
    optional property that was never written is absent. *)
Abbreviation GrantApplication := (gmap string JS.value).

(** [FileUploadState] and [UploadProgress]. *)
Abbreviation FileUploadState := (gmap string File.t).
Abbreviation UploadProgress := (gmap string bool).

(** The authenticated user, as far as the handlers read it. *)
Module User.
Record t : Type := { id : string }.
End User.

(** [Database.public.Tables.grant_applications.Row] *)
Module Row.
Record t : Type := {
  id : string;
  company_name : string;
  contact_email : string;
  contact_phone : string;
  contact_person : string;
  grant_amount : JS.number;
  project_description : string;
  business_plan_url : option string;
  financial_statements_url : option string;
  supporting_documents_url : option string;
  status : string;
  user_id : string;
  created_at : string
}.
End Row.

(** ** Collaborators *)

(** An error object of a service. *)
Record ServiceError : Type := { message : string }.

(** A promise either resolves or rejects; [await] throws on the latter. *)
Inductive Promise (A : Type) : Type :=
| Resolved (a : A)
| Rejected.
Arguments Resolved {A} a.
Arguments Rejected {A}.

(** [{ data: { user }, error: userError }] *)
Record UserResponse : Type := {
  user : option User.t;
  userError : option ServiceError
}.

(** [{ data, error }] of the storage and table services. *)
Record Response (A : Type) : Type := {
  data : option A;
  error : option ServiceError
}.
Arguments data {A} _.
Arguments error {A} _.
Arguments Build_Response {A} _ _.

(** What a stored object is known by. *)
Record UploadData : Type := { path : string }.

(** The responses of the outside world during one handler invocation. *)
Record Collaborators : Type := {
  (** [supabase.auth.getUser()] *)
  auth_getUser : Promise UserResponse;
  (** [crypto.randomUUID()] *)
  crypto_randomUUID : string;
  (** [supabase.storage.from(bucket).upload(path, file, options)] *)
  storage_upload : string → string → File.t → Promise (Response UploadData);
  (** [supabase.storage.from(bucket).getPublicUrl(path).data.publicUrl] *)
  storage_getPublicUrl : string → string → string;
  (** [supabase.from(table).insert(record).select().single()] *)
  table_insert : string → GrantApplication → Promise (Response Row.t)
}.

(** The calls a handler makes, in order. *)
Inductive call : Type :=
| GetUser
| RandomUUID
| Upload (bucket path : string) (file : File.t) (cacheControl : string) (upsert : bool)
| GetPublicUrl (bucket path : string)
| Insert (table : string) (record : GrantApplication)
| ConsoleError (label : string)
| ConsoleLog (text : string).

Definition is_insert (c : call) : bool :=
  match c with Insert _ _ => true | _ => false end.

Definition is_storage (c : call) : bool :=
  match c with Upload _ _ _ _ _ | GetPublicUrl _ _ => true | _ => false end.

Definition is_upload (c : call) : bool :=
  match c with Upload _ _ _ _ _ => true | _ => false end.

(** The builtins of the language that the handlers apply to values of
    unknown content. *)
Class Builtins : Type := {
  (** [parseFloat(s)] *)
  parseFloat : string → JS.number;
  (** [ToNumber] on a string, as in ["12" <= 0] *)
  StringToNumber : string → JS.number;
  (** [ToString] on a number *)
  NumberToString : JS.number → string
}.

(** ** Component state *)

Record State : Type := {
  formData : GrantApplication;
  uploadedFiles : FileUploadState;
  isSubmitting : bool;
  uploadProgress : UploadProgress;
  submitMessage : string
}.

(** The callbacks handed to [setTimeout]. *)
Inductive callback : Type :=
| ResetForm.

Record Timer : Type := { fires : callback; delay : N }.

(** The live state of the component, the calls made so far and the timers
    that have not fired yet. *)
Record World : Type := {
  state : State;
  calls : list call;
  timers : list Timer
}.

(** [useState] initial values. *)
Definition initialFormData : GrantApplication :=
  <["company_name" := JS.VStr ""]>
  (<["contact_email" := JS.VStr ""]>
  (<["contact_phone" := JS.VStr ""]>
  (<["contact_person" := JS.VStr ""]>
  (<["grant_amount" := JS.VNum (JS.lit 1000)]>
  (<["project_description" := JS.VStr ""]> ∅))))).

Definition initialState : State := {|
  formData := initialFormData;
  uploadedFiles := ∅;
  isSubmitting := false;
  uploadProgress := ∅;
  submitMessage := ""
|}.

Definition initialWorld : World :=
  {| state := initialState; calls := []; timers := [] |}.

(** ** Handlers as computations *)

(** How a block of statements ends: normally, by [return], or by a thrown
    exception. *)
Inductive completion (A : Type) : Type :=
| Normal (a : A)
| Return
| Throw.
Arguments Normal {A} a.
Arguments Return {A}.
Arguments Throw {A}.

(** Where a handler stands after running as far as it can: it has ended, or
    it is suspended at an [await] and goes on, when the response is there,
    from the world as it then is. *)
#[warnings="-register-all"]
Inductive Step (A : Type) : Type :=
| Done (c : completion A)
| Yield (k : World → World * Step A).
Arguments Done {A} c.
Arguments Yield {A} k.

Definition Handler (A : Type) : Type := World → World * Step A.

(** A block that ends at once as [c]. *)
Definition done {A : Type} (c : completion A) : Handler A := λ w, (w, Done c).

(** What follows the end of a block, also when the block was suspended on
    the way. *)
Fixpoint on_done {A B : Type} (s : Step A) (f : completion A → Handler B)
    (w : World) : World * Step B :=
  match s with
  | Done c => f c w
  | Yield k => (w, Yield (λ w', let '(w'', s') := k w' in on_done s' f w''))
  end.

Definition and_then {A B : Type} (m : Handler A) (f : completion A → Handler B) :
    Handler B :=
  λ w, let '(w1, s) := m w in on_done s f w1.

#[global] Instance Handler_ret : MRet Handler :=
  λ A a, done (Normal a).

(** Statements in sequence: a [return] or an exception skips the rest. *)
#[global] Instance Handler_bind : MBind Handler :=
  λ A B f m,
    and_then m (λ c, match c with
                     | Normal a => f a
                     | Return => done Return
                     | Throw => done Throw
                     end).

(** [return;] *)
Definition return_ {A : Type} : Handler A := done Return.

(** [throw] *)
Definition throw {A : Type} : Handler A := done Throw.

(** [try { body } catch { handler } finally { cleanup }]: the cleanup runs
    however the body or the handler ends, and the statement ends as they
    did when the cleanup ends normally. *)
Definition try_catch_finally (body handler cleanup : Handler unit) : Handler unit :=
  and_then
    (and_then body (λ c1, match c1 with Throw => handler | _ => done c1 end))
    (λ c2, and_then cleanup
             (λ c3, match c3 with Normal _ => done c2 | _ => done c3 end)).

(** A suspended handler resumed at once, as often as it suspends. *)
Fixpoint settle {A : Type} (s : Step A) (w : World) : World :=
  match s with
  | Done _ => w
  | Yield k => let '(w', s') := k w in settle s' w'
  end.

(** A handler run with nothing else happening before it ends. *)
Definition run (h : Handler unit) (w : World) : World :=
  let '(w1, s) := h w in settle s w1.

Definition modify (f : State → State) : Handler unit :=
  λ w, ({| state := f (state w); calls := calls w; timers := timers w |},
        Done (Normal tt)).

(** One field of the state replaced. *)
Definition with_formData (f : GrantApplication → GrantApplication) (s : State) : State :=
  {| formData := f (formData s);
     uploadedFiles := uploadedFiles s;
     isSubmitting := isSubmitting s;
     uploadProgress := uploadProgress s;
     submitMessage := submitMessage s |}.

Definition with_uploadedFiles (f : FileUploadState → FileUploadState) (s : State) : State :=
  {| formData := formData s;
     uploadedFiles := f (uploadedFiles s);
     isSubmitting := isSubmitting s;
     uploadProgress := uploadProgress s;
     submitMessage := submitMessage s |}.

Definition with_isSubmitting (b : bool) (s : State) : State :=
  {| formData := formData s;
     uploadedFiles := uploadedFiles s;
     isSubmitting := b;
     uploadProgress := uploadProgress s;
     submitMessage := submitMessage s |}.

Definition with_uploadProgress (f : UploadProgress → UploadProgress) (s : State) : State :=
  {| formData := formData s;
     uploadedFiles := uploadedFiles s;
     isSubmitting := isSubmitting s;
     uploadProgress := f (uploadProgress s);
     submitMessage := submitMessage s |}.

Definition with_submitMessage (m : string) (s : State) : State :=
  {| formData := formData s;
     uploadedFiles := uploadedFiles s;
     isSubmitting := isSubmitting s;
     uploadProgress := uploadProgress s;
     submitMessage := m |}.

(** The state setters; an updater function acts on the live state. *)
Definition setFormData (f : GrantApplication → GrantApplication) : Handler unit :=
  modify (with_formData f).

Definition setUploadedFiles (f : FileUploadState → FileUploadState) : Handler unit :=
  modify (with_uploadedFiles f).

Definition setIsSubmitting (b : bool) : Handler unit :=
  modify (with_isSubmitting b).

Definition setUploadProgress (f : UploadProgress → UploadProgress) : Handler unit :=
  modify (with_uploadProgress f).

Definition setSubmitMessage (m : string) : Handler unit :=
  modify (with_submitMessage m).

(** A call recorded in the trace. *)
Definition invoke (c : call) : Handler unit :=
  λ w, ({| state := state w; calls := calls w ++ [c]; timers := timers w |},
        Done (Normal tt)).

(** [await p]: the handler is suspended; it goes on with the value of the
    promise, or with an exception when the promise is rejected. *)
Definition await {A : Type} (p : Promise A) : Handler A :=
  λ w, (w, Yield (match p with
                  | Resolved a => done (Normal a)
                  | Rejected => done Throw
                  end)).

(** [setTimeout(cb, ms)] *)
Definition setTimeout (cb : callback) (ms : N) : Handler unit :=
  λ w, ({| state := state w; calls := calls w;
           timers := timers w ++ [{| fires := cb; delay := ms |}] |},
        Done (Normal tt)).

(** [if (c) { body }] *)
Definition when (c : bool) (body : Handler unit) : Handler unit :=
  if c then body else mret tt.

(** ** Reading the draft *)

(** [!!x] for a property that holds an object when it is there. *)
Definition defined {A : Type} (o : option A) : bool :=
  match o with Some _ => true | None => false end.

(** The operand of [<=], [<] and [>] against a number literal. *)
Definition ToNumber `{Builtins} (v : option JS.value) : JS.number :=
  match v with
  | None => JS.NaN
  | Some (JS.VNum n) => n
  | Some (JS.VStr s) => StringToNumber s
  end.

(** The argument of [RegExp.prototype.test]. *)
Definition ToString `{Builtins} (v : option JS.value) : string :=
  match v with
  | None => "undefined"
  | Some (JS.VStr s) => s
  | Some (JS.VNum n) => NumberToString n
  end.

(** ** The form ([src/components/GrantApplicationForm.tsx]) *)

(** [e.target] of a change event on an input or a textarea. *)
Record ChangeEvent : Type := {
  target_name : string;
  target_value : string;
  target_type : string
}.

Definition handleInputChange `{Builtins} (e : ChangeEvent) : Handler unit :=
  let name := target_name e in
  let value := target_value e in
  let type := target_type e in
  setFormData (λ prev,
    <[name := if String.eqb type "number"
              then JS.VNum (JS.or_number (parseFloat value) (JS.lit 0))
              else JS.VStr value]> prev).

(** [files] is [e.target.files]; its first element is the selection. *)
Definition handleFileUpload (env : Collaborators) (files : list File.t)
    (fileType : string) : Handler unit :=
  match head files with
  | None => return_
  | Some file =>
      when (10 * 1024 * 1024 <? File.size file)%N
        (setSubmitMessage "File size must be less than 10MB" ;;
         return_) ;;
      setUploadProgress (λ prev, <[fileType := true]> prev) ;;
      try_catch_finally
        (invoke GetUser ;;
         r ← await (auth_getUser env) ;
         match userError r, user r with
         | None, Some user =>
             let fileExtension := JS.pop (JS.split "." (File.name file)) in
             invoke RandomUUID ;;
             let uniqueFileName :=
               crypto_randomUUID env +:+ "." +:+ JS.template_hole fileExtension in
             let filePath := User.id user +:+ "/" +:+ uniqueFileName in
             invoke (Upload "grant-documents" filePath file "3600" false) ;;
             r ← await (storage_upload env "grant-documents" filePath file) ;
             match error r with
             | Some err =>
                 invoke (ConsoleError "Upload error:") ;;
                 setSubmitMessage
                   ("Error uploading " +:+ JS.replace "_" " " fileType +:+ ": "
                      +:+ message err) ;;
                 return_
             | None =>
                 match data r with
                 | None => throw
                 | Some data =>
                     invoke (GetPublicUrl "grant-documents" (path data)) ;;
                     let publicUrl :=
                       storage_getPublicUrl env "grant-documents" (path data) in
                     setFormData (λ prev,
                       <[fileType +:+ "_url" := JS.VStr publicUrl]> prev) ;;
                     setUploadedFiles (λ prev, <[fileType := file]> prev) ;;
                     invoke (ConsoleLog ("File uploaded successfully: " +:+ path data))
                 end
             end
         | _, _ =>
             setSubmitMessage "Please log in to upload files" ;;
             return_
         end)
        (invoke (ConsoleError "Upload failed:") ;;
         setSubmitMessage "Upload failed. Please try again.")
        (setUploadProgress (λ prev, <[fileType := false]> prev))
  end.

(** [formData] and [uploadedFiles] are the values of the render the handler
    was created in; the setters act on the live state. *)
Definition handleSubmit `{Builtins} (env : Collaborators)
    (formData : GrantApplication) (uploadedFiles : FileUploadState) : Handler unit :=
  setIsSubmitting true ;;
  setSubmitMessage "" ;;
  try_catch_finally
    (when (negb (JS.ToBoolean (formData !! "company_name"))
           || negb (JS.ToBoolean (formData !! "contact_email"))
           || negb (JS.ToBoolean (formData !! "contact_person"))
           || negb (JS.ToBoolean (formData !! "contact_phone"))
           || negb (JS.ToBoolean (formData !! "project_description"))
           || JS.le (ToNumber (formData !! "grant_amount")) (JS.lit 0))
       (setSubmitMessage "Please fill in all required fields" ;;
        setIsSubmitting false ;;
        return_) ;;
     when (negb (Regex.test Regex.emailRegex (ToString (formData !! "contact_email"))))
       (setSubmitMessage "Please enter a valid email address" ;;
        setIsSubmitting false ;;
        return_) ;;
     when (JS.lt (ToNumber (formData !! "grant_amount")) (JS.lit 1000)
           || JS.gt (ToNumber (formData !! "grant_amount")) (JS.lit 1000000))
       (setSubmitMessage "Grant amount must be between $1,000 and $1,000,000" ;;
        setIsSubmitting false ;;
        return_) ;;
     when (negb (defined (uploadedFiles !! "business_plan"))
           || negb (defined (uploadedFiles !! "financial_statements"))
           || negb (defined (uploadedFiles !! "supporting_documents")))
       (setSubmitMessage
          "Please upload all required documents: Business Plan, Financial Statements, and Supporting Documents." ;;
        setIsSubmitting false ;;
        return_) ;;
     invoke GetUser ;;
     r ← await (auth_getUser env) ;
     match userError r, user r with
     | None, Some user =>
         let applicationData : GrantApplication :=
           <["status" := JS.VStr "pending"]>
             (<["user_id" := JS.VStr (User.id user)]> formData) in
         invoke (Insert "grant_applications" applicationData) ;;
         r ← await (table_insert env "grant_applications" applicationData) ;
         match error r with
         | Some err =>
             invoke (ConsoleError "Database error:") ;;
             setSubmitMessage ("Error submitting application: " +:+ message err) ;;
             return_
         | None =>
             match data r with
             | None => throw
             | Some data =>
                 setSubmitMessage
                   ("Application submitted successfully! Application ID: "
                      +:+ Row.id data +:+ ".") ;;
                 setTimeout ResetForm 5000
             end
         end
     | _, _ =>
         setSubmitMessage "Please log in to submit your application" ;;
         setIsSubmitting false ;;
         return_
     end)
    (invoke (ConsoleError "Submission failed:") ;;
     setSubmitMessage "Submission failed. Please check your connection and try again.")
    (setIsSubmitting false).

(** The draft the timer callback writes. *)
Definition resetFormData : GrantApplication :=
  <["company_name" := JS.VStr ""]>
  (<["contact_email" := JS.VStr ""]>
  (<["contact_phone" := JS.VStr ""]>
  (<["contact_person" := JS.VStr ""]>
  (<["grant_amount" := JS.VNum (JS.lit 0)]>
  (<["project_description" := JS.VStr ""]> ∅))))).

(** The body of a [setTimeout] callback. *)
Definition fire (cb : callback) : Handler unit :=
  match cb with
  | ResetForm =>
      setFormData (λ _, resetFormData) ;;
      setUploadedFiles (λ _, ∅) ;;
      setSubmitMessage ""
  end.

(** ** Events *)

(** What happens to the component: a change on an input, a selection in a
    file input, a click on the submit button, the [i]-th pending timer
    firing. The collaborators answer differently each time. *)
Inductive event : Type :=
| Change (e : ChangeEvent)
| FileChange (fileType : string) (files : list File.t) (env : Collaborators)
| SubmitClick (env : Collaborators)
| Timeout (i : nat).

(** The [i]-th pending timer fires: it is no longer pending and its
    callback runs. *)
Definition timeout (i : nat) : Handler unit :=
  λ w,
    match timers w !! i with
    | Some t =>
        fire (fires t)
          {| state := state w; calls := calls w; timers := delete i (timers w) |}
    | None => (w, Done (Normal tt))
    end.

(** The handler an event starts; [rendered_state] is the state of the
    render in which the handler was created. *)
Definition handler `{Builtins} (ev : event) (rendered_state : State) : Handler unit :=
  match ev with
  | Change e => handleInputChange e
  | FileChange fileType files env => handleFileUpload env files fileType
  | SubmitClick env =>
      handleSubmit env (formData rendered_state) (uploadedFiles rendered_state)
  | Timeout i => timeout i
  end.

(** An event handled with nothing else happening before its handler ends. *)
Definition dispatch `{Builtins} (ev : event) (w : World) : World :=
  run (handler ev (state w)) w.

(** The [name] and [type] of the inputs and the textarea the form renders
    with [onChange={handleInputChange}]. *)
Definition inputs : list (string * string) :=
  [ ("company_name", "text");
    ("contact_person", "text");
    ("contact_email", "email");
    ("contact_phone", "tel");
    ("grant_amount", "number");
    ("project_description", "textarea") ].

(** The [fileType] of the three file inputs. *)
Definition slots : list string :=
  [ "business_plan"; "financial_statements"; "supporting_documents" ].

(** The events the rendered form can raise. *)
Definition rendered (ev : event) : Prop :=
  match ev with
  | Change e => (target_name e, target_type e) ∈ inputs
  | FileChange fileType _ _ => fileType ∈ slots
  | SubmitClick _ => True
  | Timeout _ => True
  end.

(** ** The form over time

    Between two events the form is its world and the handlers that are
    suspended at an [await]. An event starts a handler, which runs until it
    ends or is suspended; a response resumes a suspended handler, which
    runs from the world as it then is until it ends or is suspended again.
    Uploads and a submission can so be in flight together. *)
Record Form : Type := {
  world : World;
  suspended : list (World → World * Step unit)
}.

Definition start (h : Handler unit) (f : Form) : Form :=
  let '(w, s) := h (world f) in
  {| world := w;
     suspended := match s with
                  | Done _ => suspended f
                  | Yield k => suspended f ++ [k]
                  end |}.

Definition resume (i : nat) (f : Form) : Form :=
  match suspended f !! i with
  | None => f
  | Some k =>
      let '(w, s) := k (world f) in
      {| world := w;
         suspended := match s with
                      | Done _ => delete i (suspended f)
                      | Yield k' => <[i := k']> (suspended f)
                      end |}
  end.

Definition initialForm : Form := {| world := initialWorld; suspended := [] |}.

Inductive step `{Builtins} : Form → Form → Prop :=
| step_event ev f :
    rendered ev → step f (start (handler ev (state (world f))) f)
| step_resume i f :
    step f (resume i f).

Inductive reachable `{Builtins} : Form → Prop :=
| reachable_init : reachable initialForm
| reachable_step f f' : reachable f → step f f' → reachable f'.

(** ** The validation rules

    The four checks of [handleSubmit], in its order, as a function of the
    draft and the uploaded files: the reason shown for the first check that
    fails, [None] when all pass. [handleSubmit_validator] relates it to the
    handler. *)
Definition validator `{Builtins} (formData : GrantApplication)
    (uploadedFiles : FileUploadState) : option string :=
  if negb (JS.ToBoolean (formData !! "company_name"))
     || negb (JS.ToBoolean (formData !! "contact_email"))
     || negb (JS.ToBoolean (formData !! "contact_person"))
     || negb (JS.ToBoolean (formData !! "contact_phone"))
     || negb (JS.ToBoolean (formData !! "project_description"))
     || JS.le (ToNumber (formData !! "grant_amount")) (JS.lit 0)
  then Some "Please fill in all required fields"
  else if negb (Regex.test Regex.emailRegex (ToString (formData !! "contact_email")))
  then Some "Please enter a valid email address"
  else if JS.lt (ToNumber (formData !! "grant_amount")) (JS.lit 1000)
          || JS.gt (ToNumber (formData !! "grant_amount")) (JS.lit 1000000)
  then Some "Grant amount must be between $1,000 and $1,000,000"
  else if negb (defined (uploadedFiles !! "business_plan"))
          || negb (defined (uploadedFiles !! "financial_statements"))
          || negb (defined (uploadedFiles !! "supporting_documents"))
  then Some "Please upload all required documents: Business Plan, Financial Statements, and Supporting Documents."
  else None.

(** The last check alone. *)
Definition documents_rule (uploadedFiles : FileUploadState) : option string :=
  if negb (defined (uploadedFiles !! "business_plan"))
     || negb (defined (uploadedFiles !! "financial_statements"))
     || negb (defined (uploadedFiles !! "supporting_documents"))
  then Some "Please upload all required documents: Business Plan, Financial Statements, and Supporting Documents."
  else None.

(** ** Vocabulary of the properties *)

(** The five required text fields. *)
Definition text_fields : list string :=
  [ "company_name"; "contact_email"; "contact_phone"; "contact_person";
    "project_description" ].

(** A text field that is empty: never written, or the empty string. *)
Definition empty_field (o : option JS.value) : Prop :=
  o = None ∨ o = Some (JS.VStr "").

(** A text field that holds some text. *)
Definition filled (o : option JS.value) : Prop :=
  ∃ s, o = Some (JS.VStr s) ∧ s ≠ "".

(** A number on the extended line that is at most [0]. *)
Definition not_positive (n : JS.number) : Prop :=
  match n with
  | JS.NaN => False
  | JS.Infinity negative => negative = true
  | JS.Finite q => (q <= 0)%Q
  end.

Definition positive (n : JS.number) : Prop :=
  match n with
  | JS.NaN => False
  | JS.Infinity negative => negative = false
  | JS.Finite q => (0 < q)%Q
  end.

(** A number on the extended line that lies outside [[lo, hi]]. *)
Definition outside (lo hi : Z) (n : JS.number) : Prop :=
  match n with
  | JS.NaN => False
  | JS.Infinity _ => True
  | JS.Finite q => (q < inject_Z lo)%Q ∨ (inject_Z hi < q)%Q
  end.

(** A number in [[lo, hi]]. *)
Definition within (lo hi : Z) (n : JS.number) : Prop :=
  match n with
  | JS.Finite q => (inject_Z lo <= q)%Q ∧ (q <= inject_Z hi)%Q
  | _ => False
  end.

(** The number [z]. *)
Definition is_number (z : Z) (n : JS.number) : Prop :=
  match n with
  | JS.Finite q => (q == inject_Z z)%Q
  | _ => False
  end.

(** The five text fields hold text and the amount is positive. *)
Definition required_filled (d : GrantApplication) : Prop :=
  (∀ k, k ∈ text_fields → filled (d !! k)) ∧
  ∃ n, d !! "grant_amount" = Some (JS.VNum n) ∧ positive n.

(** A draft as the form holds it: the text fields hold text and the amount
    holds a number ([reachable_typed]). *)
Definition typed (d : GrantApplication) : Prop :=
  (∀ k, k ∈ text_fields → ∃ s, d !! k = Some (JS.VStr s)) ∧
  ∃ n, d !! "grant_amount" = Some (JS.VNum n) ∧ n ≠ JS.NaN.

(** A part of an address: not empty, no white space, no [@]. *)
Definition email_atom (s : string) : Prop :=
  s ≠ "" ∧ Str.all Regex.not_space_at s = true.

(** The shape [local@domain.tld]. *)
Definition well_formed_email (s : string) : Prop :=
  ∃ local domain tld,
    s = local +:+ "@" +:+ domain +:+ "." +:+ tld ∧
    email_atom local ∧ email_atom domain ∧ email_atom tld.

(** No [@], or no dot in what follows an [@]. *)
Definition malformed_email (s : string) : Prop :=
  Str.has "@" s = false ∨
  ∃ local domain, s = local +:+ "@" +:+ domain ∧ Str.has "." domain = false.

(** A selection that is stored: a first file within the limit, a session,
    and a storage service that answers the upload under the generated path
    with the stored object and no error; [url] is the public URL of that
    object. *)
Definition upload_succeeds (env : Collaborators) (files : list File.t)
    (file : File.t) (url : string) : Prop :=
  ∃ rest usr stored,
    files = file :: rest ∧
    (File.size file <= 10 * 1024 * 1024)%N ∧
    auth_getUser env = Resolved {| user := Some usr; userError := None |} ∧
    storage_upload env "grant-documents"
      (User.id usr +:+ "/" +:+ crypto_randomUUID env +:+ "."
         +:+ JS.template_hole (JS.pop (JS.split "." (File.name file))))
      file = Resolved {| data := Some stored; error := None |} ∧
    url = storage_getPublicUrl env "grant-documents" (path stored).

(** The state once a handler has shown [m] and released the button. *)
Definition settled (m : string) (s : State) : State :=
  with_isSubmitting false (with_submitMessage m s).

(** A submission stopped by validation: the reason is shown, the button is
    released, and nothing else happened. *)
Definition rejected (reason : string) (w w' : World) : Prop :=
  state w' = settled reason (state w) ∧
  calls w' = calls w ∧
  timers w' = timers w.

(** The calls made between two worlds. *)
Definition calls_since (w w' : World) : list call :=
  drop (length (calls w)) (calls w').

(** A record sent to the table: a draft without status and owner, with
    the status "pending" and an identity attached. *)
Definition stamped (c : call) : Prop :=
  ∃ (d : GrantApplication) (uid : string),
    c = Insert "grant_applications"
          (<["status" := JS.VStr "pending"]> (<["user_id" := JS.VStr uid]> d)) ∧
    d !! "status" = None ∧ d !! "user_id" = None.

(** What holds of the form after every event. *)
Record consistent (w : World) : Prop := {
  no_status : formData (state w) !! "status" = None;
  no_owner : formData (state w) !! "user_id" = None;
  slots_paired :
    ∀ s, s ∈ slots →
      is_Some (uploadedFiles (state w) !! s) ↔
      is_Some (formData (state w) !! (s +:+ "_url"));
  text_typed :
    ∀ k, k ∈ text_fields → ∃ s, formData (state w) !! k = Some (JS.VStr s);
  amount_typed :
    ∃ n, formData (state w) !! "grant_amount" = Some (JS.VNum n) ∧ n ≠ JS.NaN;
  inserts_stamped :
    ∀ c, c ∈ calls w → is_insert c = true → stamped c
}.

(** A handler that, from where it stands, keeps [I] at every suspension
    and at its end, whatever happened to the world in between as long as
    [I] held. *)
Inductive preserves (I : World → Prop) : Step unit → Prop :=
| preserves_done c : preserves I (Done c)
| preserves_yield k :
    (∀ w, I w → I (fst (k w))) →
    (∀ w, I w → preserves I (snd (k w))) →
    preserves I (Yield k).

(** A handler that keeps [consistent] from its start to its end. *)
Definition keeps (h : Handler unit) : Prop :=
  ∀ w, consistent w → consistent (fst (h w)) ∧ preserves consistent (snd (h w)).

(** What holds of the form at every moment: its world is consistent and
    every suspended handler keeps it so when it goes on. *)
Definition form_ok (f : Form) : Prop :=
  consistent (world f) ∧
  Forall (λ k, preserves consistent (Yield k)) (suspended f).

(** Induction on where a handler stands, through its suspensions. *)
Fixpoint Step_induction {A : Type} (P : Step A → Prop)
    (Hdone : ∀ c, P (Done c))
    (Hyield : ∀ k, (∀ w, P (snd (k w))) → P (Yield k))
    (s : Step A) : P s :=
  match s with
  | Done c => Hdone c
  | Yield k => Hyield k (λ w, Step_induction P Hdone Hyield (snd (k w)))
  end.

(** ** Builtins for the examples

    They agree with the engine on non-empty strings of decimal digits, on
    integers, on [NaN] and on the infinities, which is all the examples
    below give them. *)
Module Examples.

Fixpoint digits (acc : N) (s : string) : option N :=
  match s with
  | EmptyString => Some acc
  | String c s' =>
      let n := N_of_ascii c in
      if ((48 <=? n) && (n <=? 57))%N then digits (10 * acc + (n - 48))%N s'
      else None
  end.

Definition parse (s : string) : JS.number :=
  match s with
  | EmptyString => JS.NaN
  | _ => match digits 0 s with
         | Some n => JS.Finite (inject_Z (Z.of_N n))
         | None => JS.NaN
         end
  end.

Definition print (n : JS.number) : string :=
  match n with
  | JS.NaN => "NaN"
  | JS.Infinity true => "-Infinity"
  | JS.Infinity false => "Infinity"
  | JS.Finite q => pretty (Qnum q)
  end.

Definition builtins : Builtins :=
  {| parseFloat := parse; StringToNumber := parse; NumberToString := print |}.

Definition file (name : string) (size : N) : File.t :=
  {| File.name := name; File.size := size |}.

Definition session (uid : string) : Promise UserResponse :=
  Resolved {| user := Some {| User.id := uid |}; userError := None |}.

Definition change (name type value : string) : event :=
  Change {| target_name := name; target_value := value; target_type := type |}.

(** The row the table answers with. *)
Definition row : Row.t := {|
  Row.id := "7d9f2c1e-0001";
  Row.company_name := "Acme Looms";
  Row.contact_email := "a@b.co";
  Row.contact_phone := "5550100";
  Row.contact_person := "Ada";
  Row.grant_amount := JS.lit 5000;
  Row.project_description := "Two new looms";
  Row.business_plan_url := None;
  Row.financial_statements_url := None;
  Row.supporting_documents_url := None;
  Row.status := "pending";
  Row.user_id := "user-1";
  Row.created_at := "2024-01-01T00:00:00Z"
|}.

(** Collaborators that accept everything, for the user [user-1]. *)
Definition env : Collaborators := {|
  auth_getUser := session "user-1";
  crypto_randomUUID := "123e4567-e89b-42d3-a456-426614174000";
  storage_upload := λ _ path _, Resolved {| data := Some {| path := path |}; error := None |};
  storage_getPublicUrl := λ bucket path, "https://storage.example/" +:+ bucket +:+ "/" +:+ path;
  table_insert := λ _ _, Resolved {| data := Some row; error := None |}
|}.

(** The same, with a storage service and a table that refuse. *)
Definition refusing : Collaborators := {|
  auth_getUser := session "user-1";
  crypto_randomUUID := "123e4567-e89b-42d3-a456-426614174000";
  storage_upload := λ _ _ _,
    Resolved {| data := None; error := Some {| message := "Bucket not found" |} |};
  storage_getPublicUrl := λ bucket path, "https://storage.example/" +:+ bucket +:+ "/" +:+ path;
  table_insert := λ _ _,
    Resolved {| data := None; error := Some {| message := "permission denied" |} |}
|}.

(** The form filled in and the three documents uploaded. *)
Definition filling : list event :=
  [ change "company_name" "text" "Acme Looms";
    change "contact_person" "text" "Ada";
    change "contact_email" "email" "a@b.co";
    change "contact_phone" "tel" "5550100";
    change "grant_amount" "number" "5000";
    change "project_description" "textarea" "Two new looms";
    FileChange "business_plan" [file "plan.pdf" 52100] env;
    FileChange "financial_statements" [file "statements.2023.xlsx" 80200] env;
    FileChange "supporting_documents" [file "letters" 1200] env ].

Definition ready : World :=
  foldl (λ w ev, @dispatch builtins ev w) initialWorld filling.

(** The same form with the amount changed to 500. *)
Definition low : World :=
  @dispatch builtins (change "grant_amount" "number" "500") ready.

(** Two uploads started one after the other, both waiting for the session. *)
Definition in_flight : Form :=
  start (@handler builtins
           (FileChange "financial_statements" [file "statements.2023.xlsx" 80200] env)
           initialState)
    (start (@handler builtins
              (FileChange "business_plan" [file "plan.pdf" 52100] env)
              initialState)
       initialForm).

(** The responses arrive, those of the second upload first. *)
Definition landed : Form :=
  resume 0 (resume 1 (resume 0 (resume 1 in_flight))).

(** The form filled in and then the address replaced by one without [@]. *)
Definition misaddressed : World :=
  @dispatch builtins (change "contact_email" "email" "john.example.com") ready.

(** The form with nothing but an address without [@] typed in. *)
Definition mistyped : World :=
  @dispatch builtins (change "contact_email" "email" "john.example.com") initialWorld.

End Examples.

(** * The rest of the form

    What the component renders from its state, and what holds of the calls
    it makes and of its controls over time. *)

Module View.

(** [s.includes(sub)] *)
Fixpoint includes (sub s : string) : bool :=
  String.prefix sub s
  || match s with
     | EmptyString => false
     | String _ s' => includes sub s'
     end.

(** The class of the message region: "success" or "error". *)
Definition messageClass (submitMessage : string) : string :=
  if includes "successfully" submitMessage || includes "Application ID" submitMessage
  then "success"
  else "error".

(** [{submitMessage && <div className={`submit-message ${...}`}>...</div>}]:
    the class name and the text of the region, when it is rendered. *)
Definition messageRegion (s : State) : option (string * string) :=
  if String.eqb (submitMessage s) "" then None
  else Some ("submit-message " +:+ messageClass (submitMessage s), submitMessage s).

(** [uploadProgress.slot] as a condition: an absent flag is falsy. *)
Definition uploading (s : State) (slot : string) : bool :=
  match uploadProgress s !! slot with
  | Some b => b
  | None => false
  end.

(** The file input of a slot: its [disabled] attribute, the text of its
    label and the name after the check mark, when there is one. *)
Record FileInput : Type := {
  input_disabled : bool;
  input_label : string;
  input_done : option string
}.

Definition fileInput (s : State) (slot : string) : FileInput :=
  {| input_disabled := uploading s slot;
     input_label := if uploading s slot then "Uploading..." else "Choose File";
     input_done := File.name <$> uploadedFiles s !! slot |}.

(** The submit button: its [disabled] attribute and its text. *)
Definition submitButton (s : State) : bool * string :=
  (isSubmitting s,
   if isSubmitting s then "Submitting Application..." else "Submit Grant Application").

End View.

(** ** Vocabulary of the further properties *)

(** An application as the rules want it: the five text fields filled, the
    address of the shape [local@domain.tld], the amount in
    [[1000, 1000000]]. *)
Definition well_formed_application (r : GrantApplication) : Prop :=
  (∀ k, k ∈ text_fields → filled (r !! k)) ∧
  (∃ s, r !! "contact_email" = Some (JS.VStr s) ∧ well_formed_email s) ∧
  (∃ n, r !! "grant_amount" = Some (JS.VNum n) ∧ within 1000 1000000 n).

(** A call the form may make: an upload goes to the bucket of the form,
    carries at most 10 MiB and never overwrites; an insert goes to the
    table of the form and carries a well-formed application with the status
    "pending" and an owner. *)
Definition permitted (c : call) : Prop :=
  match c with
  | Upload bucket _ file cacheControl upsert =>
      bucket = "grant-documents" ∧
      (File.size file <= 10 * 1024 * 1024)%N ∧
      cacheControl = "3600" ∧
      upsert = false
  | Insert table record =>
      table = "grant_applications" ∧
      well_formed_application record ∧
      record !! "status" = Some (JS.VStr "pending") ∧
      ∃ uid, record !! "user_id" = Some (JS.VStr uid)
  | _ => True
  end.

(** The calls of [w'] are those of [w] followed by calls that satisfy [P]. *)
Definition appends (P : call → Prop) (w w' : World) : Prop :=
  ∃ new, calls w' = calls w ++ new ∧ Forall P new.

(** A handler that, from where it stands, makes only calls that satisfy
    [P], from whatever world it goes on. *)
Inductive emitting (P : call → Prop) : Step unit → Prop :=
| emitting_done c : emitting P (Done c)
| emitting_yield k :
    (∀ w, appends P w (fst (k w))) →
    (∀ w, emitting P (snd (k w))) →
    emitting P (Yield k).

(** No control is switched to busy between [w] and [w']. *)
Definition quiet (w w' : World) : Prop :=
  (isSubmitting (state w') = true → isSubmitting (state w) = true) ∧
  ∀ slot, View.uploading (state w') slot = true → View.uploading (state w) slot = true.

(** A suspended handler that switches no control to busy and, when it
    ends, leaves [released] true. *)
Inductive owes (released : World → Prop) : (World → World * Step unit) → Prop :=
| owes_intro k :
    (∀ w, quiet w (fst (k w))) →
    (∀ w c, snd (k w) = Done c → released (fst (k w))) →
    (∀ w k', snd (k w) = Yield k' → owes released k') →
    owes released k.

(** The submit button released; the file input of a slot released. *)
Definition submit_released (w : World) : Prop := isSubmitting (state w) = false.

Definition slot_released (slot : string) (w : World) : Prop :=
  View.uploading (state w) slot = false.

(** Every control that is busy is busy for a handler in flight. *)
Definition accounted (f : Form) : Prop :=
  (isSubmitting (state (world f)) = true →
   ∃ k, k ∈ suspended f ∧ owes submit_released k) ∧
  (∀ slot, View.uploading (state (world f)) slot = true →
   ∃ k, k ∈ suspended f ∧ owes (slot_released slot) k) ∧
  Forall (λ k, ∃ released, owes released k) (suspended f).

(** A handler that makes only calls that satisfy [P], from its start to
    its end. *)
Definition emits (P : call → Prop) (h : Handler unit) : Prop :=
  ∀ w, appends P w (fst (h w)) ∧ emitting P (snd (h w)).

(** Every call made so far is permitted, and every handler in flight will
    make permitted calls only. *)
Definition lawful (f : Form) : Prop :=
  Forall permitted (calls (world f)) ∧
  Forall (λ k, emitting permitted (Yield k)) (suspended f).

(** A handler that, in its first segment, switches to busy at most the
    control it will release. *)
Definition begins (h : Handler unit) : Prop :=
  ∀ w,
    match snd (h w) with
    | Done _ => quiet w (fst (h w))
    | Yield k =>
        ∃ released,
          owes released k ∧
          (isSubmitting (state (fst (h w))) = true →
           isSubmitting (state w) = true ∨ released = submit_released) ∧
          (∀ slot, View.uploading (state (fst (h w))) slot = true →
                   View.uploading (state w) slot = true ∨
                   released = slot_released slot)
    end.

(** * The credential form and the application shell

    [src/components/Auth.tsx] and [src/App.tsx] keep a state of their own
    and talk to the identity service only. Their [async] functions are
    written in the monad of the handlers above, over the world of the
    component. *)

Module Async.

(** Where an [async] function over a world [W] stands: it has ended, or it
    is suspended at an [await]. *)
#[warnings="-register-all"]
Inductive Step (W A : Type) : Type :=
| Done (c : completion A)
| Yield (k : W → W * Step W A).
Arguments Done {W A} c.
Arguments Yield {W A} k.

Definition Task (W A : Type) : Type := W → W * Step W A.

Definition done {W A : Type} (c : completion A) : Task W A := λ w, (w, Done c).

Fixpoint on_done {W A B : Type} (s : Step W A) (f : completion A → Task W B)
    (w : W) : W * Step W B :=
  match s with
  | Done c => f c w
  | Yield k => (w, Yield (λ w', let '(w'', s') := k w' in on_done s' f w''))
  end.

Definition and_then {W A B : Type} (m : Task W A) (f : completion A → Task W B) :
    Task W B :=
  λ w, let '(w1, s) := m w in on_done s f w1.

#[export] Instance Task_ret {W : Type} : MRet (Task W) :=
  λ A a, done (Normal a).

#[export] Instance Task_bind {W : Type} : MBind (Task W) :=
  λ A B f m,
    and_then m (λ c, match c with
                     | Normal a => f a
                     | Return => done Return
                     | Throw => done Throw
                     end).

(** [return;] *)
Definition return_ {W A : Type} : Task W A := done Return.

(** [try { body } catch { handler }] *)
Definition try_catch {W : Type} (body handler : Task W unit) : Task W unit :=
  and_then body (λ c, match c with Throw => handler | _ => done c end).

(** [await p] *)
Definition await {W A : Type} (p : Promise A) : Task W A :=
  λ w, (w, Yield (match p with
                  | Resolved a => done (Normal a)
                  | Rejected => done Throw
                  end)).

(** [if (c) { body }] *)
Definition when {W : Type} (c : bool) (body : Task W unit) : Task W unit :=
  if c then body else mret tt.

(** A suspended function resumed at once, as often as it suspends. *)
Fixpoint settle {W A : Type} (s : Step W A) (w : W) : W :=
  match s with
  | Done _ => w
  | Yield k => let '(w', s') := k w in settle s' w'
  end.

(** A function run with nothing else happening before it ends. *)
Definition run {W : Type} (t : Task W unit) (w : W) : W :=
  let '(w1, s) := t w in settle s w1.

End Async.

(** ** The credential form *)

Module Auth.
Import Async.

(** [error.message] *)
#[local] Abbreviation error_message := message.

Record State : Type := {
  isSignUp : bool;
  email : string;
  password : string;
  message : string;
  messageType : string;
  isLoading : bool
}.

Definition initialState : State := {|
  isSignUp := false;
  email := "";
  password := "";
  message := "";
  messageType := "";
  isLoading := false
|}.

(** The user object of a response, as far as the form reads it. *)
Record AuthUser : Type := { email_confirmed_at : option string }.

(** The identity service: [{ data: { user }, error }] for the credentials
    and, for a registration, the address the confirmation mail links to. *)
Record Identity : Type := {
  (** [supabase.auth.signUp({ email, password, options: { emailRedirectTo } })] *)
  auth_signUp : string → string → string → Promise (Response AuthUser);
  (** [supabase.auth.signInWithPassword({ email, password })] *)
  auth_signInWithPassword : string → string → Promise (Response AuthUser)
}.

Inductive call : Type :=
| SignUp (email password emailRedirectTo : string)
| SignInWithPassword (email password : string)
| ConsoleError (label text : string).

Record World : Type := {
  state : State;
  calls : list call
}.

Definition initialWorld : World := {| state := initialState; calls := [] |}.

Definition modify (f : State → State) : Task World unit :=
  λ w, ({| state := f (state w); calls := calls w |}, Done (Normal tt)).

Definition invoke (c : call) : Task World unit :=
  λ w, ({| state := state w; calls := calls w ++ [c] |}, Done (Normal tt)).

Definition setIsSignUp (b : bool) : Task World unit :=
  modify (λ s, {| isSignUp := b; email := email s; password := password s;
                  message := message s; messageType := messageType s;
                  isLoading := isLoading s |}).

Definition setEmail (v : string) : Task World unit :=
  modify (λ s, {| isSignUp := isSignUp s; email := v; password := password s;
                  message := message s; messageType := messageType s;
                  isLoading := isLoading s |}).

Definition setPassword (v : string) : Task World unit :=
  modify (λ s, {| isSignUp := isSignUp s; email := email s; password := v;
                  message := message s; messageType := messageType s;
                  isLoading := isLoading s |}).

Definition setMessage (m : string) : Task World unit :=
  modify (λ s, {| isSignUp := isSignUp s; email := email s; password := password s;
                  message := m; messageType := messageType s;
                  isLoading := isLoading s |}).

Definition setMessageType (t : string) : Task World unit :=
  modify (λ s, {| isSignUp := isSignUp s; email := email s; password := password s;
                  message := message s; messageType := t;
                  isLoading := isLoading s |}).

Definition setIsLoading (b : bool) : Task World unit :=
  modify (λ s, {| isSignUp := isSignUp s; email := email s; password := password s;
                  message := message s; messageType := messageType s;
                  isLoading := b |}).

Definition emailRedirectTo : string :=
  "https://webform-ivory.vercel.app/?verified=true".

(** [if (error) { console.error(...); setMessage(...); setMessageType("error");
    setIsLoading(false); return; }] *)
Definition report (error : option ServiceError) : Task World unit :=
  match error with
  | Some e =>
      invoke (ConsoleError "Error signing up:" (error_message e)) ;;
      setMessage ("Error: " +:+ error_message e) ;;
      setMessageType "error" ;;
      setIsLoading false ;;
      return_
  | None => mret tt
  end.

(** [data.user && !data.user.email_confirmed_at] *)
Definition unconfirmed (user : option AuthUser) : bool :=
  match user with
  | Some u => negb (JS.ToBoolean (JS.VStr <$> email_confirmed_at u))
  | None => false
  end.

(** [handleSubmit], created in a render with the state [r]: [isSignUp],
    [email] and [password] are those of that render. *)
Definition handleSubmit (env : Identity) (r : State) : Task World unit :=
  setIsLoading true ;;
  setMessage "" ;;
  setMessageType "" ;;
  (if isSignUp r then
     invoke (SignUp (email r) (password r) emailRedirectTo) ;;
     response ← await (auth_signUp env (email r) (password r) emailRedirectTo) ;
     report (error response) ;;
     when (unconfirmed (data response))
       (setMessage
          "Please, check your inbox. You will receive a confirmation email shortly." ;;
        setMessageType "success")
   else
     invoke (SignInWithPassword (email r) (password r)) ;;
     response ← await (auth_signInWithPassword env (email r) (password r)) ;
     report (error response)) ;;
  setIsLoading false.

(** [() => { setIsSignUp(!isSignUp); }] of the render with the state [r]. *)
Definition toggle (r : State) : Task World unit := setIsSignUp (negb (isSignUp r)).

(** What the form shows: the title, whether the two inputs and the submit
    button are disabled, the text of the submit button, and the message
    with its text colour, when there is one. *)
Record View : Type := {
  title : string;
  disabled : bool;
  submit_text : string;
  shown_message : option (string * string)
}.

Definition render (s : State) : View := {|
  title := if isSignUp s then "Sign Up" else "Sign In";
  disabled := isLoading s;
  submit_text :=
    if isLoading s
    then (if isSignUp s then "Creating Account..." else "Signing In...")
    else (if isSignUp s then "Sign Up" else "Sign In");
  shown_message :=
    if String.eqb (message s) "" then None
    else Some (message s,
               if String.eqb (messageType s) "success" then "#0369a1" else "#dc2626")
|}.

End Auth.

(** ** The application shell *)

Module Session.
Record t : Type := { access_token : string }.
End Session.

Module App.
Import Async.

Record State : Type := {
  session : option Session.t;
  error : string;
  justVerified : bool
}.

Definition initialState : State := {|
  session := None;
  error := "";
  justVerified := false
|}.

(** The identity service, as the shell uses it. *)
Record Identity : Type := {
  (** [(await supabase.auth.getSession()).data.session] *)
  auth_getSession : Promise (option Session.t);
  (** [supabase.auth.signOut()], which resolves to [{ error }] *)
  auth_signOut : Promise (option ServiceError)
}.

(** The page the shell is loaded in. *)
Record Browser : Type := {
  (** [new URLSearchParams(window.location.search).get(key)] *)
  urlParams_get : string → option string;
  document_title : string
}.

Inductive call : Type :=
| GetSession
| SignOut
| ReplaceState (title url : string)
| OnAuthStateChange
| ConsoleError (label : string).

Record World : Type := {
  state : State;
  calls : list call
}.

Definition initialWorld : World := {| state := initialState; calls := [] |}.

Definition modify (f : State → State) : Task World unit :=
  λ w, ({| state := f (state w); calls := calls w |}, Done (Normal tt)).

Definition invoke (c : call) : Task World unit :=
  λ w, ({| state := state w; calls := calls w ++ [c] |}, Done (Normal tt)).

Definition setSession (v : option Session.t) : Task World unit :=
  modify (λ s, {| session := v; error := error s; justVerified := justVerified s |}).

Definition setError (m : string) : Task World unit :=
  modify (λ s, {| session := session s; error := m; justVerified := justVerified s |}).

Definition setJustVerified (b : bool) : Task World unit :=
  modify (λ s, {| session := session s; error := error s; justVerified := b |}).

Definition fetchSession (env : Identity) : Task World unit :=
  try_catch
    (invoke GetSession ;;
     currentSession ← await (auth_getSession env) ;
     setSession currentSession)
    (setError "Failed to fetch session" ;;
     invoke (ConsoleError "Session fetch error:")).

Definition logout (env : Identity) : Task World unit :=
  try_catch
    (invoke SignOut ;;
     _ ← await (auth_signOut env) ;
     mret tt)
    (setError "Failed to log out" ;;
     invoke (ConsoleError "Logout error:")).

(** The listener given to [onAuthStateChange]. *)
Definition authListener (session : option Session.t) : Task World unit :=
  setSession session.

(** The shell after its effect has run: the world, and the functions the
    effect called without awaiting them, where they are suspended. *)
Record Mounted : Type := {
  after : World;
  in_flight : list (World → World * Step World unit)
}.

(** The body of [useEffect(..., [])], run once after the first render.
    [fetchSession()] is not awaited: it runs as far as its first [await]
    and the effect goes on. *)
Definition effect (env : Identity) (page : Browser) (w : World) : Mounted :=
  let isVerifiedRedirect :=
    bool_decide (urlParams_get page "verified" = Some "true") in
  if isVerifiedRedirect then
    let '(w1, _) := setJustVerified true w in
    let '(w2, s) := fetchSession env w1 in
    let '(w3, _) := invoke (ReplaceState (document_title page) "/") w2 in
    let '(w4, _) := invoke OnAuthStateChange w3 in
    {| after := w4;
       in_flight := match s with Done _ => [] | Yield k => [k] end |}
  else
    let '(w1, _) := invoke OnAuthStateChange w in
    {| after := w1; in_flight := [] |}.

(** What the shell renders. *)
Inductive screen : Type :=
| LogoutAndForm
| Credentials.

Record View : Type := {
  alert : option string;
  status : option string;
  main : screen
}.

Definition render (s : State) : View := {|
  alert := if String.eqb (error s) "" then None else Some (error s);
  status :=
    if justVerified s
    then Some "Your email has been verified! You can now submit your application."
    else None;
  main := if defined (session s) then LogoutAndForm else Credentials
|}.

End App.

(** ** Vocabulary of the properties of the two components *)

(** The request a submission of the credential form sends, and the answer
    of the identity service to it. *)
Definition credentials_request (r : Auth.State) : Auth.call :=
  if Auth.isSignUp r
  then Auth.SignUp (Auth.email r) (Auth.password r) Auth.emailRedirectTo
  else Auth.SignInWithPassword (Auth.email r) (Auth.password r).

Definition credentials_answer (env : Auth.Identity) (r : Auth.State) :
    Promise (Response Auth.AuthUser) :=
  if Auth.isSignUp r
  then Auth.auth_signUp env (Auth.email r) (Auth.password r) Auth.emailRedirectTo
  else Auth.auth_signInWithPassword env (Auth.email r) (Auth.password r).

Definition is_request (c : Auth.call) : bool :=
  match c with
  | Auth.SignUp _ _ _ | Auth.SignInWithPassword _ _ => true
  | Auth.ConsoleError _ _ => false
  end.

(** A function that has ended without an exception. *)
Definition ended {W : Type} (s : Async.Step W unit) : Prop :=
  ∃ c, s = Async.Done c ∧ c ≠ Throw.

(** ** Further scenarios *)

Module Scenarios.

(** Collaborators whose identity service knows no session. *)
Definition signed_out : Collaborators := {|
  auth_getUser :=
    Resolved {| user := None;
                userError := Some {| message := "Auth session missing!" |} |};
  crypto_randomUUID := crypto_randomUUID Examples.env;
  storage_upload := storage_upload Examples.env;
  storage_getPublicUrl := storage_getPublicUrl Examples.env;
  table_insert := table_insert Examples.env
|}.

(** Collaborators that cannot be reached. *)
Definition offline : Collaborators := {|
  auth_getUser := Rejected;
  crypto_randomUUID := crypto_randomUUID Examples.env;
  storage_upload := λ _ _ _, Rejected;
  storage_getPublicUrl := storage_getPublicUrl Examples.env;
  table_insert := λ _ _, Rejected
|}.

(** The form filled in, no document uploaded. *)
Definition undocumented : World :=
  foldl (λ w ev, @dispatch Examples.builtins ev w) initialWorld (take 6 Examples.filling).

(** The form submitted and confirmed, the timer of the reset pending. *)
Definition confirmed : World :=
  @dispatch Examples.builtins (SubmitClick Examples.env) Examples.ready.

(** An identity service that registers a user who is yet to confirm the
    address, and refuses every login. *)
Definition identity : Auth.Identity := {|
  Auth.auth_signUp := λ _ _ _,
    Resolved {| data := Some {| Auth.email_confirmed_at := None |}; error := None |};
  Auth.auth_signInWithPassword := λ _ _,
    Resolved {| data := None;
                error := Some {| message := "Invalid login credentials" |} |}
|}.

(** The credential form switched to registration and filled in. *)
Definition registering : Auth.State := {|
  Auth.isSignUp := true;
  Auth.email := "ada@looms.example";
  Auth.password := "correct horse";
  Auth.message := "";
  Auth.messageType := "";
  Auth.isLoading := false
|}.

(** The page opened at its address, and from the link of the
    confirmation mail. *)
Definition plain_page : App.Browser := {|
  App.urlParams_get := λ _, None;
  App.document_title := "Grant Application"
|}.

Definition verified_page : App.Browser := {|
  App.urlParams_get := λ key, if String.eqb key "verified" then Some "true" else None;
  App.document_title := "Grant Application"
|}.

(** An identity service with a session for the shell. *)
Definition shell_identity : App.Identity := {|
  App.auth_getSession := Resolved (Some {| Session.access_token := "token-1" |});
  App.auth_signOut := Resolved None
|}.

End Scenarios.

(** * Facts *)

(** ** Strings *)

Module StrFacts.
Import Str.

Lemma app_nil_l (s : string) : "" +:+ s = s.
Proof. reflexivity. Qed.

Lemma app_cons (a : ascii) (s t : string) : String a s +:+ t = String a (s +:+ t).
Proof. reflexivity. Qed.

Ltac simpl_app := rewrite ?app_cons, ?app_nil_l in *.

Lemma app_eq_nil (s1 s2 : string) : s1 +:+ s2 = "" → s1 = "" ∧ s2 = "".
Proof. destruct s1; simpl_app; [auto | discriminate]. Qed.

Lemma has_app (c : ascii) (s1 s2 : string) :
  has c (s1 +:+ s2) = has c s1 || has c s2.
Proof.
  induction s1 as [|a s1 IH]; simpl_app; simpl; [reflexivity|].
  rewrite IH. apply orb_assoc.
Qed.

(** Where the first [c] of a string is, is determined. *)
Lemma first_char_split (c : ascii) (l r pre post : string) :
  has c l = false →
  l +:+ String c r = pre +:+ String c post →
  (pre = l ∧ post = r) ∨ ∃ x, r = x +:+ String c post.
Proof.
  revert pre. induction l as [|a l IH]; intros [|b pre]; simpl_app; simpl;
    intros Hno Heq.
  - injection Heq as <-. auto.
  - injection Heq as <- ->. right. now exists pre.
  - injection Heq as -> _. rewrite Ascii.eqb_refl in Hno. discriminate Hno.
  - injection Heq as -> Heq. apply orb_false_iff in Hno as [_ Hno].
    destruct (IH pre Hno Heq) as [[-> ->] | [x ->]]; [left | right]; eauto.
Qed.

Lemma app_inv_length (u1 u2 s1 s2 : string) :
  String.length u1 = String.length u2 → u1 +:+ s1 = u2 +:+ s2 → u1 = u2 ∧ s1 = s2.
Proof.
  revert u2. induction u1 as [|a u1 IH]; intros [|b u2]; simpl; try discriminate.
  - auto.
  - intros Hlen Heq. simpl_app. injection Hlen as Hlen. injection Heq as -> Heq.
    destruct (IH _ Hlen Heq) as [-> ->]. auto.
Qed.

End StrFacts.

(** ** The matcher decides the language of a pattern *)

Module RegexFacts.
Import Regex.

Lemma nullable_lang (r : re) : nullable r = true ↔ lang r "".
Proof.
  split.
  - induction r; simpl; intros Hn; try discriminate.
    + constructor.
    + apply andb_true_iff in Hn as [H1 H2].
      change "" with ("" +:+ ""). constructor; auto.
    + apply orb_true_iff in Hn as [H1 | H2];
        [apply lang_alt_l | apply lang_alt_r]; auto.
    + constructor.
  - intros Hl. remember "" as s eqn:Es.
    induction Hl; simpl; try discriminate; try reflexivity.
    + apply StrFacts.app_eq_nil in Es as [-> ->].
      rewrite IHHl1, IHHl2; auto.
    + rewrite IHHl; auto.
    + rewrite IHHl; auto using orb_true_r.
Qed.

Lemma deriv_sound (c : ascii) (r : re) (s : string) :
  lang (deriv c r) s → lang r (String c s).
Proof.
  revert s. induction r; simpl; intros s Hl.
  - inversion Hl.
  - inversion Hl.
  - destruct (p c) eqn:Hp; inversion Hl; subst. now constructor.
  - destruct (nullable r1) eqn:Hn.
    + inversion Hl as [| |? ? s1 s2 H1 H2| ? ? ? H1 | ? ? ? H2 | |]; subst.
      * inversion H1 as [| |? ? t1 t2 Ht1 Ht2| | | |]; subst.
        change (String c (t1 +:+ t2)) with (String c t1 +:+ t2).
        constructor; auto.
      * change (String c s) with ("" +:+ String c s).
        constructor; [now apply nullable_lang | auto].
    + inversion Hl as [| |? ? t1 t2 Ht1 Ht2| | | |]; subst.
      change (String c (t1 +:+ t2)) with (String c t1 +:+ t2).
      constructor; auto.
  - inversion Hl; subst; [apply lang_alt_l | apply lang_alt_r]; auto.
  - inversion Hl as [| |? ? t1 t2 Ht1 Ht2| | | |]; subst.
    change (String c (t1 +:+ t2)) with (String c t1 +:+ t2).
    constructor; auto.
Qed.

Lemma deriv_complete (c : ascii) (r : re) (s : string) :
  lang r (String c s) → lang (deriv c r) s.
Proof.
  intros Hl. remember (String c s) as t eqn:Et. revert s Et.
  induction Hl; intros u Et; simpl; try discriminate.
  - injection Et as -> <-. rewrite H. constructor.
  - destruct s1 as [|a s1]; StrFacts.simpl_app.
    + subst s2. assert (Hn : nullable r1 = true) by now apply nullable_lang.
      rewrite Hn. apply lang_alt_r. auto.
    + injection Et as -> <-.
      assert (Hd : lang (Seq (deriv c r1) r2) (s1 +:+ s2))
        by (constructor; auto).
      destruct (nullable r1); [apply lang_alt_l|]; exact Hd.
  - apply lang_alt_l. auto.
  - apply lang_alt_r. auto.
  - destruct s1 as [|a s1]; StrFacts.simpl_app.
    + subst s2. apply (IHHl2 u eq_refl).
    + injection Et as -> <-. constructor; auto.
Qed.

Lemma test_lang (r : re) (s : string) : test r s = true ↔ lang r s.
Proof.
  revert r. induction s as [|c s IH]; intros r; simpl.
  - apply nullable_lang.
  - rewrite IH. split; [apply deriv_sound | apply deriv_complete].
Qed.

(** [[p]+] denotes the non-empty strings of characters in [p]. *)
Lemma lang_star_class (p : ascii → bool) (s : string) :
  lang (Star (Class p)) s ↔ Str.all p s = true.
Proof.
  split.
  - intros Hl. remember (Star (Class p)) as r eqn:Er.
    induction Hl; try discriminate; [reflexivity|].
    injection Er as ->. inversion Hl1 as [|? ? Hp| | | | |]; subst.
    StrFacts.simpl_app. simpl. rewrite Hp. auto.
  - induction s as [|c s IH]; simpl; intros Ha.
    + constructor.
    + apply andb_true_iff in Ha as [Hc Hs].
      change (String c s) with (String c "" +:+ s).
      constructor; [now constructor | auto].
Qed.

Lemma lang_plus_class (p : ascii → bool) (s : string) :
  lang (Plus (Class p)) s ↔ s ≠ "" ∧ Str.all p s = true.
Proof.
  unfold Plus. split.
  - intros Hl. inversion Hl as [| |? ? s1 s2 H1 H2| | | |]; subst.
    inversion H1 as [|? ? Hp| | | | |]; subst.
    apply lang_star_class in H2. StrFacts.simpl_app. simpl.
    split; [discriminate|]. rewrite Hp. auto.
  - intros [Hne Ha]. destruct s as [|c s]; [congruence|].
    simpl in Ha. apply andb_true_iff in Ha as [Hc Hs].
    change (String c s) with (String c "" +:+ s).
    constructor; [now constructor | now apply lang_star_class].
Qed.

Lemma lang_char (a : ascii) (s : string) :
  lang (Class (is_char a)) s ↔ s = String a "".
Proof.
  split.
  - intros Hl. inversion Hl as [|? ? Hp| | | | |]; subst. unfold is_char in Hp.
    apply Ascii.eqb_eq in Hp. now subst.
  - intros ->. constructor. apply Ascii.eqb_refl.
Qed.

(** The pattern accepts exactly the addresses [local@domain.tld]. *)
Lemma emailRegex_shape (s : string) :
  test emailRegex s = true ↔ well_formed_email s.
Proof.
  rewrite test_lang. unfold emailRegex, well_formed_email, email_atom. split.
  - intros Hl.
    inversion Hl as [| |? ? l s1 Hl1 Hr1| | | |]; subst.
    inversion Hr1 as [| |? ? at_ s2 Hl2 Hr2| | | |]; subst.
    inversion Hr2 as [| |? ? d s3 Hl3 Hr3| | | |]; subst.
    inversion Hr3 as [| |? ? dot t Hl4 Hr4| | | |]; subst.
    apply lang_char in Hl2 as ->. apply lang_char in Hl4 as ->.
    apply lang_plus_class in Hl1, Hl3, Hr4.
    exists l, d, t. auto.
  - intros (l & d & t & -> & Hl & Hd & Ht).
    constructor; [now apply lang_plus_class|].
    change ("@" +:+ d +:+ "." +:+ t) with (String "@" "" +:+ (d +:+ "." +:+ t)).
    constructor; [now apply lang_char|].
    constructor; [now apply lang_plus_class|].
    change ("." +:+ t) with (String "." "" +:+ t).
    constructor; [now apply lang_char | now apply lang_plus_class].
Qed.

End RegexFacts.

(** ** Comparisons against a literal *)

Module JSFacts.

Lemma le_Finite (q : Q) (z : Z) :
  JS.le (JS.Finite q) (JS.lit z) = true ↔ (q <= inject_Z z)%Q.
Proof. apply Qle_bool_iff. Qed.

Lemma lt_Finite (q : Q) (z : Z) :
  JS.lt (JS.Finite q) (JS.lit z) = true ↔ (q < inject_Z z)%Q.
Proof.
  unfold JS.lt, JS.lit. rewrite negb_true_iff, <- not_true_iff_false, Qle_bool_iff.
  split; [apply Qnot_le_lt | apply Qlt_not_le].
Qed.

Lemma gt_Finite (q : Q) (z : Z) :
  JS.gt (JS.Finite q) (JS.lit z) = true ↔ (inject_Z z < q)%Q.
Proof.
  unfold JS.gt, JS.lt, JS.lit. rewrite negb_true_iff, <- not_true_iff_false, Qle_bool_iff.
  split; [apply Qnot_le_lt | apply Qlt_not_le].
Qed.

Lemma le_zero (n : JS.number) : JS.le n (JS.lit 0) = true ↔ not_positive n.
Proof.
  destruct n as [|[]|q]; simpl; try tauto; try (split; [discriminate | tauto || discriminate]).
  apply (le_Finite q 0).
Qed.

Lemma le_zero_false (n : JS.number) : positive n → JS.le n (JS.lit 0) = false.
Proof.
  intros Hp. apply not_true_iff_false. rewrite le_zero.
  destruct n as [|[]|q]; simpl in *; try tauto; try discriminate.
  apply Qlt_not_le, Hp.
Qed.

Lemma range_check (n : JS.number) (lo hi : Z) :
  JS.lt n (JS.lit lo) || JS.gt n (JS.lit hi) = true ↔ outside lo hi n.
Proof.
  destruct n as [|[]|q].
  - simpl. split; [discriminate | tauto].
  - simpl. tauto.
  - simpl. tauto.
  - rewrite orb_true_iff, lt_Finite, gt_Finite. reflexivity.
Qed.

Lemma range_check_inside (n : JS.number) (z lo hi : Z) :
  (lo <= z <= hi)%Z → is_number z n →
  JS.lt n (JS.lit lo) || JS.gt n (JS.lit hi) = false.
Proof.
  intros [Hlo Hhi] Hn. apply not_true_iff_false. rewrite range_check.
  destruct n as [|[]|q]; simpl in *; try tauto.
  rewrite Hn, <- !Zlt_Qlt. lia.
Qed.

Lemma is_number_positive (n : JS.number) (z : Z) :
  (0 < z)%Z → is_number z n → positive n.
Proof.
  destruct n as [|[]|q]; simpl; try tauto.
  intros Hz ->. change (inject_Z 0 < inject_Z z)%Q.
  rewrite <- Zlt_Qlt. exact Hz.
Qed.

End JSFacts.

(** ** Running the handlers *)

Ltac step_handler :=
  cbv beta iota zeta delta
    [run settle on_done and_then done
     handleSubmit handleFileUpload handleInputChange fire timeout
     try_catch_finally mbind mret Handler_bind Handler_ret when
     setSubmitMessage setIsSubmitting setFormData setUploadedFiles
     setUploadProgress modify invoke await setTimeout return_ throw
     with_formData with_uploadedFiles with_isSubmitting with_uploadProgress
     with_submitMessage settled];
  cbn [snd fst state calls timers formData uploadedFiles isSubmitting
       uploadProgress submitMessage user userError data error].

(** Splits on the checks that [validator] went through in [Hv]. *)
Ltac split_checks Hv :=
  unfold validator in Hv;
  repeat match type of Hv with
         | (if ?c then _ else _) = _ => destruct c
         end;
  try discriminate Hv.

Ltac flatten_calls := rewrite <- ?(assoc_L (++)); cbn [app].

Section Submission.
Context `{Builtins}.

(** A draft that fails a check is rejected with the reason of that check,
    before any collaborator is called. *)
Lemma handleSubmit_validator env d u w reason :
  validator d u = Some reason →
  rejected reason w (run (handleSubmit env d u) w).
Proof.
  intros Hv. unfold rejected, settled, handleSubmit.
  split_checks Hv; injection Hv as <-; step_handler; auto.
Qed.

(** A valid draft with a session present: one insert is requested, and its
    response decides the rest. *)
Lemma handleSubmit_session env d u w usr :
  validator d u = None →
  auth_getUser env = Resolved {| user := Some usr; userError := None |} →
  let record : GrantApplication :=
    <["status" := JS.VStr "pending"]> (<["user_id" := JS.VStr (User.id usr)]> d) in
  run (handleSubmit env d u) w =
  match table_insert env "grant_applications" record with
  | Resolved {| data := _; error := Some err |} =>
      {| state := settled ("Error submitting application: " +:+ message err) (state w);
         calls := calls w ++ [GetUser; Insert "grant_applications" record;
                              ConsoleError "Database error:"];
         timers := timers w |}
  | Resolved {| data := Some row; error := None |} =>
      {| state := settled ("Application submitted successfully! Application ID: "
                             +:+ Row.id row +:+ ".") (state w);
         calls := calls w ++ [GetUser; Insert "grant_applications" record];
         timers := timers w ++ [{| fires := ResetForm; delay := 5000 |}] |}
  | _ =>
      {| state := settled "Submission failed. Please check your connection and try again."
                    (state w);
         calls := calls w ++ [GetUser; Insert "grant_applications" record;
                              ConsoleError "Submission failed:"];
         timers := timers w |}
  end.
Proof.
  intros Hv Hu record. unfold handleSubmit, settled.
  split_checks Hv. step_handler. rewrite Hu. step_handler.
  fold record. destruct (table_insert env "grant_applications" record) as [[[row|] [err|]]|];
    step_handler; flatten_calls; reflexivity.
Qed.

(** Whatever the collaborators answer, a submission writes neither the
    draft nor the upload slots, and every record it sends carries the
    status and an identity. *)
Lemma handleSubmit_effect env d u w :
  let w' := run (handleSubmit env d u) w in
  formData (state w') = formData (state w) ∧
  uploadedFiles (state w') = uploadedFiles (state w) ∧
  ∃ new, calls w' = calls w ++ new ∧
    ∀ c, c ∈ new → is_insert c = true →
      ∃ uid, c = Insert "grant_applications"
                   (<["status" := JS.VStr "pending"]> (<["user_id" := JS.VStr uid]> d)).
Proof.
  intros w'. subst w'. destruct (validator d u) as [reason|] eqn:Hv.
  - destruct (handleSubmit_validator env d u w reason Hv) as (Hs & Hc & _).
    rewrite Hs, Hc. repeat split. exists []. rewrite app_nil_r.
    split; [reflexivity|]. intros c Hin. inversion Hin.
  - unfold handleSubmit. split_checks Hv. step_handler.
    destruct (auth_getUser env) as [[[usr|] [uerr|]]|]; step_handler;
      try (repeat split; eexists; flatten_calls; split; [reflexivity|];
           intros c Hin Hc; set_unfold; destruct_or?; subst; discriminate).
    match goal with
    | |- context [table_insert env ?t ?r] =>
        destruct (table_insert env t r) as [[[row|] [err|]]|]
    end; step_handler;
      (repeat split; eexists; flatten_calls; split; [reflexivity|];
       intros c Hin Hc; set_unfold; destruct_or?; subst; try discriminate;
       eexists; reflexivity).
Qed.

End Submission.

Section Upload.

(** Nothing selected: nothing happens. *)
Lemma handleFileUpload_nothing env fileType w :
  run (handleFileUpload env [] fileType) w = w.
Proof. reflexivity. Qed.

(** A selection above the limit: the message, and nothing else. *)
Lemma handleFileUpload_too_large env file rest fileType w :
  (10 * 1024 * 1024 < File.size file)%N →
  run (handleFileUpload env (file :: rest) fileType) w =
  {| state := with_submitMessage "File size must be less than 10MB" (state w);
     calls := calls w;
     timers := timers w |}.
Proof.
  intros Hsize. apply N.ltb_lt in Hsize.
  unfold handleFileUpload. cbn [head]. rewrite Hsize. reflexivity.
Qed.

(** An accepted selection with a session present: one upload is requested
    under the generated path, and its response decides the rest. *)
Lemma handleFileUpload_session env file rest fileType w usr :
  (File.size file <= 10 * 1024 * 1024)%N →
  auth_getUser env = Resolved {| user := Some usr; userError := None |} →
  let filePath :=
    User.id usr +:+ "/" +:+ crypto_randomUUID env +:+ "."
      +:+ JS.template_hole (JS.pop (JS.split "." (File.name file))) in
  let sent :=
    [GetUser; RandomUUID; Upload "grant-documents" filePath file "3600" false] in
  let released (s : State) : State :=
    with_uploadProgress (λ prev, <[fileType := false]> (<[fileType := true]> prev)) s in
  run (handleFileUpload env (file :: rest) fileType) w =
  match storage_upload env "grant-documents" filePath file with
  | Resolved {| data := _; error := Some err |} =>
      {| state := released
           (with_submitMessage
              ("Error uploading " +:+ JS.replace "_" " " fileType +:+ ": " +:+ message err)
              (state w));
         calls := calls w ++ sent ++ [ConsoleError "Upload error:"];
         timers := timers w |}
  | Resolved {| data := Some stored; error := None |} =>
      {| state := released
           (with_uploadedFiles (λ prev, <[fileType := file]> prev)
              (with_formData
                 (λ prev, <[fileType +:+ "_url" :=
                              JS.VStr (storage_getPublicUrl env "grant-documents" (path stored))]> prev)
                 (state w)));
         calls := calls w ++ sent ++
                    [GetPublicUrl "grant-documents" (path stored);
                     ConsoleLog ("File uploaded successfully: " +:+ path stored)];
         timers := timers w |}
  | _ =>
      {| state := released
           (with_submitMessage "Upload failed. Please try again." (state w));
         calls := calls w ++ sent ++ [ConsoleError "Upload failed:"];
         timers := timers w |}
  end.
Proof.
  intros Hsize Hu filePath sent released.
  assert (Hle : (10 * 1024 * 1024 <? File.size file)%N = false)
    by (apply N.ltb_ge; exact Hsize).
  unfold handleFileUpload. cbn [head]. rewrite Hle. step_handler.
  rewrite Hu. step_handler. fold filePath.
  destruct (storage_upload env "grant-documents" filePath file) as [[[stored|] [err|]]|];
    step_handler; flatten_calls; reflexivity.
Qed.

(** Whatever is selected and whatever the collaborators answer, an upload
    either leaves the draft and the slots as they were or writes the URL
    and the file handle of its slot together; it never requests an insert
    and sets no timer. *)
Lemma handleFileUpload_effect env files fileType w :
  let w' := run (handleFileUpload env files fileType) w in
  ((formData (state w') = formData (state w) ∧
    uploadedFiles (state w') = uploadedFiles (state w)) ∨
   (∃ url file,
      formData (state w') = <[fileType +:+ "_url" := JS.VStr url]> (formData (state w)) ∧
      uploadedFiles (state w') = <[fileType := file]> (uploadedFiles (state w)))) ∧
  (∃ new, calls w' = calls w ++ new ∧ ∀ c, c ∈ new → is_insert c = false) ∧
  timers w' = timers w.
Proof.
  intros w'. subst w'. destruct files as [|file rest].
  - rewrite handleFileUpload_nothing. split; [auto|]. split; [|reflexivity].
    exists []. rewrite app_nil_r. split; [reflexivity|]. intros c Hin. inversion Hin.
  - unfold handleFileUpload. cbn [head].
    destruct (10 * 1024 * 1024 <? File.size file)%N.
    { step_handler. split; [auto|]. split; [|reflexivity].
      exists []. rewrite app_nil_r. split; [reflexivity|]. intros c Hin. inversion Hin. }
    step_handler.
    destruct (auth_getUser env) as [[[usr|] [uerr|]]|]; step_handler;
      try (split; [auto|]; split; [|reflexivity]; eexists; flatten_calls;
           split; [reflexivity|]; intros c Hin; set_unfold; destruct_or?; subst;
           reflexivity).
    match goal with
    | |- context [storage_upload env ?b ?p ?f] =>
        destruct (storage_upload env b p f) as [[[stored|] [err|]]|]
    end; step_handler;
      (split; [eauto|]; split; [|reflexivity]; eexists; flatten_calls;
       split; [reflexivity|]; intros c Hin; set_unfold; destruct_or?; subst;
       reflexivity).
Qed.

End Upload.

(** ** The validation rules on typed drafts *)

Lemma text_fields_all (P : string → Prop) :
  P "company_name" → P "contact_email" → P "contact_phone" →
  P "contact_person" → P "project_description" →
  ∀ k, k ∈ text_fields → P k.
Proof.
  intros H1 H2 H3 H4 H5 k Hk. unfold text_fields in Hk.
  repeat (apply elem_of_cons in Hk as [-> | Hk]; [assumption|]).
  inversion Hk.
Qed.

Lemma slots_all (P : string → Prop) :
  P "business_plan" → P "financial_statements" → P "supporting_documents" →
  ∀ s, s ∈ slots → P s.
Proof.
  intros H1 H2 H3 s Hs. unfold slots in Hs.
  repeat (apply elem_of_cons in Hs as [-> | Hs]; [assumption|]).
  inversion Hs.
Qed.

Section Validation.
Context `{Builtins}.

Lemma filled_truthy (o : option JS.value) : filled o → JS.ToBoolean o = true.
Proof.
  intros (s & -> & Hs). simpl. apply negb_true_iff, String.eqb_neq, Hs.
Qed.

Lemma empty_falsy (o : option JS.value) : empty_field o → JS.ToBoolean o = false.
Proof. intros [-> | ->]; reflexivity. Qed.

Lemma documents_rule_complete (u : FileUploadState) :
  (∀ s, s ∈ slots → is_Some (u !! s)) → documents_rule u = None.
Proof.
  intros Hall. unfold documents_rule.
  destruct (Hall "business_plan") as [f1 ->]; [set_solver|].
  destruct (Hall "financial_statements") as [f2 ->]; [set_solver|].
  destruct (Hall "supporting_documents") as [f3 ->]; [set_solver|].
  reflexivity.
Qed.

(** The first rule fails as soon as a text field is empty or the amount is
    not positive. *)
Lemma validator_required_missing (d : GrantApplication) (u : FileUploadState) :
  (∃ k, k ∈ text_fields ∧ empty_field (d !! k)) ∨
  (∃ n, d !! "grant_amount" = Some (JS.VNum n) ∧ not_positive n) →
  validator d u = Some "Please fill in all required fields".
Proof.
  unfold validator. intros [(k & Hk & He) | (n & Hn & Hnp)].
  - apply empty_falsy in He. unfold text_fields in Hk.
    set_unfold. destruct_or?; subst; try contradiction; rewrite He; simpl;
      rewrite ?orb_true_r; reflexivity.
  - rewrite Hn. simpl ToNumber. apply JSFacts.le_zero in Hnp. rewrite Hnp.
    rewrite ?orb_true_r. reflexivity.
Qed.

(** Past the first rule, the verdict is that of the address, then of the
    amount, then of the documents. *)
Lemma validator_required_filled (d : GrantApplication) (u : FileUploadState)
    (s : string) (n : JS.number) :
  (∀ k, k ∈ text_fields → filled (d !! k)) →
  d !! "contact_email" = Some (JS.VStr s) →
  d !! "grant_amount" = Some (JS.VNum n) →
  positive n →
  validator d u =
    if negb (Regex.test Regex.emailRegex s)
    then Some "Please enter a valid email address"
    else if JS.lt n (JS.lit 1000) || JS.gt n (JS.lit 1000000)
    then Some "Grant amount must be between $1,000 and $1,000,000"
    else documents_rule u.
Proof.
  intros Hf Hs Hn Hp. unfold validator, documents_rule.
  rewrite !filled_truthy by (apply Hf; set_solver).
  rewrite Hn, Hs. simpl ToNumber. simpl ToString.
  rewrite (JSFacts.le_zero_false n Hp). reflexivity.
Qed.

Lemma atom_has_no_at (s : string) :
  Str.all Regex.not_space_at s = true → Str.has "@" s = false.
Proof.
  induction s as [|c s IH]; [reflexivity|]. simpl. intros Hs.
  apply andb_true_iff in Hs as [Hc Hs]. rewrite (IH Hs), orb_false_r.
  unfold Regex.not_space_at in Hc.
  apply negb_true_iff, orb_false_iff in Hc as [_ Hc]. exact Hc.
Qed.

Lemma malformed_not_well_formed (s : string) :
  malformed_email s → ¬ well_formed_email s.
Proof.
  intros Hm (l & dom & tld & -> & (_ & Hl) & (_ & Hd) & (_ & Ht)).
  apply atom_has_no_at in Hl, Hd, Ht.
  destruct Hm as [Hno | (pre & domain & Heq & Hdot)].
  - rewrite StrFacts.has_app in Hno. apply orb_false_iff in Hno as [_ Hno].
    discriminate Hno.
  - change ("@" +:+ dom +:+ "." +:+ tld) with (String "@" (dom +:+ "." +:+ tld)) in Heq.
    change ("@" +:+ domain) with (String "@" domain) in Heq.
    destruct (StrFacts.first_char_split _ _ _ _ _ Hl Heq) as [[_ ->] | [x Hx]].
    + rewrite StrFacts.has_app in Hdot. apply orb_false_iff in Hdot as [_ Hdot].
      discriminate Hdot.
    + apply (f_equal (Str.has "@")) in Hx.
      rewrite !StrFacts.has_app, Hd, Ht in Hx. simpl in Hx.
      rewrite orb_true_r in Hx. discriminate Hx.
Qed.

Lemma malformed_test (s : string) :
  malformed_email s → Regex.test Regex.emailRegex s = false.
Proof.
  intros Hm. apply not_true_iff_false. rewrite RegexFacts.emailRegex_shape.
  now apply malformed_not_well_formed.
Qed.

Lemma truthy_filled (o : option JS.value) (s : string) :
  o = Some (JS.VStr s) → JS.ToBoolean o = true → filled o.
Proof.
  intros -> Ht. exists s. split; [reflexivity|].
  simpl in Ht. apply negb_true_iff, String.eqb_neq in Ht. exact Ht.
Qed.

Lemma documents_rule_None (u : FileUploadState) :
  documents_rule u = None → ∀ s, s ∈ slots → is_Some (u !! s).
Proof.
  unfold documents_rule. intros Hd s Hs.
  destruct (u !! "business_plan") as [f1|] eqn:E1; [|discriminate Hd].
  destruct (u !! "financial_statements") as [f2|] eqn:E2; [|discriminate Hd].
  destruct (u !! "supporting_documents") as [f3|] eqn:E3; [|discriminate Hd].
  unfold slots in Hs. set_unfold. destruct_or?; subst; try contradiction; eauto.
Qed.

(** On a draft whose text fields hold text and whose amount holds a number,
    the four checks pass exactly when the five text fields are filled, the
    address has the shape [local@domain.tld], the amount lies in
    [[1000, 1000000]] and the three documents are there. *)
Lemma validator_accepts (d : GrantApplication) (u : FileUploadState) :
  (∀ k, k ∈ text_fields → ∃ s, d !! k = Some (JS.VStr s)) →
  (∃ n, d !! "grant_amount" = Some (JS.VNum n) ∧ n ≠ JS.NaN) →
  validator d u = None ↔
    (∀ k, k ∈ text_fields → filled (d !! k)) ∧
    (∃ s, d !! "contact_email" = Some (JS.VStr s) ∧ well_formed_email s) ∧
    (∃ n, d !! "grant_amount" = Some (JS.VNum n) ∧ within 1000 1000000 n) ∧
    (∀ s, s ∈ slots → is_Some (u !! s)).
Proof.
  intros Htext (n & Hn & HnN). split.
  - intros Hv.
    assert (Hreq : (∀ k, k ∈ text_fields → JS.ToBoolean (d !! k) = true) ∧
                   JS.le n (JS.lit 0) = false).
    { unfold validator in Hv. rewrite Hn in Hv. simpl ToNumber in Hv.
      match type of Hv with (if ?c then _ else _) = _ =>
        destruct c eqn:Hc; [discriminate Hv|] end.
      repeat (apply orb_false_iff in Hc as [Hc ?]).
      split; [|assumption].
      intros k Hk. unfold text_fields in Hk. set_unfold.
      destruct_or?; subst; try contradiction; now apply negb_false_iff. }
    destruct Hreq as [Htruthy Hle].
    assert (Hf : ∀ k, k ∈ text_fields → filled (d !! k)).
    { intros k Hk. destruct (Htext k Hk) as [s Hs].
      eapply truthy_filled; eauto. }
    assert (Hp : positive n).
    { destruct n as [|[]|q]; [congruence | discriminate Hle | reflexivity |].
      simpl. apply Qnot_le_lt. intros Hq. apply (JSFacts.le_Finite q 0) in Hq.
      rewrite Hq in Hle. discriminate Hle. }
    destruct (Htext "contact_email") as [s Hs]; [set_solver|].
    rewrite (validator_required_filled d u s n Hf Hs Hn Hp) in Hv.
    destruct (Regex.test Regex.emailRegex s) eqn:Htest; [|discriminate Hv].
    simpl negb in Hv. cbv iota in Hv.
    destruct (JS.lt n (JS.lit 1000) || JS.gt n (JS.lit 1000000)) eqn:Hrange;
      [discriminate Hv|].
    split; [exact Hf|]. split; [|split].
    + exists s. split; [exact Hs|]. now apply RegexFacts.emailRegex_shape.
    + exists n. split; [exact Hn|].
      apply orb_false_iff in Hrange as [Hlo Hhi].
      destruct n as [|[]|q]; simpl in Hlo, Hhi |- *; try congruence.
      apply negb_false_iff, Qle_bool_iff in Hlo, Hhi. auto.
    + now apply documents_rule_None.
  - intros (Hf & (s & Hs & Hwf) & (m & Hm & Hin) & Hdocs).
    assert (m = n) as -> by congruence.
    destruct n as [|[]|q]; simpl in Hin; try contradiction.
    destruct Hin as [Hlo Hhi].
    assert (Hp : positive (JS.Finite q)).
    { simpl. eapply Qlt_le_trans; [|exact Hlo]. reflexivity. }
    rewrite (validator_required_filled d u s _ Hf Hs Hn Hp).
    apply RegexFacts.emailRegex_shape in Hwf. rewrite Hwf. simpl negb. cbv iota.
    assert (Hrange : JS.lt (JS.Finite q) (JS.lit 1000)
                     || JS.gt (JS.Finite q) (JS.lit 1000000) = false).
    { apply orb_false_iff. unfold JS.gt, JS.lt, JS.lit.
      split; apply negb_false_iff, Qle_bool_iff; assumption. }
    rewrite Hrange. now apply documents_rule_complete.
Qed.

(** A number that is not [NaN] is positive or at most [0]. *)
Lemma positive_or_not (n : JS.number) : n ≠ JS.NaN → positive n ∨ not_positive n.
Proof.
  intros Hn. destruct n as [|[]|q]; simpl.
  - contradiction.
  - now right.
  - now left.
  - destruct (Qlt_le_dec 0 q); auto.
Qed.

(** On a typed draft the first rule has nothing in between: the required
    fields are filled, or one of them is missing. *)
Lemma typed_filled_or_missing (d : GrantApplication) :
  typed d →
  required_filled d ∨
  (∃ k, k ∈ text_fields ∧ empty_field (d !! k)) ∨
  (∃ n, d !! "grant_amount" = Some (JS.VNum n) ∧ not_positive n).
Proof.
  intros [Htext (n & Hn & Hnan)].
  assert (Hfields : (∀ k, k ∈ text_fields → filled (d !! k)) ∨
                    ∃ k, k ∈ text_fields ∧ empty_field (d !! k)).
  { induction text_fields as [|k l IH].
    - left. intros k Hk. inversion Hk.
    - destruct IH as [Hall | (k' & Hk' & He)].
      + intros k' Hk'. apply Htext. now apply list_elem_of_further.
      + destruct (Htext k (list_elem_of_here _ _)) as [s Hs].
        destruct (decide (s = "")) as [-> | Hne].
        * right. exists k. split; [apply list_elem_of_here | now right].
        * left. intros k' Hk'. apply elem_of_cons in Hk' as [-> | Hk'].
          -- exists s. auto.
          -- now apply Hall.
      + right. exists k'. split; [now apply list_elem_of_further | exact He]. }
  destruct Hfields as [Hall | Hmiss]; [|auto].
  destruct (positive_or_not n Hnan) as [Hp | Hnp].
  - left. split; [exact Hall|]. eauto.
  - right. right. eauto.
Qed.

End Validation.

(** ** What the events preserve *)

Ltac step_segment :=
  cbv beta iota zeta delta
    [on_done and_then done
     handleSubmit handleFileUpload handleInputChange fire timeout
     try_catch_finally mbind mret Handler_bind Handler_ret when
     setSubmitMessage setIsSubmitting setFormData setUploadedFiles
     setUploadProgress modify invoke await setTimeout return_ throw
     with_formData with_uploadedFiles with_isSubmitting with_uploadProgress
     with_submitMessage settled];
  cbn [snd fst state calls timers formData uploadedFiles isSubmitting
       uploadProgress submitMessage user userError data error].

(** No insert among the calls listed. *)
Ltac no_insert :=
  let c := fresh "c" in
  let Hin := fresh "Hin" in
  let Hc := fresh "Hc" in
  intros c Hin Hc;
  repeat (apply elem_of_cons in Hin as [-> | Hin]; [discriminate Hc|]);
  inversion Hin.

Section Reachable.
Context `{Builtins}.

Lemma initial_consistent : consistent initialWorld.
Proof.
  split; simpl.
  - reflexivity.
  - reflexivity.
  - apply slots_all; vm_compute; split; intros [? ?]; discriminate.
  - apply text_fields_all; eexists; reflexivity.
  - eexists. split; [reflexivity | discriminate].
  - intros c Hc. inversion Hc.
Qed.

(** What [parseFloat(value) || 0] leaves in the draft is a number. *)
Lemma or_number_not_NaN (n : JS.number) : JS.or_number n (JS.lit 0) ≠ JS.NaN.
Proof.
  destruct n as [|b|q]; unfold JS.or_number; simpl; [discriminate..|].
  destruct (negb (Qeq_bool q 0)); discriminate.
Qed.

(** The draft and the slots as they were, and calls that are no inserts
    or are stamped ones. *)
Lemma consistent_frame (w w' : World) (new : list call) :
  formData (state w') = formData (state w) →
  uploadedFiles (state w') = uploadedFiles (state w) →
  calls w' = calls w ++ new →
  (∀ c, c ∈ new → is_insert c = true → stamped c) →
  consistent w → consistent w'.
Proof.
  intros Hd Hu Hc Hnew [Hst Hown Hpair Htext Hamount Hins].
  split; rewrite ?Hd, ?Hu, ?Hc; try assumption.
  intros c Hin Hi. apply elem_of_app in Hin as [Hin | Hin]; auto.
Qed.

(** An input of the form changed. *)
Lemma consistent_change (name type : string) (v : string) (w w' : World) :
  (name, type) ∈ inputs →
  formData (state w') =
    <[name := if String.eqb type "number"
              then JS.VNum (JS.or_number (parseFloat v) (JS.lit 0))
              else JS.VStr v]> (formData (state w)) →
  uploadedFiles (state w') = uploadedFiles (state w) →
  calls w' = calls w →
  consistent w → consistent w'.
Proof.
  intros Hr Hd Hu Hc [Hst Hown Hpair Htext Hamount Hins].
  unfold inputs in Hr.
  split; rewrite ?Hd, ?Hu, ?Hc; try assumption.
  - set_unfold. destruct_or?; simplify_eq; try contradiction;
      rewrite lookup_insert_ne by discriminate; exact Hst.
  - set_unfold. destruct_or?; simplify_eq; try contradiction;
      rewrite lookup_insert_ne by discriminate; exact Hown.
  - intros s Hs. rewrite (Hpair s Hs). unfold slots in Hs.
    set_unfold. destruct_or?; simplify_eq; try contradiction;
      cbv [String.append]; rewrite lookup_insert_ne by discriminate; reflexivity.
  - intros k Hk. destruct (Htext k Hk) as [s Hks]. unfold text_fields in Hk.
    destruct (decide (name = k)) as [->|Hne].
    + rewrite lookup_insert_eq.
      set_unfold. destruct_or?; simplify_eq; try contradiction;
        try discriminate; eexists; reflexivity.
    + rewrite lookup_insert_ne by exact Hne. eauto.
  - destruct Hamount as (n & Hn & HnN).
    destruct (decide (name = "grant_amount")) as [->|Hne].
    + rewrite lookup_insert_eq.
      set_unfold. destruct_or?; simplify_eq; try contradiction;
        try discriminate. cbn [String.eqb].
      eexists. split; [reflexivity | apply or_number_not_NaN].
    + rewrite lookup_insert_ne by exact Hne. eauto.
Qed.

(** The URL and the file handle of a slot written together. *)
Lemma consistent_written (fileType url : string) (file : File.t)
    (w w' : World) (new : list call) :
  fileType ∈ slots →
  formData (state w') = <[fileType +:+ "_url" := JS.VStr url]> (formData (state w)) →
  uploadedFiles (state w') = <[fileType := file]> (uploadedFiles (state w)) →
  calls w' = calls w ++ new →
  (∀ c, c ∈ new → is_insert c = true → stamped c) →
  consistent w → consistent w'.
Proof.
  intros Hr Hd Hu Hc Hnew [Hst Hown Hpair Htext Hamount Hins].
  unfold slots in Hr.
  split; rewrite ?Hd, ?Hu, ?Hc.
  - set_unfold. destruct_or?; subst; try contradiction;
      cbv [String.append]; rewrite lookup_insert_ne by discriminate; exact Hst.
  - set_unfold. destruct_or?; subst; try contradiction;
      cbv [String.append]; rewrite lookup_insert_ne by discriminate; exact Hown.
  - intros s Hs. destruct (decide (s = fileType)) as [->|Hne].
    + rewrite !lookup_insert_eq. split; eauto.
    + rewrite lookup_insert_ne by congruence.
      rewrite (Hpair s Hs). unfold slots in Hs.
      set_unfold. destruct_or?; subst; try contradiction; try congruence;
        cbv [String.append]; rewrite lookup_insert_ne by discriminate; reflexivity.
  - intros k Hk. destruct (Htext k Hk) as [s Hks]. unfold text_fields in Hk.
    exists s. rewrite <- Hks.
    set_unfold. destruct_or?; subst; try contradiction;
      cbv [String.append]; apply lookup_insert_ne; discriminate.
  - destruct Hamount as (n & Hn & HnN). exists n. split; [|exact HnN].
    rewrite <- Hn.
    set_unfold. destruct_or?; subst; try contradiction;
      cbv [String.append]; apply lookup_insert_ne; discriminate.
  - intros c Hin Hi. apply elem_of_app in Hin as [Hin | Hin]; auto.
Qed.

(** The draft and the slots reset. *)
Lemma consistent_reset (w w' : World) :
  formData (state w') = resetFormData →
  uploadedFiles (state w') = ∅ →
  calls w' = calls w →
  consistent w → consistent w'.
Proof.
  intros Hd Hu Hc [_ _ _ _ _ Hins].
  split; rewrite ?Hd, ?Hu, ?Hc.
  - reflexivity.
  - reflexivity.
  - apply slots_all; vm_compute; split; intros [? ?]; discriminate.
  - apply text_fields_all; eexists; reflexivity.
  - eexists. split; [reflexivity | discriminate].
  - exact Hins.
Qed.

(** The world after a segment that wrote neither the draft nor the slots. *)
Ltac frame :=
  match goal with
  | Hw : consistent ?w |- consistent _ =>
      solve [ eapply (consistent_frame w);
              [ reflexivity
              | reflexivity
              | flatten_calls; first [reflexivity | symmetry; apply app_nil_r]
              | no_insert
              | exact Hw ] ]
  end.

Lemma handleInputChange_keeps (e : ChangeEvent) :
  rendered (Change e) → keeps (handleInputChange e).
Proof.
  intros Hr w Hw. destruct e as [name value type]. simpl in Hr.
  step_segment. cbn [target_name target_value target_type].
  split; [|constructor].
  eapply (consistent_change name type value); eauto.
Qed.

(** Closes what a segment leaves to show, but for a world whose draft
    was written and for a suspension. *)
Ltac keep :=
  lazymatch goal with
  | |- consistent _ => try frame
  | |- preserves _ (Done _) => apply preserves_done
  | |- _ => idtac
  end.

Lemma handleFileUpload_keeps (env : Collaborators) (files : list File.t)
    (fileType : string) :
  fileType ∈ slots → keeps (handleFileUpload env files fileType).
Proof.
  intros Hr w Hw. destruct files as [|file rest].
  { split; [exact Hw | constructor]. }
  unfold handleFileUpload. cbn [head].
  destruct (10 * 1024 * 1024 <? File.size file)%N.
  { step_segment. split; keep. }
  step_segment. split; [frame|].
  apply preserves_yield; intros w1 Hw1;
    destruct (auth_getUser env) as [[[usr|] [uerr|]]|]; step_segment; keep.
  apply preserves_yield; intros w2 Hw2;
    match goal with
    | |- context [storage_upload env ?b ?p ?f] =>
        destruct (storage_upload env b p f) as [[[stored|] [err|]]|]
    end; step_segment; keep.
  eapply (consistent_written fileType _ _ w2);
    [exact Hr | reflexivity | reflexivity | flatten_calls; reflexivity | no_insert
    | exact Hw2].
Qed.

Lemma handleSubmit_keeps (env : Collaborators) (d : GrantApplication)
    (u : FileUploadState) :
  d !! "status" = None → d !! "user_id" = None → keeps (handleSubmit env d u).
Proof.
  intros Hst Hown w Hw. destruct (validator d u) as [reason|] eqn:Hv.
  - unfold handleSubmit. split_checks Hv; step_segment; (split; keep).
  - unfold handleSubmit. split_checks Hv. step_segment. split; [frame|].
    apply preserves_yield; intros w1 Hw1;
      destruct (auth_getUser env) as [[[usr|] [uerr|]]|]; step_segment; keep.
    + eapply (consistent_frame w1);
        [reflexivity | reflexivity | reflexivity | | exact Hw1].
      intros c Hin _. apply list_elem_of_singleton in Hin as ->.
      exists d, (User.id usr). auto.
    + apply preserves_yield; intros w2 Hw2;
        match goal with
        | |- context [table_insert env ?t ?r] =>
            destruct (table_insert env t r) as [[[row|] [err|]]|]
        end; step_segment; keep.
Qed.

Lemma timeout_keeps (i : nat) : keeps (timeout i).
Proof.
  intros w Hw. unfold timeout.
  destruct (timers w !! i) as [[[] ms]|]; [|split; [exact Hw | constructor]].
  step_segment. split; [|constructor].
  eapply (consistent_reset w); [reflexivity | reflexivity | reflexivity | exact Hw].
Qed.

Lemma handler_keeps (ev : event) (s : State) :
  rendered ev →
  formData s !! "status" = None → formData s !! "user_id" = None →
  keeps (handler ev s).
Proof.
  destruct ev; intros Hr Hst Hown; cbn [handler].
  - now apply handleInputChange_keeps.
  - now apply handleFileUpload_keeps.
  - now apply handleSubmit_keeps.
  - apply timeout_keeps.
Qed.

Lemma initial_ok : form_ok initialForm.
Proof. split; [apply initial_consistent | constructor]. Qed.

Lemma step_ok (f f' : Form) : form_ok f → step f f' → form_ok f'.
Proof.
  intros [Hw Hs] Hstep. destruct Hstep as [ev f Hr | i f].
  - destruct (handler_keeps ev (state (world f)) Hr (no_status _ Hw) (no_owner _ Hw)
                (world f) Hw) as [Hw' Hp].
    unfold start. destruct (handler ev (state (world f)) (world f)) as [w' s'].
    simpl in Hw', Hp. split; [exact Hw'|]. cbn [suspended].
    destruct s' as [c|k]; [exact Hs|].
    apply Forall_app. split; [exact Hs|]. apply Forall_singleton. exact Hp.
  - unfold resume. destruct (suspended f !! i) as [k|] eqn:Hi; [|now split].
    pose proof (Forall_lookup_1 _ _ _ _ Hs Hi) as Hk.
    inversion Hk as [|k0 Hk1 Hk2]; subst.
    specialize (Hk1 (world f) Hw). specialize (Hk2 (world f) Hw).
    destruct (k (world f)) as [w' s']. simpl in Hk1, Hk2.
    split; [exact Hk1|]. cbn [suspended].
    destruct s' as [c|k'].
    + now apply Forall_delete.
    + apply Forall_insert; assumption.
Qed.

Lemma reachable_ok (f : Form) : reachable f → form_ok f.
Proof.
  induction 1 as [|f f' _ IH Hstep].
  - apply initial_ok.
  - now apply (step_ok f).
Qed.

Lemma reachable_consistent (f : Form) : reachable f → consistent (world f).
Proof. intros Hr. apply (reachable_ok f Hr). Qed.

(** Every draft the form can hold is typed. *)
Lemma reachable_typed (f : Form) : reachable f → typed (formData (state (world f))).
Proof.
  intros Hr. pose proof (reachable_consistent f Hr) as Hw.
  split; [apply (text_typed _ Hw) | apply (amount_typed _ Hw)].
Qed.

(** A handler that is resumed at once every time it suspends is one way
    for the form to go on. *)
Lemma reachable_settle (s : Step unit) :
  ∀ (w : World) (others : list (World → World * Step unit)),
    reachable {| world := w;
                 suspended := match s with
                              | Done _ => others
                              | Yield k => others ++ [k]
                              end |} →
    reachable {| world := settle s w; suspended := others |}.
Proof.
  induction s as [c|k IH] using Step_induction; intros w others Hr.
  - exact Hr.
  - simpl. specialize (IH w).
    assert (Hstep : reachable (resume (length others)
                                 {| world := w; suspended := others ++ [k] |})).
    { eapply reachable_step; [exact Hr | constructor]. }
    unfold resume in Hstep. cbn [suspended world] in Hstep.
    rewrite list_lookup_middle in Hstep by reflexivity.
    destruct (k w) as [w' s']. simpl in IH. apply IH.
    destruct s' as [c|k'].
    + rewrite delete_middle in Hstep. rewrite app_nil_r in Hstep. exact Hstep.
    + rewrite insert_app_r_alt in Hstep by reflexivity.
      rewrite Nat.sub_diag in Hstep. exact Hstep.
Qed.

Lemma reachable_dispatch (ev : event) (f : Form) :
  reachable f → rendered ev →
  reachable {| world := dispatch ev (world f); suspended := suspended f |}.
Proof.
  intros Hf Hr.
  assert (Hstart : reachable (start (handler ev (state (world f))) f)).
  { eapply reachable_step; [exact Hf | now constructor]. }
  unfold start in Hstart. unfold dispatch, run.
  destruct (handler ev (state (world f)) (world f)) as [w' s'].
  now apply reachable_settle.
Qed.

Lemma reachable_foldl (w : World) (evs : list event) :
  reachable {| world := w; suspended := [] |} →
  Forall rendered evs →
  reachable {| world := foldl (λ w ev, dispatch ev w) w evs; suspended := [] |}.
Proof.
  intros Hw Hevs. revert w Hw.
  induction Hevs as [|ev evs Hev _ IH]; intros w Hw; simpl; [exact Hw|].
  apply IH. exact (reachable_dispatch ev _ Hw Hev).
Qed.

End Reachable.

Lemma calls_since_app (w w' : World) (new : list call) :
  calls w' = calls w ++ new → calls_since w w' = new.
Proof. unfold calls_since. intros ->. apply drop_app_length. Qed.

Lemma calls_since_same (w w' : World) :
  calls w' = calls w → calls_since w w' = [].
Proof. unfold calls_since. intros ->. apply drop_all. Qed.

(** Two names generated for one user differ as soon as the generated parts
    differ (identifiers of one length, as UUIDs are). *)
Lemma generated_paths_differ (uid uuid1 uuid2 ext1 ext2 : string) :
  String.length uuid1 = String.length uuid2 →
  uuid1 ≠ uuid2 →
  uid +:+ "/" +:+ uuid1 +:+ "." +:+ ext1 ≠ uid +:+ "/" +:+ uuid2 +:+ "." +:+ ext2.
Proof.
  intros Hlen Hne Heq. apply String.app_inj in Heq.
  injection Heq as Heq.
  destruct (StrFacts.app_inv_length _ _ _ _ Hlen Heq) as [Hu _]. contradiction.
Qed.

(** * Properties of the form *)

Section Properties.
Context `{Builtins}.

(** C1. For every draft that passes the four validation rules (the fourth
    being that the three upload slots are complete; [validator_accepts]
    spells the four out), with a session present, one submission requests
    exactly one insert, whatever the table answers; the record sent is the
    draft with the status "pending" and the identity of the session as
    [user_id]. *)
Theorem submission_inserts_once (env : Collaborators) (w : World) (usr : User.t) :
  validator (formData (state w)) (uploadedFiles (state w)) = None →
  auth_getUser env = Resolved {| user := Some usr; userError := None |} →
  let w' := dispatch (SubmitClick env) w in
  let record : GrantApplication :=
    <["status" := JS.VStr "pending"]>
      (<["user_id" := JS.VStr (User.id usr)]> (formData (state w))) in
  List.filter is_insert (calls_since w w') = [Insert "grant_applications" record] ∧
  record !! "status" = Some (JS.VStr "pending") ∧
  record !! "user_id" = Some (JS.VStr (User.id usr)) ∧
  ∀ k, k ≠ "status" → k ≠ "user_id" → record !! k = formData (state w) !! k.
Proof.
  intros Hv Hu w' record. split; [|split; [|split]].
  - subst w'. unfold dispatch; cbn [handler]. rewrite (handleSubmit_session env _ _ w usr Hv Hu).
    fold record.
    destruct (table_insert env "grant_applications" record) as [[[row|] [err|]]|];
      (erewrite calls_since_app by reflexivity); reflexivity.
  - apply lookup_insert_eq.
  - unfold record. rewrite lookup_insert_ne by discriminate. apply lookup_insert_eq.
  - intros k Hs Hu'. unfold record. now rewrite !lookup_insert_ne by congruence.
Qed.

(** C2. For every draft in which one of the five required text fields is
    empty or the amount is not positive, submission is rejected with the
    reason "Please fill in all required fields", and no insert is requested
    (no collaborator is called at all). *)
Theorem missing_required_field_rejected (env : Collaborators) (w : World) :
  (∃ k, k ∈ text_fields ∧ empty_field (formData (state w) !! k)) ∨
  (∃ n, formData (state w) !! "grant_amount" = Some (JS.VNum n) ∧ not_positive n) →
  let w' := dispatch (SubmitClick env) w in
  rejected "Please fill in all required fields" w w' ∧
  List.filter is_insert (calls_since w w') = [].
Proof.
  intros Hmiss w'.
  assert (Hr : rejected "Please fill in all required fields" w w').
  { apply handleSubmit_validator, validator_required_missing, Hmiss. }
  split; [exact Hr|]. destruct Hr as (_ & Hc & _).
  now rewrite (calls_since_same _ _ Hc).
Qed.

(** C3. For every selection larger than 10 MiB the upload handler calls no
    collaborator (so never the storage service), records no file handle,
    writes nothing into the draft, sets no progress flag; the state changes
    in the message only. *)
Theorem oversized_file_rejected (env : Collaborators) (file : File.t)
    (rest : list File.t) (fileType : string) (w : World) :
  (10 * 1024 * 1024 < File.size file)%N →
  let w' := dispatch (FileChange fileType (file :: rest) env) w in
  calls_since w w' = [] ∧
  List.filter is_storage (calls_since w w') = [] ∧
  uploadedFiles (state w') = uploadedFiles (state w) ∧
  formData (state w') = formData (state w) ∧
  uploadProgress (state w') = uploadProgress (state w) ∧
  state w' = with_submitMessage "File size must be less than 10MB" (state w) ∧
  timers w' = timers w.
Proof.
  intros Hsize w'. subst w'. unfold dispatch; cbn [handler].
  rewrite (handleFileUpload_too_large env file rest fileType w Hsize).
  assert (Hc : ∀ st ts, calls_since w {| state := st; calls := calls w; timers := ts |} = [])
    by (intros; now apply calls_since_same).
  rewrite Hc. repeat split.
Qed.

(** C4. For every accepted selection with a session present, the handler
    asks the generator for one name and submits the file once, under
    [user id/generated name.extension]. When the storage service answers
    with a stored object, the public URL of that object is written into the
    draft under [{slot}_url] and the file handle is recorded for the slot;
    when it answers with an error, the message of that error is shown and
    neither the URL nor the file handle is written; nor are they when the
    request is rejected or the answer is empty. In every case the progress
    flag of the slot is off at the end. *)
Theorem accepted_upload_outcome (env : Collaborators) (file : File.t)
    (rest : list File.t) (fileType : string) (w : World) (usr : User.t) :
  (File.size file <= 10 * 1024 * 1024)%N →
  auth_getUser env = Resolved {| user := Some usr; userError := None |} →
  let filePath :=
    User.id usr +:+ "/" +:+ crypto_randomUUID env +:+ "."
      +:+ JS.template_hole (JS.pop (JS.split "." (File.name file))) in
  let w' := dispatch (FileChange fileType (file :: rest) env) w in
  let unset :=
    formData (state w') = formData (state w) ∧
    uploadedFiles (state w') = uploadedFiles (state w) in
  (∃ rest_of_calls,
     calls_since w w' =
       [GetUser; RandomUUID; Upload "grant-documents" filePath file "3600" false]
         ++ rest_of_calls ∧
     List.filter is_upload rest_of_calls = [] ∧
     RandomUUID ∉ rest_of_calls) ∧
  uploadProgress (state w') !! fileType = Some false ∧
  match storage_upload env "grant-documents" filePath file with
  | Resolved {| data := _; error := Some err |} =>
      submitMessage (state w') =
        "Error uploading " +:+ JS.replace "_" " " fileType +:+ ": " +:+ message err ∧
      unset
  | Resolved {| data := Some stored; error := None |} =>
      let url := storage_getPublicUrl env "grant-documents" (path stored) in
      formData (state w') = <[fileType +:+ "_url" := JS.VStr url]> (formData (state w)) ∧
      uploadedFiles (state w') = <[fileType := file]> (uploadedFiles (state w)) ∧
      submitMessage (state w') = submitMessage (state w)
  | _ =>
      submitMessage (state w') = "Upload failed. Please try again." ∧
      unset
  end.
Proof.
  intros Hsize Hu filePath w' unset. subst w' unset. unfold dispatch; cbn [handler].
  rewrite (handleFileUpload_session env file rest fileType w usr Hsize Hu).
  fold filePath.
  destruct (storage_upload env "grant-documents" filePath file)
    as [[[stored|] [err|]]|];
    cbn [error data state uploadProgress];
    (split; [eexists; split; [apply calls_since_app; reflexivity|];
             split; [reflexivity|];
             intros Hin;
             repeat (apply elem_of_cons in Hin as [Hin | Hin]; [discriminate Hin|]);
             inversion Hin|]);
    (split; [apply lookup_insert_eq|]);
    repeat split.
Qed.

(** C5. For every draft whose five text fields are filled and whose address
    is well formed, an amount outside [[1000, 1000000]] makes validation
    fail (with the reason of the first rule when the amount is not
    positive, with the reason of the amount rule otherwise) and the
    submission is rejected; the amounts [1000] and [1000000] pass the
    amount rule: the verdict is that of the documents rule, and the draft
    is valid when the three documents are there. *)
Theorem grant_amount_bounds (env : Collaborators) (w : World) (s : string)
    (n : JS.number) :
  let d := formData (state w) in
  let u := uploadedFiles (state w) in
  (∀ k, k ∈ text_fields → filled (d !! k)) →
  d !! "contact_email" = Some (JS.VStr s) →
  well_formed_email s →
  d !! "grant_amount" = Some (JS.VNum n) →
  (outside 1000 1000000 n →
   ∃ reason,
     validator d u = Some reason ∧
     rejected reason w (dispatch (SubmitClick env) w) ∧
     reason = if JS.le n (JS.lit 0)
              then "Please fill in all required fields"
              else "Grant amount must be between $1,000 and $1,000,000") ∧
  (is_number 1000 n ∨ is_number 1000000 n →
   validator d u = documents_rule u ∧
   ((∀ slot, slot ∈ slots → is_Some (u !! slot)) → validator d u = None)).
Proof.
  intros d u Hf Hs Hwf Hn.
  assert (Htest : Regex.test Regex.emailRegex s = true)
    by now apply RegexFacts.emailRegex_shape.
  split.
  - intros Hout. destruct (JS.le n (JS.lit 0)) eqn:Hle.
    + exists "Please fill in all required fields".
      assert (Hv : validator d u = Some "Please fill in all required fields").
      { apply validator_required_missing. right. exists n.
        split; [exact Hn | now apply JSFacts.le_zero]. }
      split; [exact Hv|]. split; [|reflexivity].
      now apply handleSubmit_validator.
    + exists "Grant amount must be between $1,000 and $1,000,000".
      assert (Hp : positive n).
      { destruct n as [|[]|q]; simpl in Hout |- *; try tauto; try reflexivity;
          try (simpl in Hle; discriminate Hle).
        apply Qnot_le_lt. intros Hq. apply (JSFacts.le_Finite q 0) in Hq.
        rewrite Hq in Hle. discriminate Hle. }
      assert (Hv : validator d u =
                   Some "Grant amount must be between $1,000 and $1,000,000").
      { rewrite (validator_required_filled d u s n Hf Hs Hn Hp), Htest.
        apply JSFacts.range_check in Hout. simpl negb. cbv iota.
        now rewrite Hout. }
      split; [exact Hv|]. split; [|reflexivity].
      now apply handleSubmit_validator.
  - intros Hb.
    assert (Hp : positive n).
    { destruct Hb as [Hb | Hb]; eapply JSFacts.is_number_positive; eauto; lia. }
    assert (Hin : JS.lt n (JS.lit 1000) || JS.gt n (JS.lit 1000000) = false).
    { destruct Hb as [Hb | Hb]; eapply JSFacts.range_check_inside; eauto; lia. }
    assert (Hv : validator d u = documents_rule u).
    { rewrite (validator_required_filled d u s n Hf Hs Hn Hp), Htest, Hin.
      reflexivity. }
    split; [exact Hv|]. intros Hdocs. rewrite Hv.
    now apply documents_rule_complete.
Qed.

(** C6, as the code has it. For every malformed address (no [@], or no dot
    in what follows the [@]) validation fails and the submission is
    rejected. The reason is the one of the address rule when the
    required-fields rule passes (the five text fields filled and the amount
    positive); otherwise, on every draft the form can hold, it is the one
    of the required-fields rule, which comes first. The address [a@b.co]
    passes the address rule: no draft with it is rejected for its
    address. *)
Theorem malformed_email_rejected (env : Collaborators) (w : World) (s : string) :
  let d := formData (state w) in
  let w' := dispatch (SubmitClick env) w in
  d !! "contact_email" = Some (JS.VStr s) →
  malformed_email s →
  (∃ reason, rejected reason w w' ∧
     (reason = "Please fill in all required fields" ∨
      reason = "Please enter a valid email address")) ∧
  (required_filled d → rejected "Please enter a valid email address" w w') ∧
  (typed d → ¬ required_filled d →
   rejected "Please fill in all required fields" w w') ∧
  Regex.test Regex.emailRegex "a@b.co" = true ∧
  (∀ (d' : GrantApplication) (u' : FileUploadState),
     d' !! "contact_email" = Some (JS.VStr "a@b.co") →
     validator d' u' ≠ Some "Please enter a valid email address").
Proof.
  intros d w' Hs Hm.
  assert (Htest : Regex.test Regex.emailRegex s = false) by now apply malformed_test.
  split; [|split; [|split; [|split]]].
  - assert (Hv : validator d (uploadedFiles (state w)) =
                   Some "Please fill in all required fields" ∨
                 validator d (uploadedFiles (state w)) =
                   Some "Please enter a valid email address").
    { unfold validator. rewrite Hs. simpl ToString. rewrite Htest.
      match goal with |- context [if ?c then _ else _] => destruct c end; auto. }
    subst w'. unfold dispatch; cbn [handler].
    destruct Hv as [Hv | Hv];
      [exists "Please fill in all required fields"
      |exists "Please enter a valid email address"];
      (split; [apply handleSubmit_validator; exact Hv | auto]).
  - intros (Hf & n & Hn & Hp). subst w'. unfold dispatch; cbn [handler]. apply handleSubmit_validator.
    rewrite (validator_required_filled d _ s n Hf Hs Hn Hp), Htest. reflexivity.
  - intros Ht Hnot. subst w'. unfold dispatch; cbn [handler].
    apply handleSubmit_validator, validator_required_missing.
    destruct (typed_filled_or_missing d Ht) as [Hf | Hmiss]; [contradiction | exact Hmiss].
  - reflexivity.
  - intros d' u' Hs'. unfold validator. rewrite Hs'. simpl ToString.
    change (Regex.test Regex.emailRegex "a@b.co") with true. simpl negb. cbv iota.
    repeat match goal with |- context [if ?c then _ else _] => destruct c end;
      discriminate.
Qed.

(** C7. When the table answers the insert with an error, the handler shows
    the message of that error, leaves every field of the draft and every
    upload slot as they were, releases the button and sets no timer: the
    same valid draft can be submitted again. *)
Theorem insert_failure_preserves_draft (env : Collaborators) (w : World)
    (usr : User.t) (stored : option Row.t) (err : ServiceError) :
  validator (formData (state w)) (uploadedFiles (state w)) = None →
  auth_getUser env = Resolved {| user := Some usr; userError := None |} →
  table_insert env "grant_applications"
    (<["status" := JS.VStr "pending"]>
       (<["user_id" := JS.VStr (User.id usr)]> (formData (state w))))
    = Resolved {| data := stored; error := Some err |} →
  let w' := dispatch (SubmitClick env) w in
  submitMessage (state w') = "Error submitting application: " +:+ message err ∧
  formData (state w') = formData (state w) ∧
  uploadedFiles (state w') = uploadedFiles (state w) ∧
  isSubmitting (state w') = false ∧
  timers w' = timers w ∧
  validator (formData (state w')) (uploadedFiles (state w')) = None.
Proof.
  intros Hv Hu Hins w'. subst w'. unfold dispatch; cbn [handler].
  rewrite (handleSubmit_session env _ _ w usr Hv Hu). cbv zeta. rewrite Hins.
  destruct stored; cbn [state timers formData uploadedFiles isSubmitting
                        submitMessage settled with_isSubmitting with_submitMessage];
    repeat split; exact Hv.
Qed.

(** C8. After a successful submission (the table answered with the stored
    row) the message shown contains the identifier of that row, and one
    timer of 5000 ms is pending; when that timer fires, in whatever state
    the form then is, the five text fields are empty, the amount is [0], no
    [{slot}_url] is left in the draft and no slot holds a file. *)
Theorem successful_submission_confirms_and_resets (env : Collaborators)
    (w : World) (usr : User.t) (row : Row.t) :
  validator (formData (state w)) (uploadedFiles (state w)) = None →
  auth_getUser env = Resolved {| user := Some usr; userError := None |} →
  table_insert env "grant_applications"
    (<["status" := JS.VStr "pending"]>
       (<["user_id" := JS.VStr (User.id usr)]> (formData (state w))))
    = Resolved {| data := Some row; error := None |} →
  let w' := dispatch (SubmitClick env) w in
  Str.contains (Row.id row) (submitMessage (state w')) ∧
  timers w' = timers w ++ [{| fires := ResetForm; delay := 5000 |}] ∧
  ∀ (later : World) (i : nat),
    timers later !! i = Some {| fires := ResetForm; delay := 5000 |} →
    let w'' := dispatch (Timeout i) later in
    (∀ k, k ∈ text_fields → formData (state w'') !! k = Some (JS.VStr "")) ∧
    formData (state w'') !! "grant_amount" = Some (JS.VNum (JS.lit 0)) ∧
    (∀ slot, slot ∈ slots →
       formData (state w'') !! (slot +:+ "_url") = None ∧
       uploadedFiles (state w'') !! slot = None) ∧
    formData (state w'') = resetFormData ∧
    uploadedFiles (state w'') = ∅.
Proof.
  intros Hv Hu Hins w'. subst w'. unfold dispatch at 1 2; cbn [handler].
  rewrite (handleSubmit_session env _ _ w usr Hv Hu). cbv zeta. rewrite Hins.
  split; [|split].
  - eexists _, _. reflexivity.
  - reflexivity.
  - intros later i Hi. unfold dispatch, run; cbn [handler]. unfold timeout.
    rewrite Hi. cbn [fires]. step_handler.
    split; [|split; [|split; [|split]]]; try reflexivity.
    + intros k Hk. unfold text_fields in Hk. set_unfold.
      destruct_or?; subst; try contradiction; reflexivity.
    + intros slot Hslot. unfold slots in Hslot. set_unfold.
      destruct_or?; subst; try contradiction; split; reflexivity.
Qed.

(** C9. At every moment the form can reach, uploads and a submission in
    flight included, the draft holds neither a status nor an owner
    identity; every record the form has sent to the table is a draft
    without them to which the status "pending" and an identity were added
    for the call. *)
Theorem draft_never_holds_status_or_owner (f : Form) :
  reachable f →
  formData (state (world f)) !! "status" = None ∧
  formData (state (world f)) !! "user_id" = None ∧
  ∀ c, c ∈ calls (world f) → is_insert c = true → stamped c.
Proof.
  intros Hr. destruct (reachable_consistent f Hr) as [Hst Hown _ _ _ Hins]. auto.
Qed.

(** C10. At every moment the form can reach, a slot holds a file handle
    exactly when the draft holds the URL of that slot. Handler by handler,
    run from there to its end: a change of a text or number input touches
    neither; a file selection that is stored sets both for its own slot,
    the handle to the file and the URL to the public URL of the stored
    object, and touches neither of another slot; a file selection that is
    not stored (no file, a file above the limit, no session, an upload
    answered with an error or without an object, a rejected promise)
    touches neither; a submission touches neither; a pending timer of the
    reset clears both, and a timer that is not pending touches neither. *)
Theorem slot_and_url_paired (f : Form) (s : string) :
  reachable f →
  s ∈ slots →
  let w := world f in
  (is_Some (uploadedFiles (state w) !! s) ↔
   is_Some (formData (state w) !! (s +:+ "_url"))) ∧
  ∀ ev, rendered ev →
    let w' := dispatch ev w in
    let same :=
      uploadedFiles (state w') !! s = uploadedFiles (state w) !! s ∧
      formData (state w') !! (s +:+ "_url") = formData (state w) !! (s +:+ "_url") in
    match ev with
    | Change _ => same
    | FileChange fileType files env =>
        (∀ file url,
           upload_succeeds env files file url →
           fileType = s →
           uploadedFiles (state w') !! s = Some file ∧
           formData (state w') !! (s +:+ "_url") = Some (JS.VStr url)) ∧
        ((∀ file url, ¬ upload_succeeds env files file url) → same) ∧
        (fileType ≠ s → same)
    | SubmitClick _ => same
    | Timeout i =>
        match timers w !! i with
        | Some _ =>
            uploadedFiles (state w') !! s = None ∧
            formData (state w') !! (s +:+ "_url") = None
        | None => same
        end
    end.
Proof.
  intros Hr Hs w. split; [now apply (slots_paired w (reachable_consistent f Hr))|].
  intros ev Hev w' same. subst w' same. destruct ev as [e | fileType files env | env | i].
  - destruct e as [name value type]. unfold rendered, inputs in Hev. simpl in Hev.
    unfold dispatch; cbn [handler]. step_handler.
    cbn [target_name target_value target_type].
    split; [reflexivity|]. unfold slots in Hs.
    set_unfold. destruct_or?; simplify_eq; try contradiction;
      cbv [String.append]; apply lookup_insert_ne; discriminate.
  - unfold dispatch; cbn [handler]. split; [|split].
    + intros file url (rest & usr & stored & -> & Hsize & Hu & Hup & ->) ->.
      rewrite (handleFileUpload_session env file rest s w usr Hsize Hu).
      cbv zeta. rewrite Hup. cbn [state uploadedFiles formData with_uploadProgress
        with_uploadedFiles with_formData].
      now rewrite !lookup_insert_eq.
    + intros Hfail. destruct files as [|file rest].
      { now rewrite handleFileUpload_nothing. }
      destruct (N.lt_ge_cases (10 * 1024 * 1024) (File.size file)) as [Hbig | Hsize].
      { now rewrite (handleFileUpload_too_large env file rest fileType w Hbig). }
      destruct (auth_getUser env) as [[[usr|] [uerr|]]|] eqn:Hu.
      2: { rewrite (handleFileUpload_session env file rest fileType w usr Hsize Hu).
           cbv zeta.
           match goal with
           | |- context [storage_upload env ?b ?p ?f] =>
               destruct (storage_upload env b p f) as [[[stored|] [err|]]|] eqn:Hup
           end; try (split; reflexivity).
           exfalso. apply (Hfail file (storage_getPublicUrl env "grant-documents" (path stored))).
           exists rest, usr, stored. auto. }
      all: assert (Hle : (10 * 1024 * 1024 <? File.size file)%N = false)
             by (apply N.ltb_ge; exact Hsize);
           unfold handleFileUpload; cbn [head]; rewrite Hle; step_handler;
           rewrite Hu; step_handler; split; reflexivity.
    + intros Hne.
      destruct (handleFileUpload_effect env files fileType w)
        as ([[Hd Hu] | (url & file & Hd & Hu)] & _).
      * now rewrite Hd, Hu.
      * rewrite Hd, Hu. rewrite lookup_insert_ne by exact Hne. split; [reflexivity|].
        apply lookup_insert_ne. intros Heq. apply Hne.
        unfold rendered, slots in Hev. unfold slots in Hs.
        set_unfold. destruct_or?; subst; try contradiction; try reflexivity;
          discriminate Heq.
  - unfold dispatch; cbn [handler].
    destruct (handleSubmit_effect env (formData (state w)) (uploadedFiles (state w)) w)
      as (Hd & Hu & _).
    now rewrite Hd, Hu.
  - unfold dispatch, run; cbn [handler]. unfold timeout.
    destruct (timers w !! i) as [[[] ms]|]; [|split; reflexivity].
    step_handler. split; [reflexivity|]. unfold slots in Hs.
    set_unfold. destruct_or?; subst; try contradiction; reflexivity.
Qed.

End Properties.

(** * Examples *)

Example split_extension : JS.pop (JS.split "." "statements.2023.xlsx") = Some "xlsx".
Proof. reflexivity. Qed.

Example split_no_dot : JS.pop (JS.split "." "letters") = Some "letters".
Proof. reflexivity. Qed.

Example replace_first_only :
  JS.replace "_" " " "supporting_documents_x" = "supporting documents_x".
Proof. reflexivity. Qed.

Example email_accepted : Regex.test Regex.emailRegex "a@b.co" = true.
Proof. reflexivity. Qed.

Example email_subdomains :
  Regex.test Regex.emailRegex "first.last@mail.example.org" = true.
Proof. reflexivity. Qed.

Example email_without_at : Regex.test Regex.emailRegex "ab.co" = false.
Proof. reflexivity. Qed.

Example email_without_dot : Regex.test Regex.emailRegex "a@bco" = false.
Proof. reflexivity. Qed.

Example email_with_space : Regex.test Regex.emailRegex "a b@c.de" = false.
Proof. reflexivity. Qed.

Example email_two_ats : Regex.test Regex.emailRegex "a@b@c.de" = false.
Proof. reflexivity. Qed.

(** Exactly 10 MiB is accepted. *)
Example ten_mebibytes_accepted :
  calls (@dispatch Examples.builtins
           (FileChange "business_plan" [Examples.file "plan.pdf" 10485760] Examples.env)
           initialWorld) ≠ [].
Proof. vm_compute. discriminate. Qed.

Example ready_is_valid :
  @validator Examples.builtins (formData (state Examples.ready))
    (uploadedFiles (state Examples.ready)) = None.
Proof. vm_compute. reflexivity. Qed.

Example two_uploads_in_flight :
  length (suspended Examples.in_flight) = 2%nat ∧
  uploadProgress (state (world Examples.in_flight)) !! "business_plan" = Some true ∧
  uploadProgress (state (world Examples.in_flight)) !! "financial_statements" = Some true ∧
  calls (world Examples.in_flight) = [GetUser; GetUser].
Proof. vm_compute. auto. Qed.

Example two_uploads_landed :
  suspended Examples.landed = [] ∧
  is_Some (formData (state (world Examples.landed)) !! "business_plan_url") ∧
  is_Some (formData (state (world Examples.landed)) !! "financial_statements_url") ∧
  is_Some (uploadedFiles (state (world Examples.landed)) !! "business_plan") ∧
  is_Some (uploadedFiles (state (world Examples.landed)) !! "financial_statements") ∧
  uploadedFiles (state (world Examples.landed)) !! "supporting_documents" = None.
Proof. vm_compute. repeat split; eauto. Qed.

(** * The properties on the examples *)

Lemma ready_reachable :
  @reachable Examples.builtins {| world := Examples.ready; suspended := [] |}.
Proof.
  apply (@reachable_foldl Examples.builtins initialWorld); [constructor|].
  repeat (apply Forall_cons; split; [unfold rendered; simpl; set_solver|]).
  apply Forall_nil. exact I.
Defined.

Lemma submission_inserts_once_witness :
  @validator Examples.builtins (formData (state Examples.ready))
    (uploadedFiles (state Examples.ready)) = None ∧
  List.filter is_insert
    (calls_since Examples.ready
       (@dispatch Examples.builtins (SubmitClick Examples.env) Examples.ready)) =
  [Insert "grant_applications"
     (<["status" := JS.VStr "pending"]>
        (<["user_id" := JS.VStr "user-1"]> (formData (state Examples.ready))))].
Proof.
  assert (Hv : @validator Examples.builtins (formData (state Examples.ready))
                 (uploadedFiles (state Examples.ready)) = None)
    by (vm_compute; reflexivity).
  split; [exact Hv|].
  exact (proj1 (@submission_inserts_once Examples.builtins Examples.env
                  Examples.ready {| User.id := "user-1" |} Hv eq_refl)).
Defined.

Lemma missing_required_field_rejected_witness :
  empty_field (formData (state initialWorld) !! "company_name") ∧
  rejected "Please fill in all required fields" initialWorld
    (@dispatch Examples.builtins (SubmitClick Examples.env) initialWorld).
Proof.
  assert (He : empty_field (formData (state initialWorld) !! "company_name"))
    by (right; reflexivity).
  split; [exact He|].
  refine (proj1 (@missing_required_field_rejected Examples.builtins Examples.env
                   initialWorld _)).
  left. exists "company_name". split; [apply list_elem_of_here | exact He].
Defined.

Lemma oversized_file_rejected_witness :
  let w' := @dispatch Examples.builtins
              (FileChange "business_plan" [Examples.file "plan.pdf" 10485761] Examples.env)
              initialWorld in
  calls_since initialWorld w' = [] ∧
  uploadedFiles (state w') = uploadedFiles (state initialWorld).
Proof.
  assert (Hsize : (10 * 1024 * 1024 < File.size (Examples.file "plan.pdf" 10485761))%N)
    by reflexivity.
  pose proof (@oversized_file_rejected Examples.builtins Examples.env
                (Examples.file "plan.pdf" 10485761) [] "business_plan" initialWorld Hsize)
    as (Hc & _ & Hu & _).
  split; [exact Hc | exact Hu].
Defined.

Lemma accepted_upload_outcome_witness :
  let file := Examples.file "plan.pdf" 52100 in
  let w' := @dispatch Examples.builtins (FileChange "business_plan" [file] Examples.env)
              initialWorld in
  (File.size file <= 10 * 1024 * 1024)%N ∧
  uploadProgress (state w') !! "business_plan" = Some false ∧
  uploadedFiles (state w') = <["business_plan" := file]> ∅.
Proof.
  intros file w'.
  assert (Hsize : (File.size file <= 10 * 1024 * 1024)%N) by (vm_compute; discriminate).
  pose proof (@accepted_upload_outcome Examples.builtins Examples.env file []
                "business_plan" initialWorld {| User.id := "user-1" |}
                Hsize eq_refl)
    as (_ & Hp & _ & Hu & _).
  split; [exact Hsize|]. split; [exact Hp | exact Hu].
Defined.

Lemma grant_amount_bounds_witness :
  ∃ reason,
    @validator Examples.builtins (formData (state Examples.low))
      (uploadedFiles (state Examples.low)) = Some reason ∧
    rejected reason Examples.low
      (@dispatch Examples.builtins (SubmitClick Examples.env) Examples.low) ∧
    reason = "Grant amount must be between $1,000 and $1,000,000".
Proof.
  refine (proj1 (@grant_amount_bounds Examples.builtins Examples.env Examples.low
                   "a@b.co" (JS.lit 500) _ eq_refl _ eq_refl) _).
  - apply text_fields_all;
      (eexists; split; [vm_compute; reflexivity | discriminate]).
  - exists "a", "b", "co". repeat split; discriminate.
  - left. reflexivity.
Defined.

Lemma misaddressed_filled :
  required_filled (formData (state Examples.misaddressed)).
Proof.
  split.
  - apply text_fields_all;
      (eexists; split; [vm_compute; reflexivity | discriminate]).
  - exists (JS.lit 5000). split; vm_compute; reflexivity.
Defined.

Lemma mistyped_reachable :
  @reachable Examples.builtins {| world := Examples.mistyped; suspended := [] |}.
Proof.
  refine (@reachable_dispatch Examples.builtins
            (Examples.change "contact_email" "email" "john.example.com")
            initialForm (@reachable_init _) _).
  unfold rendered, inputs. cbn [Examples.change target_name target_type].
  do 2 apply list_elem_of_further. apply list_elem_of_here.
Defined.

Lemma mistyped_not_filled :
  ¬ required_filled (formData (state Examples.mistyped)).
Proof.
  intros (Hf & _).
  destruct (Hf "company_name" (list_elem_of_here _ _)) as (s & Hs & Hne).
  vm_compute in Hs. injection Hs as <-. now apply Hne.
Defined.

Lemma malformed_email_rejected_witness :
  malformed_email "john.example.com" ∧
  (required_filled (formData (state Examples.misaddressed)) ∧
   rejected "Please enter a valid email address" Examples.misaddressed
     (@dispatch Examples.builtins (SubmitClick Examples.env) Examples.misaddressed)) ∧
  (typed (formData (state Examples.mistyped)) ∧
   ¬ required_filled (formData (state Examples.mistyped)) ∧
   rejected "Please fill in all required fields" Examples.mistyped
     (@dispatch Examples.builtins (SubmitClick Examples.env) Examples.mistyped)).
Proof.
  assert (Hm : malformed_email "john.example.com") by (left; reflexivity).
  assert (Ht : typed (formData (state Examples.mistyped)))
    by exact (@reachable_typed Examples.builtins _ mistyped_reachable).
  split; [exact Hm|]. split.
  - split; [exact misaddressed_filled|].
    exact (proj1 (proj2 (@malformed_email_rejected Examples.builtins Examples.env
                           Examples.misaddressed "john.example.com" eq_refl Hm))
             misaddressed_filled).
  - split; [exact Ht|]. split; [exact mistyped_not_filled|].
    exact (proj1 (proj2 (proj2 (@malformed_email_rejected Examples.builtins Examples.env
                                  Examples.mistyped "john.example.com" eq_refl Hm)))
             Ht mistyped_not_filled).
Defined.

Lemma insert_failure_preserves_draft_witness :
  let w' := @dispatch Examples.builtins (SubmitClick Examples.refusing) Examples.ready in
  submitMessage (state w') = "Error submitting application: permission denied" ∧
  formData (state w') = formData (state Examples.ready) ∧
  uploadedFiles (state w') = uploadedFiles (state Examples.ready).
Proof.
  assert (Hv : @validator Examples.builtins (formData (state Examples.ready))
                 (uploadedFiles (state Examples.ready)) = None)
    by (vm_compute; reflexivity).
  pose proof (@insert_failure_preserves_draft Examples.builtins Examples.refusing
                Examples.ready {| User.id := "user-1" |} None
                {| message := "permission denied" |} Hv eq_refl eq_refl)
    as (Hm & Hd & Hu & _).
  split; [exact Hm|]. split; [exact Hd | exact Hu].
Defined.

Lemma successful_submission_confirms_and_resets_witness :
  let w' := @dispatch Examples.builtins (SubmitClick Examples.env) Examples.ready in
  Str.contains "7d9f2c1e-0001" (submitMessage (state w')) ∧
  timers w' = [{| fires := ResetForm; delay := 5000 |}] ∧
  formData (state (@dispatch Examples.builtins (Timeout 0) w')) = resetFormData ∧
  uploadedFiles (state (@dispatch Examples.builtins (Timeout 0) w')) = ∅.
Proof.
  assert (Hv : @validator Examples.builtins (formData (state Examples.ready))
                 (uploadedFiles (state Examples.ready)) = None)
    by (vm_compute; reflexivity).
  pose proof (@successful_submission_confirms_and_resets Examples.builtins Examples.env
                Examples.ready {| User.id := "user-1" |} Examples.row Hv eq_refl eq_refl)
    as (Hid & Ht & Hreset).
  split; [exact Hid|]. split; [exact Ht|].
  destruct (Hreset (@dispatch Examples.builtins (SubmitClick Examples.env) Examples.ready)
              0%nat eq_refl) as (_ & _ & _ & Hd & Hu).
  split; [exact Hd | exact Hu].
Defined.

Lemma draft_never_holds_status_or_owner_witness :
  formData (state Examples.ready) !! "status" = None ∧
  formData (state Examples.ready) !! "user_id" = None.
Proof.
  pose proof (@draft_never_holds_status_or_owner Examples.builtins
                {| world := Examples.ready; suspended := [] |}
                ready_reachable) as (Hs & Ho & _).
  split; [exact Hs | exact Ho].
Defined.

Lemma slot_and_url_paired_witness :
  let file := Examples.file "plan.pdf" 52100 in
  let w' := @dispatch Examples.builtins (FileChange "business_plan" [file] Examples.env)
              initialWorld in
  (is_Some (uploadedFiles (state Examples.ready) !! "business_plan") ↔
   is_Some (formData (state Examples.ready) !! "business_plan_url")) ∧
  uploadedFiles (state w') !! "business_plan" = Some file ∧
  formData (state w') !! "business_plan_url" =
    Some (JS.VStr
            "https://storage.example/grant-documents/user-1/123e4567-e89b-42d3-a456-426614174000.pdf").
Proof.
  intros file w'. split.
  - exact (proj1 (@slot_and_url_paired Examples.builtins
                    {| world := Examples.ready; suspended := [] |} "business_plan"
                    ready_reachable (list_elem_of_here _ _))).
  - refine (proj1 (proj2 (@slot_and_url_paired Examples.builtins initialForm
                            "business_plan" (@reachable_init _) (list_elem_of_here _ _))
                     (FileChange "business_plan" [file] Examples.env)
                     (list_elem_of_here _ _))
              file _ _ eq_refl).
    exists [], {| User.id := "user-1" |},
      {| path := "user-1/123e4567-e89b-42d3-a456-426614174000.pdf" |}.
    split; [reflexivity|]. split; [vm_compute; discriminate|].
    split; [reflexivity|]. split; reflexivity.
Defined.

(** C6 as it is worded fails: with an address without [@] typed into an
    otherwise empty form, the reason shown is the one of the required
    fields, not one about the address. *)
Lemma email_reason_counterexample :
  let w := Examples.mistyped in
  let w' := @dispatch Examples.builtins (SubmitClick Examples.env) w in
  formData (state w) !! "contact_email" = Some (JS.VStr "john.example.com") ∧
  malformed_email "john.example.com" ∧
  submitMessage (state w') = "Please fill in all required fields" ∧
  ¬ rejected "Please enter a valid email address" w w'.
Proof.
  intros w w'. split; [reflexivity|]. split; [left; reflexivity|].
  split; [reflexivity|].
  intros (Hs & _). apply (f_equal submitMessage) in Hs. vm_compute in Hs.
  discriminate Hs.
Qed.

(** * Further properties of the form *)

Section InputChanges.
Context `{Builtins}.

(** X1. Whatever is typed into the amount input, the draft then holds a
    number that is not [NaN]: the parsed number when it is truthy, [0]
    otherwise; in the second case a submission is rejected for the required
    fields. *)
Theorem amount_input_is_a_number (value : string) (w : World) :
  let w' := dispatch (Change {| target_name := "grant_amount";
                                target_value := value;
                                target_type := "number" |}) w in
  ∃ n, formData (state w') !! "grant_amount" = Some (JS.VNum n) ∧
       n ≠ JS.NaN ∧
       (JS.ToBoolean_number (parseFloat value) = true → n = parseFloat value) ∧
       (JS.ToBoolean_number (parseFloat value) = false →
        n = JS.lit 0 ∧
        ∀ env, rejected "Please fill in all required fields" w'
                 (dispatch (SubmitClick env) w')).
Proof.
  intros w'. exists (JS.or_number (parseFloat value) (JS.lit 0)).
  assert (Hn : formData (state w') !! "grant_amount" =
               Some (JS.VNum (JS.or_number (parseFloat value) (JS.lit 0)))).
  { subst w'. unfold dispatch; cbn [handler]. step_handler.
    cbn [target_name target_value target_type String.eqb].
    apply lookup_insert_eq. }
  split; [exact Hn|]. split; [apply or_number_not_NaN|]. split.
  - intros Ht. unfold JS.or_number. now rewrite Ht.
  - intros Hf. assert (Hz : JS.or_number (parseFloat value) (JS.lit 0) = JS.lit 0).
    { unfold JS.or_number. now rewrite Hf. }
    split; [exact Hz|]. intros env. unfold dispatch at 1; cbn [handler].
    apply handleSubmit_validator, validator_required_missing.
    right. exists (JS.lit 0). rewrite Hn, Hz. split; [reflexivity|].
    simpl. apply Qle_refl.
Qed.


End InputChanges.

Section UploadPaths.
Context `{Builtins}.

(** X3. An accepted selection without a session (the identity service
    answers with an error or without a user): the message asks to log in,
    the only call is the one for the user, no name is generated, nothing is
    sent to storage, the draft and the slots are as before and the progress
    flag of the slot is off. *)
Theorem upload_needs_session (env : Collaborators) (file : File.t)
    (rest : list File.t) (fileType : string) (w : World) (r : UserResponse) :
  (File.size file <= 10 * 1024 * 1024)%N →
  auth_getUser env = Resolved r →
  is_Some (userError r) ∨ user r = None →
  let w' := dispatch (FileChange fileType (file :: rest) env) w in
  calls_since w w' = [GetUser] ∧
  submitMessage (state w') = "Please log in to upload files" ∧
  formData (state w') = formData (state w) ∧
  uploadedFiles (state w') = uploadedFiles (state w) ∧
  uploadProgress (state w') !! fileType = Some false.
Proof.
  intros Hsize Hu Hno w'. subst w'. unfold dispatch; cbn [handler].
  assert (Hle : (10 * 1024 * 1024 <? File.size file)%N = false)
    by (apply N.ltb_ge; exact Hsize).
  unfold handleFileUpload. cbn [head]. rewrite Hle. step_handler. rewrite Hu.
  destruct r as [[usr|] [uerr|]]; cbn [user userError] in Hno;
    try (destruct Hno as [[? Hno] | Hno]; discriminate Hno);
    step_handler;
    (split; [apply calls_since_app; reflexivity|]);
    repeat split; apply lookup_insert_eq.
Qed.

(** X4. An accepted selection whose request for the user is rejected: the
    generic message is shown, nothing is sent to storage, the draft and the
    slots are as before and the progress flag of the slot is off. *)
Theorem upload_survives_rejection (env : Collaborators) (file : File.t)
    (rest : list File.t) (fileType : string) (w : World) :
  (File.size file <= 10 * 1024 * 1024)%N →
  auth_getUser env = Rejected →
  let w' := dispatch (FileChange fileType (file :: rest) env) w in
  calls_since w w' = [GetUser; ConsoleError "Upload failed:"] ∧
  submitMessage (state w') = "Upload failed. Please try again." ∧
  formData (state w') = formData (state w) ∧
  uploadedFiles (state w') = uploadedFiles (state w) ∧
  uploadProgress (state w') !! fileType = Some false.
Proof.
  intros Hsize Hu w'. subst w'. unfold dispatch; cbn [handler].
  assert (Hle : (10 * 1024 * 1024 <? File.size file)%N = false)
    by (apply N.ltb_ge; exact Hsize).
  unfold handleFileUpload. cbn [head]. rewrite Hle. step_handler. rewrite Hu.
  step_handler.
  split; [apply calls_since_app; flatten_calls; reflexivity|].
  repeat split. apply lookup_insert_eq.
Qed.

(** X5. For every accepted selection, whatever the collaborators answer:
    while the handler waits, the progress flag of its slot is on and the
    other flags are as before; when it has ended, the flag of its slot is
    off and the other flags are as before. *)
Theorem upload_progress_flag (env : Collaborators) (file : File.t)
    (rest : list File.t) (fileType : string) (w : World) :
  (File.size file <= 10 * 1024 * 1024)%N →
  let started := handleFileUpload env (file :: rest) fileType w in
  (∃ k, snd started = Yield k) ∧
  uploadProgress (state (fst started)) = <[fileType := true]> (uploadProgress (state w)) ∧
  uploadProgress (state (dispatch (FileChange fileType (file :: rest) env) w)) =
    <[fileType := false]> (uploadProgress (state w)).
Proof.
  intros Hsize started. subst started. unfold dispatch; cbn [handler].
  assert (Hle : (10 * 1024 * 1024 <? File.size file)%N = false)
    by (apply N.ltb_ge; exact Hsize).
  unfold handleFileUpload. cbn [head]. rewrite Hle.
  split; [|split].
  - step_segment. eexists. reflexivity.
  - step_segment. reflexivity.
  - step_handler.
    destruct (auth_getUser env) as [[[usr|] [uerr|]]|]; step_handler;
      try apply insert_insert_eq.
    match goal with
    | |- context [storage_upload env ?b ?p ?f] =>
        destruct (storage_upload env b p f) as [[[stored|] [err|]]|]
    end; step_handler; apply insert_insert_eq.
Qed.

End UploadPaths.

(** ** The extension of an uploaded file *)

Lemma split_last (c : ascii) (s : string) :
  ∃ seg segs e,
    JS.split c s = seg :: segs ∧
    last (JS.split c s) = Some e ∧
    Str.has c e = false ∧
    (segs = [] → e = s ∧ Str.has c s = false) ∧
    (segs ≠ [] → Str.has c s = true ∧ ∃ pre, s = pre +:+ String c e).
Proof.
  induction s as [|a s IH].
  - exists "", [], "". repeat split; congruence.
  - destruct IH as (seg & segs & e & Hsplit & Hlast & He & Hone & Hmore).
    simpl JS.split. simpl Str.has. destruct (Ascii.eqb_spec a c) as [->|Hne].
    + exists "", (seg :: segs), e. rewrite Hsplit. rewrite Hsplit in Hlast.
      split; [reflexivity|]. split; [exact Hlast|]. split; [exact He|].
      split; [discriminate|]. intros _. split; [reflexivity|].
      destruct segs as [|seg' segs'].
      * destruct (Hone eq_refl) as [-> _]. now exists "".
      * destruct Hmore as [_ [pre ->]]; [discriminate|]. now exists (String c pre).
    + rewrite Hsplit. rewrite Hsplit in Hlast. destruct segs as [|seg' segs'].
      * destruct (Hone eq_refl) as [-> Hs]. simpl in Hlast. injection Hlast as ->.
        exists (String a s), [], (String a s). simpl.
        apply Ascii.eqb_neq in Hne. rewrite Hne, Hs.
        repeat split; congruence.
      * destruct Hmore as [Hs [pre ->]]; [discriminate|].
        exists (String a seg), (seg' :: segs'), e.
        split; [reflexivity|]. split; [exact Hlast|]. split; [exact He|].
        split; [discriminate|]. intros _. rewrite Hs, orb_true_r.
        split; [reflexivity|]. now exists (String a pre).
Qed.

(** [name.split(".").pop()] is what follows the last dot of [name], and
    the whole of [name] when it holds no dot. *)
Lemma pop_split_last (name : string) :
  ∃ ext,
    JS.template_hole (JS.pop (JS.split "." name)) = ext ∧
    Str.has "." ext = false ∧
    (Str.has "." name = false → ext = name) ∧
    (Str.has "." name = true → ∃ stem, name = stem +:+ "." +:+ ext).
Proof.
  destruct (split_last "." name) as (seg & segs & e & Hsplit & Hlast & He & Hone & Hmore).
  exists e. unfold JS.pop. rewrite Hlast.
  split; [reflexivity|]. split; [exact He|].
  destruct segs as [|seg' segs'].
  - destruct (Hone eq_refl) as [-> Hs]. split; [reflexivity|]. congruence.
  - destruct Hmore as [Hs [pre ->]]; [discriminate|]. split; [congruence|].
    intros _. now exists pre.
Qed.

Section UploadPath.
Context `{Builtins}.

(** X6. An accepted selection with a session is sent to storage once,
    whatever the storage service answers, under the path made of the
    identity of the user, a slash, the generated name, a dot and the
    extension of the file. The extension holds no dot and is what follows
    the last dot of the name of the file; a name without a dot is its own
    extension. *)
Theorem file_extension_is_last_segment (env : Collaborators) (file : File.t)
    (rest : list File.t) (fileType : string) (w : World) (usr : User.t) :
  (File.size file <= 10 * 1024 * 1024)%N →
  auth_getUser env = Resolved {| user := Some usr; userError := None |} →
  let w' := dispatch (FileChange fileType (file :: rest) env) w in
  ∃ ext,
    List.filter is_upload (calls_since w w') =
      [Upload "grant-documents"
         (User.id usr +:+ "/" +:+ crypto_randomUUID env +:+ "." +:+ ext)
         file "3600" false] ∧
    Str.has "." ext = false ∧
    (Str.has "." (File.name file) = false → ext = File.name file) ∧
    (Str.has "." (File.name file) = true →
     ∃ stem, File.name file = stem +:+ "." +:+ ext).
Proof.
  intros Hsize Hu w'. subst w'. unfold dispatch; cbn [handler].
  rewrite (handleFileUpload_session env file rest fileType w usr Hsize Hu). cbv zeta.
  destruct (pop_split_last (File.name file)) as (ext & -> & Hdot & Hnone & Hsome).
  exists ext. split; [|auto].
  destruct (storage_upload env "grant-documents" _ file) as [[[stored|] [err|]]|];
    (erewrite calls_since_app by reflexivity); reflexivity.
Qed.

End UploadPath.

Section SubmissionPaths.
Context `{Builtins}.

Lemma within_positive (n : JS.number) : within 1000 1000000 n → positive n.
Proof.
  destruct n as [|b|q]; simpl; try contradiction.
  intros [Hlo _]. eapply Qlt_le_trans; [|exact Hlo]. reflexivity.
Qed.

Lemma within_range_check (n : JS.number) :
  within 1000 1000000 n →
  JS.lt n (JS.lit 1000) || JS.gt n (JS.lit 1000000) = false.
Proof.
  destruct n as [|b|q]; simpl; try contradiction.
  intros [Hlo Hhi]. apply orb_false_iff. unfold JS.gt, JS.lt, JS.lit.
  split; apply negb_false_iff, Qle_bool_iff; assumption.
Qed.

Lemma well_formed_validator (d : GrantApplication) (u : FileUploadState) :
  well_formed_application d → validator d u = documents_rule u.
Proof.
  intros (Hf & (s & Hs & Hwf) & (n & Hn & Hin)).
  rewrite (validator_required_filled d u s n Hf Hs Hn (within_positive n Hin)).
  apply RegexFacts.emailRegex_shape in Hwf. rewrite Hwf.
  now rewrite (within_range_check n Hin).
Qed.

(** X7. A draft that is well formed (text fields filled, address well
    formed, amount in range) with one of the three documents missing is
    rejected with the reason of the documents, before any collaborator is
    called. *)
Theorem missing_document_rejected (env : Collaborators) (w : World) (slot : string) :
  well_formed_application (formData (state w)) →
  slot ∈ slots →
  uploadedFiles (state w) !! slot = None →
  rejected
    "Please upload all required documents: Business Plan, Financial Statements, and Supporting Documents."
    w (dispatch (SubmitClick env) w).
Proof.
  intros Hwf Hslot Hnone. unfold dispatch; cbn [handler].
  apply handleSubmit_validator. rewrite (well_formed_validator _ _ Hwf).
  unfold documents_rule. revert slot Hslot Hnone.
  apply (slots_all (λ slot, uploadedFiles (state w) !! slot = None → _));
    intros ->; simpl; rewrite ?orb_true_r; reflexivity.
Qed.

(** X8. A valid draft submitted without a session (the identity service
    answers with an error or without a user): the message asks to log in,
    the only call is the one for the user, nothing is inserted, the draft
    and the slots are as before, no timer is set and the button is
    released. *)
Theorem submission_needs_session (env : Collaborators) (w : World)
    (r : UserResponse) :
  validator (formData (state w)) (uploadedFiles (state w)) = None →
  auth_getUser env = Resolved r →
  is_Some (userError r) ∨ user r = None →
  let w' := dispatch (SubmitClick env) w in
  state w' = settled "Please log in to submit your application" (state w) ∧
  calls_since w w' = [GetUser] ∧
  timers w' = timers w.
Proof.
  intros Hv Hu Hno w'. subst w'. unfold dispatch; cbn [handler].
  unfold handleSubmit. split_checks Hv. step_handler. rewrite Hu.
  destruct r as [[usr|] [uerr|]]; cbn [user userError] in Hno;
    try (destruct Hno as [[? Hno] | Hno]; discriminate Hno);
    step_handler;
    (split; [reflexivity|]; split; [apply calls_since_app; reflexivity | reflexivity]).
Qed.

(** X9. A valid draft whose request for the user is rejected, or whose
    insert is rejected or comes back without a row and without an error:
    the generic message is shown, the draft and the slots are as before, no
    timer is set and the button is released. *)
Theorem submission_survives_rejection (env : Collaborators) (w : World) :
  validator (formData (state w)) (uploadedFiles (state w)) = None →
  auth_getUser env = Rejected ∨
  (∃ usr,
     auth_getUser env = Resolved {| user := Some usr; userError := None |} ∧
     let record : GrantApplication :=
       <["status" := JS.VStr "pending"]>
         (<["user_id" := JS.VStr (User.id usr)]> (formData (state w))) in
     (table_insert env "grant_applications" record = Rejected ∨
      table_insert env "grant_applications" record =
        Resolved {| data := None; error := None |})) →
  let w' := dispatch (SubmitClick env) w in
  state w' =
    settled "Submission failed. Please check your connection and try again." (state w) ∧
  last (calls_since w w') = Some (ConsoleError "Submission failed:") ∧
  timers w' = timers w.
Proof.
  intros Hv Hfail w'. subst w'. unfold dispatch; cbn [handler].
  destruct Hfail as [Hu | (usr & Hu & Hins)].
  - unfold handleSubmit. split_checks Hv. step_handler. rewrite Hu. step_handler.
    split; [reflexivity|]. split; [|reflexivity].
    erewrite calls_since_app by (flatten_calls; reflexivity). reflexivity.
  - rewrite (handleSubmit_session env _ _ w usr Hv Hu). cbv zeta in Hins |- *.
    destruct Hins as [-> | ->];
      (split; [reflexivity|]; split; [|reflexivity]);
      (erewrite calls_since_app by reflexivity); reflexivity.
Qed.

(** X10. Whatever the draft and whatever the collaborators answer, a
    submission leaves the draft, the slots and the progress flags as they
    were, sends nothing to storage, requests at most one insert, ends with
    the button released and a message shown, and sets a timer only
    together with the confirmation. *)
Theorem submission_footprint (env : Collaborators) (d : GrantApplication)
    (u : FileUploadState) (w : World) :
  let w' := run (handleSubmit env d u) w in
  formData (state w') = formData (state w) ∧
  uploadedFiles (state w') = uploadedFiles (state w) ∧
  uploadProgress (state w') = uploadProgress (state w) ∧
  isSubmitting (state w') = false ∧
  submitMessage (state w') ≠ "" ∧
  List.filter is_storage (calls_since w w') = [] ∧
  (length (List.filter is_insert (calls_since w w')) <= 1)%nat ∧
  (timers w' = timers w ∨
   timers w' = timers w ++ [{| fires := ResetForm; delay := 5000 |}] ∧
   ∃ id, submitMessage (state w') =
           "Application submitted successfully! Application ID: " +:+ id +:+ ".").
Proof.
  intros w'. subst w'. destruct (validator d u) as [reason|] eqn:Hv.
  - destruct (handleSubmit_validator env d u w reason Hv) as (Hs & Hc & Ht).
    rewrite Hs, Ht, (calls_since_same _ _ Hc). cbn.
    repeat split; auto.
    unfold validator in Hv.
    repeat match type of Hv with
           | (if ?c then _ else _) = _ => destruct c
           end; try discriminate Hv; injection Hv as <-; discriminate.
  - unfold handleSubmit. split_checks Hv. step_handler.
    destruct (auth_getUser env) as [[[usr|] [uerr|]]|]; step_handler;
      try (erewrite calls_since_app by (flatten_calls; reflexivity);
           repeat split; solve [auto | discriminate | cbn; lia]).
    match goal with
    | |- context [table_insert env ?t ?r] =>
        destruct (table_insert env t r) as [[[row|] [err|]]|]
    end; step_handler;
      (erewrite calls_since_app by (flatten_calls; reflexivity));
      repeat split;
      try solve [auto | discriminate | cbn; lia
                | intros Heq; apply StrFacts.app_eq_nil in Heq as [Heq _];
                  discriminate Heq
                | right; split; [reflexivity | eexists; reflexivity] ].
Qed.

(** X11. While a valid submission waits for the session, the button is
    held, the message of the last attempt is cleared, and the only call
    made is the one for the user. *)
Theorem submission_in_flight (env : Collaborators) (d : GrantApplication)
    (u : FileUploadState) (w : World) :
  validator d u = None →
  let started := handleSubmit env d u w in
  (∃ k, snd started = Yield k) ∧
  state (fst started) = with_submitMessage "" (with_isSubmitting true (state w)) ∧
  calls (fst started) = calls w ++ [GetUser] ∧
  View.submitButton (state (fst started)) = (true, "Submitting Application...").
Proof.
  intros Hv started. subst started. unfold handleSubmit. split_checks Hv.
  step_segment. repeat split. eexists. reflexivity.
Qed.

(** X14. Once the timer of a confirmation has fired, a further click on
    the submit button is rejected for the required fields and calls no
    collaborator: the application is not inserted a second time. *)
Theorem no_second_insert_after_reset (env : Collaborators) (later : World) (i : nat) :
  timers later !! i = Some {| fires := ResetForm; delay := 5000 |} →
  let cleared := dispatch (Timeout i) later in
  rejected "Please fill in all required fields" cleared
    (dispatch (SubmitClick env) cleared) ∧
  formData (state cleared) !! "grant_amount" = Some (JS.VNum (JS.lit 0)) ∧
  formData (state initialWorld) !! "grant_amount" = Some (JS.VNum (JS.lit 1000)).
Proof.
  intros Hi cleared.
  assert (Hd : formData (state cleared) = resetFormData).
  { subst cleared. unfold dispatch, run; cbn [handler]. unfold timeout.
    rewrite Hi. cbn [fires]. step_handler. reflexivity. }
  split; [|split; [now rewrite Hd | reflexivity]].
  unfold dispatch at 1; cbn [handler]. apply handleSubmit_validator.
  apply validator_required_missing. left. exists "company_name".
  split; [apply list_elem_of_here|]. rewrite Hd. right. reflexivity.
Qed.

End SubmissionPaths.

(** ** The calls the form makes *)

(** The calls a segment added are listed and each is shown to satisfy the
    predicate by [tac]. *)
Ltac emit_with tac :=
  lazymatch goal with
  | |- appends _ _ _ =>
      unfold appends; cbn [calls]; eexists;
      split;
      [ first [flatten_calls; reflexivity | symmetry; apply app_nil_r]
      | repeat (apply Forall_cons_2; [tac|]); apply Forall_nil_2 ]
  | |- emitting _ (Done _) => apply emitting_done
  | |- _ => idtac
  end.

Section Calls.
Context `{Builtins}.

Lemma typed_of_consistent (w : World) : consistent w → typed (formData (state w)).
Proof. intros Hw. split; [apply (text_typed w Hw) | apply (amount_typed w Hw)]. Qed.

(** The record of a valid, typed draft is a well-formed application. *)
Lemma stamped_permitted (d : GrantApplication) (u : FileUploadState) (uid : string) :
  typed d →
  validator d u = None →
  permitted (Insert "grant_applications"
               (<["status" := JS.VStr "pending"]> (<["user_id" := JS.VStr uid]> d))).
Proof.
  intros [Htext Hamount] Hv.
  apply (validator_accepts d u Htext Hamount) in Hv
    as (Hf & (s & Hs & Hwf) & (n & Hn & Hin) & _).
  split; [reflexivity|]. split; [|split].
  - split; [|split].
    + apply text_fields_all;
        (rewrite !lookup_insert_ne by discriminate; apply Hf; unfold text_fields;
         repeat first [apply list_elem_of_here | apply list_elem_of_further]).
    + exists s. now rewrite !lookup_insert_ne by discriminate.
    + exists n. now rewrite !lookup_insert_ne by discriminate.
  - apply lookup_insert_eq.
  - exists uid. rewrite lookup_insert_ne by discriminate. apply lookup_insert_eq.
Qed.

Lemma handleInputChange_emits (e : ChangeEvent) : emits permitted (handleInputChange e).
Proof. intros w. step_segment. split; emit_with idtac. Qed.

Lemma timeout_emits (i : nat) : emits permitted (timeout i).
Proof.
  intros w. unfold timeout. destruct (timers w !! i) as [[[] ms]|];
    cbn [fires]; step_segment; split; emit_with idtac.
Qed.

Lemma handleFileUpload_emits (env : Collaborators) (files : list File.t)
    (fileType : string) :
  emits permitted (handleFileUpload env files fileType).
Proof.
  intros w. destruct files as [|file rest].
  { cbn. split; emit_with idtac. }
  unfold handleFileUpload. cbn [head].
  destruct (10 * 1024 * 1024 <? File.size file)%N eqn:Hsize.
  { step_segment. split; emit_with idtac. }
  apply N.ltb_ge in Hsize.
  step_segment. split; [emit_with ltac:(exact I)|].
  apply emitting_yield; intros w1;
    destruct (auth_getUser env) as [[[usr|] [uerr|]]|]; step_segment;
    emit_with ltac:(first [exact I | repeat split; assumption]).
  apply emitting_yield; intros w2;
    match goal with
    | |- context [storage_upload env ?b ?p ?f] =>
        destruct (storage_upload env b p f) as [[[stored|] [err|]]|]
    end; step_segment; emit_with ltac:(exact I).
Qed.

Lemma handleSubmit_emits (env : Collaborators) (d : GrantApplication)
    (u : FileUploadState) :
  typed d → emits permitted (handleSubmit env d u).
Proof.
  intros Ht w. destruct (validator d u) as [reason|] eqn:Hv.
  - unfold handleSubmit. split_checks Hv; step_segment; split; emit_with idtac.
  - pose proof (λ uid, stamped_permitted d u uid Ht Hv) as Hins.
    unfold handleSubmit. split_checks Hv. step_segment.
    split; [emit_with ltac:(exact I)|].
    apply emitting_yield; intros w1;
      destruct (auth_getUser env) as [[[usr|] [uerr|]]|]; step_segment;
      emit_with ltac:(first [exact I | apply Hins]).
    apply emitting_yield; intros w2;
      match goal with
      | |- context [table_insert env ?t ?r] =>
          destruct (table_insert env t r) as [[[row|] [err|]]|]
      end; step_segment; emit_with ltac:(exact I).
Qed.

Lemma handler_emits (ev : event) (s : State) :
  typed (formData s) → emits permitted (handler ev s).
Proof.
  destruct ev; intros Ht; cbn [handler].
  - apply handleInputChange_emits.
  - apply handleFileUpload_emits.
  - now apply handleSubmit_emits.
  - apply timeout_emits.
Qed.

Lemma step_lawful (f f' : Form) :
  consistent (world f) → lawful f → step f f' → lawful f'.
Proof.
  intros Hw [Hc Hs] Hstep. destruct Hstep as [ev f Hr | i f].
  - destruct (handler_emits ev (state (world f)) (typed_of_consistent _ Hw) (world f))
      as [(new & Hnew & HP) Hem].
    unfold start. destruct (handler ev (state (world f)) (world f)) as [w' s'].
    simpl in Hnew, Hem. split; cbn [world suspended].
    + rewrite Hnew. apply Forall_app. now split.
    + destruct s' as [c|k]; [exact Hs|].
      apply Forall_app. split; [exact Hs|]. now apply Forall_singleton.
  - unfold resume. destruct (suspended f !! i) as [k|] eqn:Hi; [|now split].
    pose proof (Forall_lookup_1 _ _ _ _ Hs Hi) as Hk.
    inversion Hk as [|k0 Hk1 Hk2]; subst.
    specialize (Hk1 (world f)). specialize (Hk2 (world f)).
    destruct (k (world f)) as [w' s']. simpl in Hk1, Hk2.
    destruct Hk1 as (new & Hnew & HP). split; cbn [world suspended].
    + rewrite Hnew. apply Forall_app. now split.
    + destruct s' as [c|k'].
      * now apply Forall_delete.
      * apply Forall_insert; assumption.
Qed.

Lemma reachable_lawful (f : Form) : reachable f → lawful f.
Proof.
  induction 1 as [|f f' Hf IH Hstep].
  - split; constructor.
  - exact (step_lawful f f' (reachable_consistent f Hf) IH Hstep).
Qed.

(** X12. At every moment the form can reach, every upload it has
    requested went to the bucket [grant-documents], carried a file of at
    most 10 MiB, and was sent with [upsert: false] and a cache lifetime of
    3600: the form never overwrites a stored object and never sends an
    oversized file. *)
Theorem uploads_within_bounds (f : Form) (bucket path : string) (file : File.t)
    (cacheControl : string) (upsert : bool) :
  reachable f →
  Upload bucket path file cacheControl upsert ∈ calls (world f) →
  bucket = "grant-documents" ∧
  (File.size file <= 10 * 1024 * 1024)%N ∧
  cacheControl = "3600" ∧
  upsert = false.
Proof.
  intros Hr Hin. destruct (reachable_lawful f Hr) as [Hc _].
  rewrite Forall_forall in Hc. exact (Hc _ Hin).
Qed.

(** X13. At every moment the form can reach, every record it has sent
    to the table passed the validation at the click: its five text fields
    are filled, its address is well formed, its amount lies in
    [[1000, 1000000]], and it carries the status "pending" and an owner. *)
Theorem inserts_are_validated (f : Form) (table : string) (record : GrantApplication) :
  reachable f →
  Insert table record ∈ calls (world f) →
  table = "grant_applications" ∧
  well_formed_application record ∧
  record !! "status" = Some (JS.VStr "pending") ∧
  ∃ uid, record !! "user_id" = Some (JS.VStr uid).
Proof.
  intros Hr Hin. destruct (reachable_lawful f Hr) as [Hc _].
  rewrite Forall_forall in Hc. exact (Hc _ Hin).
Qed.

End Calls.

(** ** The style of the message *)

Lemma prefix_app (p s : string) :
  String.prefix p s = true ↔ ∃ rest, s = p +:+ rest.
Proof.
  revert s. induction p as [|a p IH]; intros s.
  - split; [intros _; now exists s | intros _; destruct s; reflexivity].
  - destruct s as [|b s]; simpl.
    + split; [discriminate | intros [rest Hr]; discriminate Hr].
    + destruct (ascii_dec a b) as [->|Hne].
      * rewrite IH. split; intros [rest Hr]; exists rest.
        -- now rewrite Hr.
        -- StrFacts.simpl_app. now injection Hr.
      * split; [discriminate|]. intros [rest Hr]. StrFacts.simpl_app.
        injection Hr as Hab _. congruence.
Qed.

(** [includes] finds exactly the substrings. *)
Lemma includes_contains (sub s : string) :
  View.includes sub s = true ↔ Str.contains sub s.
Proof.
  unfold Str.contains. induction s as [|c s IH].
  - change (View.includes sub "") with (String.prefix sub "" || false).
    rewrite orb_false_r, prefix_app. split.
    + intros [rest Hr]. now exists "", rest.
    + intros (pre & post & Hs). destruct pre; [now exists post|discriminate Hs].
  - change (View.includes sub (String c s))
      with (String.prefix sub (String c s) || View.includes sub s).
    rewrite orb_true_iff, prefix_app, IH. split.
    + intros [[rest Hr] | (pre & post & Hs)].
      * now exists "", rest.
      * exists (String c pre), post. now rewrite Hs.
    + intros (pre & post & Hs). destruct pre as [|a pre].
      * left. now exists post.
      * right. StrFacts.simpl_app. injection Hs as _ Hs. now exists pre, post.
Qed.

Section MessageStyle.
Context `{Builtins}.

(** The text before a collaborator's error holds neither marker. *)
Lemma insert_error_class (m : string) :
  View.messageClass ("Error submitting application: " +:+ m) = View.messageClass m.
Proof. unfold View.messageClass. lazy [String.append]. reflexivity. Qed.

(** X15. After a successful submission the message region is rendered
    with the class of a success, whatever identifier the table assigned. *)
Theorem confirmation_styled_as_success (env : Collaborators) (w : World)
    (usr : User.t) (row : Row.t) :
  validator (formData (state w)) (uploadedFiles (state w)) = None →
  auth_getUser env = Resolved {| user := Some usr; userError := None |} →
  table_insert env "grant_applications"
    (<["status" := JS.VStr "pending"]>
       (<["user_id" := JS.VStr (User.id usr)]> (formData (state w))))
    = Resolved {| data := Some row; error := None |} →
  View.messageRegion (state (dispatch (SubmitClick env) w)) =
    Some ("submit-message success",
          "Application submitted successfully! Application ID: " +:+ Row.id row +:+ ".").
Proof.
  intros Hv Hu Hins. unfold dispatch; cbn [handler].
  rewrite (handleSubmit_session env _ _ w usr Hv Hu). cbv zeta. rewrite Hins.
  unfold View.messageRegion, View.messageClass.
  cbn [state submitMessage settled with_isSubmitting with_submitMessage].
  lazy [String.append String.eqb View.includes String.prefix orb Ascii.eqb Bool.eqb
        ascii_dec ascii_rec ascii_rect bool_dec bool_rec bool_rect sumbool_rec sumbool_rect
        eq_rec_r eq_rec eq_rect eq_sym f_equal].
  reflexivity.
Qed.

(** X16. A submission stopped by validation is rendered with the class
    of an error and the reason as its text. *)
Theorem rejection_styled_as_error (env : Collaborators) (w : World) (reason : string) :
  validator (formData (state w)) (uploadedFiles (state w)) = Some reason →
  View.messageRegion (state (dispatch (SubmitClick env) w)) =
    Some ("submit-message error", reason).
Proof.
  intros Hv. unfold dispatch; cbn [handler].
  destruct (handleSubmit_validator env _ _ w reason Hv) as (-> & _ & _).
  unfold validator in Hv.
  repeat match type of Hv with
         | (if ?c then _ else _) = _ => destruct c
         end; try discriminate Hv; injection Hv as <-; reflexivity.
Qed.

(** X17. An error of the insert is rendered with the class of an error,
    unless the text of the collaborator itself holds "successfully" or
    "Application ID": then the error is rendered with the class of a
    success. *)
Theorem insert_error_style (env : Collaborators) (w : World)
    (usr : User.t) (stored : option Row.t) (err : ServiceError) :
  validator (formData (state w)) (uploadedFiles (state w)) = None →
  auth_getUser env = Resolved {| user := Some usr; userError := None |} →
  table_insert env "grant_applications"
    (<["status" := JS.VStr "pending"]>
       (<["user_id" := JS.VStr (User.id usr)]> (formData (state w))))
    = Resolved {| data := stored; error := Some err |} →
  let shown := View.messageClass (submitMessage (state (dispatch (SubmitClick env) w))) in
  (Str.contains "successfully" (message err) ∨
   Str.contains "Application ID" (message err) → shown = "success") ∧
  (¬ Str.contains "successfully" (message err) →
   ¬ Str.contains "Application ID" (message err) → shown = "error").
Proof.
  intros Hv Hu Hins shown.
  assert (Hshown : shown = View.messageClass (message err)).
  { subst shown. unfold dispatch; cbn [handler].
    rewrite (handleSubmit_session env _ _ w usr Hv Hu). cbv zeta. rewrite Hins.
    destruct stored; apply insert_error_class. }
  rewrite Hshown. unfold View.messageClass.
  rewrite <- !includes_contains. split.
  - intros [-> | ->]; [reflexivity | now rewrite orb_true_r].
  - intros H1 H2. apply not_true_is_false in H1, H2. now rewrite H1, H2.
Qed.

End MessageStyle.

(** ** The controls over time *)

(** A flag that is on after a segment was on before it. *)
Ltac flag_kept Hq :=
  first
    [ exact Hq
    | discriminate Hq
    | match type of Hq with
      | context [<[?k := _]> _ !! ?slot] =>
          destruct (decide (slot = k)) as [->|?];
          [ rewrite lookup_insert_eq in Hq; discriminate Hq
          | rewrite lookup_insert_ne in Hq by congruence; exact Hq ]
      end ].

Ltac quiet_segment :=
  let Hq := fresh "Hq" in
  let slot := fresh "slot" in
  split;
  [ cbn [state isSubmitting]; intros Hq; flag_kept Hq
  | intros slot; unfold View.uploading; cbn [state uploadProgress]; intros Hq;
    flag_kept Hq ].

Section Controls.
Context `{Builtins}.

Lemma quiet_refl (w : World) : quiet w w.
Proof. split; auto. Qed.

Lemma handleInputChange_begins (e : ChangeEvent) : begins (handleInputChange e).
Proof. intros w. step_segment. quiet_segment. Qed.

Lemma timeout_begins (i : nat) : begins (timeout i).
Proof.
  intros w. unfold timeout. destruct (timers w !! i) as [[[] ms]|];
    cbn [fires]; step_segment; quiet_segment.
Qed.

Lemma handleFileUpload_begins (env : Collaborators) (files : list File.t)
    (fileType : string) :
  begins (handleFileUpload env files fileType).
Proof.
  intros w. destruct files as [|file rest]; [apply quiet_refl|].
  unfold handleFileUpload. cbn [head].
  destruct (10 * 1024 * 1024 <? File.size file)%N.
  { step_segment. quiet_segment. }
  step_segment. exists (slot_released fileType). split; [|split].
  - apply owes_intro.
    + intros w1. destruct (auth_getUser env) as [[[usr|] [uerr|]]|];
        step_segment; quiet_segment.
    + intros w1 c. destruct (auth_getUser env) as [[[usr|] [uerr|]]|];
        step_segment; intros Hdone; try discriminate Hdone;
        unfold slot_released, View.uploading; cbn [state uploadProgress];
        now rewrite lookup_insert_eq.
    + intros w1 k'. destruct (auth_getUser env) as [[[usr|] [uerr|]]|];
        step_segment; intros Hy; try discriminate Hy.
      injection Hy as <-. apply owes_intro.
      * intros w2.
        match goal with
        | |- context [storage_upload env ?b ?p ?f] =>
            destruct (storage_upload env b p f) as [[[stored|] [err|]]|]
        end; step_segment; quiet_segment.
      * intros w2 c.
        match goal with
        | |- context [storage_upload env ?b ?p ?f] =>
            destruct (storage_upload env b p f) as [[[stored|] [err|]]|]
        end; step_segment; intros _;
          unfold slot_released, View.uploading; cbn [state uploadProgress];
          now rewrite lookup_insert_eq.
      * intros w2 k''.
        match goal with
        | |- context [storage_upload env ?b ?p ?f] =>
            destruct (storage_upload env b p f) as [[[stored|] [err|]]|]
        end; step_segment; intros Hy; discriminate Hy.
  - intros Hq. now left.
  - intros slot. unfold View.uploading. cbn [state uploadProgress]. intros Hq.
    destruct (decide (slot = fileType)) as [->|Hne]; [now right|].
    left. now rewrite lookup_insert_ne in Hq by congruence.
Qed.

Lemma handleSubmit_begins (env : Collaborators) (d : GrantApplication)
    (u : FileUploadState) :
  begins (handleSubmit env d u).
Proof.
  intros w. destruct (validator d u) as [reason|] eqn:Hv.
  - unfold handleSubmit. split_checks Hv; step_segment; quiet_segment.
  - unfold handleSubmit. split_checks Hv. step_segment.
    exists submit_released. split; [|split].
    + apply owes_intro.
      * intros w1. destruct (auth_getUser env) as [[[usr|] [uerr|]]|];
          step_segment; quiet_segment.
      * intros w1 c. destruct (auth_getUser env) as [[[usr|] [uerr|]]|];
          step_segment; intros Hdone; try discriminate Hdone; reflexivity.
      * intros w1 k'. destruct (auth_getUser env) as [[[usr|] [uerr|]]|];
          step_segment; intros Hy; try discriminate Hy.
        injection Hy as <-. apply owes_intro.
        -- intros w2.
           match goal with
           | |- context [table_insert env ?t ?r] =>
               destruct (table_insert env t r) as [[[row|] [err|]]|]
           end; step_segment; quiet_segment.
        -- intros w2 c.
           match goal with
           | |- context [table_insert env ?t ?r] =>
               destruct (table_insert env t r) as [[[row|] [err|]]|]
           end; step_segment; intros _; reflexivity.
        -- intros w2 k''.
           match goal with
           | |- context [table_insert env ?t ?r] =>
               destruct (table_insert env t r) as [[[row|] [err|]]|]
           end; step_segment; intros Hy; discriminate Hy.
    + intros _. now right.
    + intros slot Hq. now left.
Qed.

Lemma handler_begins (ev : event) (s : State) : begins (handler ev s).
Proof.
  destruct ev; cbn [handler].
  - apply handleInputChange_begins.
  - apply handleFileUpload_begins.
  - apply handleSubmit_begins.
  - apply timeout_begins.
Qed.

Lemma initial_accounted : accounted initialForm.
Proof.
  split; [|split].
  - discriminate.
  - intros slot. unfold View.uploading. cbn. rewrite lookup_empty. discriminate.
  - constructor.
Qed.

(** A handler that was in flight before one of them went on is in flight
    afterwards, or is the one that went on. *)
Lemma elem_of_delete_or {A : Type} (l : list A) (i : nat) (x y : A) :
  l !! i = Some y → x ∈ l → x ∈ delete i l ∨ x = y.
Proof.
  intros Hi Hx. apply list_elem_of_lookup in Hx as [j Hj].
  destruct (decide (j = i)) as [->|Hne]; [right; congruence|]. left.
  apply list_elem_of_lookup. destruct (decide (j < i)%nat).
  - exists j. now rewrite list_lookup_delete_lt by lia.
  - exists (pred j). rewrite list_lookup_delete_ge by lia.
    replace (S (pred j)) with j by lia. exact Hj.
Qed.

Lemma elem_of_insert_or {A : Type} (l : list A) (i : nat) (x y z : A) :
  l !! i = Some y → x ∈ l → x ∈ <[i := z]> l ∨ x = y.
Proof.
  intros Hi Hx. apply list_elem_of_lookup in Hx as [j Hj].
  destruct (decide (j = i)) as [->|Hne]; [right; congruence|]. left.
  apply list_elem_of_lookup. exists j. now rewrite list_lookup_insert_ne.
Qed.

Lemma step_accounted (f f' : Form) : accounted f → step f f' → accounted f'.
Proof.
  intros (Hsub & Hup & Hall) Hstep. destruct Hstep as [ev f Hr | i f].
  - pose proof (handler_begins ev (state (world f)) (world f)) as Hb.
    unfold start. destruct (handler ev (state (world f)) (world f)) as [w' s'].
    cbn [fst snd] in Hb. destruct s' as [c|k]; cbn [world suspended].
    + destruct Hb as [Hq1 Hq2]. split; [|split]; auto.
    + destruct Hb as (released & Hk & Hb1 & Hb2). split; [|split].
      * intros Hq. destruct (Hb1 Hq) as [Hw | ->].
        -- destruct (Hsub Hw) as (k0 & Hin & Hk0). exists k0.
           split; [apply elem_of_app; now left | exact Hk0].
        -- exists k. split; [apply elem_of_app; right; apply list_elem_of_singleton |];
             auto.
      * intros slot Hq. destruct (Hb2 slot Hq) as [Hw | ->].
        -- destruct (Hup slot Hw) as (k0 & Hin & Hk0). exists k0.
           split; [apply elem_of_app; now left | exact Hk0].
        -- exists k. split; [apply elem_of_app; right; apply list_elem_of_singleton |];
             auto.
      * apply Forall_app. split; [exact Hall|]. apply Forall_singleton. eauto.
  - unfold resume. destruct (suspended f !! i) as [k|] eqn:Hi; [|now repeat split].
    destruct (Forall_lookup_1 _ _ _ _ Hall Hi) as [released Hk].
    inversion Hk as [k0 Hq Hdone Hyield]; subst k0.
    specialize (Hq (world f)).
    destruct (k (world f)) as [w' s'] eqn:Hkw. cbn [fst] in Hq.
    destruct Hq as [Hq1 Hq2].
    assert (Hstay : ∀ rel k0, k0 ∈ suspended f → owes rel k0 →
              match s' with
              | Done _ => ¬ rel w' → ∃ k1, k1 ∈ delete i (suspended f) ∧ owes rel k1
              | Yield k' => ∃ k1, k1 ∈ <[i := k']> (suspended f) ∧ owes rel k1
              end).
    { intros rel k0 Hin Hk0. destruct s' as [c|k'].
      - intros Hbusy. destruct (elem_of_delete_or _ _ _ _ Hi Hin) as [Hin' | ->].
        + now exists k0.
        + inversion Hk0 as [k1 _ Hd _]; subst k1.
          specialize (Hd (world f) c). rewrite Hkw in Hd. exfalso. apply Hbusy, Hd. reflexivity.
      - destruct (elem_of_insert_or _ _ _ _ k' Hi Hin) as [Hin' | ->].
        + now exists k0.
        + inversion Hk0 as [k1 _ _ Hy]; subst k1.
          specialize (Hy (world f) k'). rewrite Hkw in Hy. exists k'.
          split; [|now apply Hy].
          apply list_elem_of_lookup. exists i. apply list_lookup_insert_eq.
          now apply lookup_lt_Some in Hi. }
    split; [|split]; cbn [world suspended].
    + intros Hbusy. destruct (Hsub (Hq1 Hbusy)) as (k0 & Hin & Hk0).
      specialize (Hstay submit_released k0 Hin Hk0). destruct s' as [c|k'].
      * apply Hstay. unfold submit_released. now rewrite Hbusy.
      * exact Hstay.
    + intros slot Hbusy. destruct (Hup slot (Hq2 slot Hbusy)) as (k0 & Hin & Hk0).
      specialize (Hstay (slot_released slot) k0 Hin Hk0). destruct s' as [c|k'].
      * apply Hstay. unfold slot_released. now rewrite Hbusy.
      * exact Hstay.
    + destruct s' as [c|k'].
      * now apply Forall_delete.
      * apply Forall_insert; [exact Hall|]. exists released.
        specialize (Hyield (world f) k'). rewrite Hkw in Hyield. now apply Hyield.
Qed.

Lemma reachable_accounted (f : Form) : reachable f → accounted f.
Proof.
  induction 1 as [|f f' _ IH Hstep].
  - apply initial_accounted.
  - exact (step_accounted f f' IH Hstep).
Qed.

(** X18. At every moment the form can reach at which no handler is in
    flight, the submit button is enabled and no file input is disabled:
    every path of every handler releases what it held, in whatever order
    the responses came. *)
Theorem controls_released_when_idle (f : Form) :
  reachable f →
  suspended f = [] →
  View.submitButton (state (world f)) = (false, "Submit Grant Application") ∧
  ∀ slot,
    View.input_disabled (View.fileInput (state (world f)) slot) = false ∧
    View.input_label (View.fileInput (state (world f)) slot) = "Choose File".
Proof.
  intros Hr Hidle. destruct (reachable_accounted f Hr) as (Hsub & Hup & _).
  rewrite Hidle in Hsub, Hup.
  assert (Hs : isSubmitting (state (world f)) = false).
  { destruct (isSubmitting (state (world f))) eqn:Hb; [|reflexivity].
    destruct (Hsub eq_refl) as (k & Hin & _). inversion Hin. }
  assert (Hu : ∀ slot, View.uploading (state (world f)) slot = false).
  { intros slot. destruct (View.uploading (state (world f)) slot) eqn:Hb; [|reflexivity].
    destruct (Hup slot Hb) as (k & Hin & _). inversion Hin. }
  split.
  - unfold View.submitButton. now rewrite Hs.
  - intros slot. unfold View.fileInput. cbn. now rewrite Hu.
Qed.

End Controls.

(** ** The credential form *)

Ltac auth_step :=
  cbv beta iota zeta delta
    [Auth.handleSubmit Auth.report Auth.toggle
     Auth.setIsSignUp Auth.setEmail Auth.setPassword Auth.setMessage
     Auth.setMessageType Auth.setIsLoading Auth.modify Auth.invoke
     mbind mret Async.Task_bind Async.Task_ret Async.and_then Async.on_done
     Async.done Async.await Async.when Async.return_ Async.try_catch];
  cbn [Auth.state Auth.calls Auth.isSignUp Auth.email Auth.password Auth.message
       Auth.messageType Auth.isLoading fst snd data error].

Section Credentials.

(** [error.message] *)
#[local] Abbreviation error_message := message.

Import Auth.

(** X19. A submission of the credential form sends one request to the
    identity service, and no more when the answer is there: the
    registration or the login of the render the handler was created in,
    with the address and the password of that render, while the form is
    switched to loading and its message cleared. *)
Theorem credentials_sent_once (env : Identity) (r : State) (w : World) :
  ∃ k,
    handleSubmit env r w =
      ({| state := {| isSignUp := isSignUp (state w);
                      email := email (state w);
                      password := password (state w);
                      message := "";
                      messageType := "";
                      isLoading := true |};
          calls := calls w ++ [credentials_request r] |},
       Async.Yield k) ∧
    ∀ w2,
      (∃ c, snd (k w2) = Async.Done c) ∧
      filter is_request (calls (fst (k w2))) = filter is_request (calls w2).
Proof.
  unfold credentials_request. destruct (isSignUp r) eqn:Hr.
  - auth_step. rewrite Hr. auth_step. eexists. split; [reflexivity|].
    intros w2. destruct (auth_signUp env _ _ _) as [[user [e|]]|]; auth_step.
    + split; [eauto|]. now rewrite filter_app, app_nil_r.
    + destruct (unconfirmed user); auth_step; eauto.
    + eauto.
  - auth_step. rewrite Hr. auth_step. eexists. split; [reflexivity|].
    intros w2. destruct (auth_signInWithPassword env _ _) as [[user [e|]]|]; auth_step.
    + split; [eauto|]. now rewrite filter_app, app_nil_r.
    + eauto.
    + eauto.
Qed.

(** X20. The credential form leaves the loading state exactly when the
    identity service answers: whatever the answer says, the handler ends
    with the controls enabled; when the promise is rejected, nothing
    catches the exception and the handler ends without having touched the
    state, so the controls stay disabled. *)
Theorem credentials_loading_released_iff_answered (env : Identity) (r : State)
    (w : World) :
  isLoading (state (fst (handleSubmit env r w))) = true ∧
  ∃ k,
    snd (handleSubmit env r w) = Async.Yield k ∧
    ∀ w2,
      match credentials_answer env r with
      | Resolved _ =>
          ended (snd (k w2)) ∧
          disabled (render (state (fst (k w2)))) = false
      | Rejected => k w2 = (w2, Async.Done Throw)
      end.
Proof.
  unfold credentials_answer, ended. destruct (isSignUp r) eqn:Hr.
  - auth_step. rewrite Hr. auth_step. split; [reflexivity|].
    eexists. split; [reflexivity|].
    intros w2. destruct (auth_signUp env _ _ _) as [[user [e|]]|]; auth_step.
    + split; [|reflexivity]. eexists. split; [reflexivity|discriminate].
    + destruct (unconfirmed user); auth_step;
        (split; [|reflexivity]); eexists; (split; [reflexivity|discriminate]).
    + reflexivity.
  - auth_step. rewrite Hr. auth_step. split; [reflexivity|].
    eexists. split; [reflexivity|].
    intros w2. destruct (auth_signInWithPassword env _ _) as [[user [e|]]|]; auth_step.
    + split; [|reflexivity]. eexists. split; [reflexivity|discriminate].
    + split; [|reflexivity]. eexists. split; [reflexivity|discriminate].
    + reflexivity.
Qed.

(** X21. What the credential form shows when the answer is there: for an
    answer with an error, the text of the error after "Error: ", in the
    colour of errors, and the error on the console; for a registration
    without error whose user is not yet confirmed, the request to check
    the inbox, in the colour of confirmations; otherwise the message is
    left as it was, and a login that succeeded shows nothing of its own. *)
Theorem credentials_message (env : Identity) (r : State) (w : World)
    (answer : Response AuthUser) :
  credentials_answer env r = Resolved answer →
  ∃ k,
    snd (handleSubmit env r w) = Async.Yield k ∧
    ∀ w2,
      match error answer with
      | Some e =>
          shown_message (render (state (fst (k w2)))) =
            Some ("Error: " +:+ error_message e, "#dc2626") ∧
          calls (fst (k w2)) =
            calls w2 ++ [ConsoleError "Error signing up:" (error_message e)]
      | None =>
          if isSignUp r && unconfirmed (data answer)
          then shown_message (render (state (fst (k w2)))) =
                 Some ("Please, check your inbox. You will receive a confirmation email shortly.",
                       "#0369a1")
          else message (state (fst (k w2))) = message (state w2) ∧
               messageType (state (fst (k w2))) = messageType (state w2)
      end ∧
      isSignUp (state (fst (k w2))) = isSignUp (state w2) ∧
      email (state (fst (k w2))) = email (state w2) ∧
      password (state (fst (k w2))) = password (state w2).
Proof.
  unfold credentials_answer. destruct (isSignUp r) eqn:Hr.
  - auth_step. rewrite Hr. auth_step. intros ->.
    eexists. split; [reflexivity|]. intros w2.
    destruct answer as [user [e|]]; auth_step.
    + repeat split.
    + cbn [andb]. destruct (unconfirmed user); auth_step; repeat split.
  - auth_step. rewrite Hr. auth_step. intros ->.
    eexists. split; [reflexivity|]. intros w2.
    destruct answer as [user [e|]]; auth_step.
    + repeat split.
    + cbn [andb]. repeat split.
Qed.

End Credentials.

(** ** The application shell *)

Ltac app_step :=
  cbv beta iota zeta delta
    [App.fetchSession App.logout App.authListener App.effect
     App.setSession App.setError App.setJustVerified App.modify App.invoke
     mbind mret Async.Task_bind Async.Task_ret Async.and_then Async.on_done
     Async.done Async.await Async.when Async.return_ Async.try_catch];
  cbn [App.state App.calls App.session App.error App.justVerified
       App.after App.in_flight fst snd].

Section Shell.
Import App.

(** X22. Logging out asks the identity service to sign out and leaves the
    session as it is: the shell goes on showing the form until the
    subscription delivers the change. A sign-out that resolves, with an
    error in its answer or without, changes nothing at all; only a
    rejected promise shows, as "Failed to log out". *)
Theorem logout_keeps_session (env : Identity) (w : World) :
  ∃ k,
    logout env w =
      ({| state := state w; calls := calls w ++ [SignOut] |}, Async.Yield k) ∧
    ∀ w2,
      ended (snd (k w2)) ∧
      main (render (state (fst (k w2)))) = main (render (state w2)) ∧
      status (render (state (fst (k w2)))) = status (render (state w2)) ∧
      match auth_signOut env with
      | Resolved _ => fst (k w2) = w2
      | Rejected =>
          alert (render (state (fst (k w2)))) = Some "Failed to log out" ∧
          calls (fst (k w2)) = calls w2 ++ [ConsoleError "Logout error:"]
      end.
Proof.
  unfold ended. app_step. eexists. split; [reflexivity|]. intros w2.
  destruct (auth_signOut env) as [answer|]; app_step.
  - repeat split. eexists. split; [reflexivity|discriminate].
  - repeat split. eexists. split; [reflexivity|discriminate].
Qed.

(** X23. Fetching the session never throws: the session of the answer
    replaces the one the shell holds, also when it is none; a rejected
    promise leaves the session as it is and shows "Failed to fetch
    session". The banner of the verification is not touched. *)
Theorem fetchSession_outcome (env : Identity) (w : World) :
  ∃ k,
    fetchSession env w =
      ({| state := state w; calls := calls w ++ [GetSession] |}, Async.Yield k) ∧
    ∀ w2,
      ended (snd (k w2)) ∧
      justVerified (state (fst (k w2))) = justVerified (state w2) ∧
      match auth_getSession env with
      | Resolved current =>
          session (state (fst (k w2))) = current ∧
          error (state (fst (k w2))) = error (state w2) ∧
          calls (fst (k w2)) = calls w2
      | Rejected =>
          session (state (fst (k w2))) = session (state w2) ∧
          error (state (fst (k w2))) = "Failed to fetch session" ∧
          calls (fst (k w2)) = calls w2 ++ [ConsoleError "Session fetch error:"]
      end.
Proof.
  unfold ended. app_step. eexists. split; [reflexivity|]. intros w2.
  destruct (auth_getSession env) as [current|]; app_step.
  - repeat split. eexists. split; [reflexivity|discriminate].
  - repeat split. eexists. split; [reflexivity|discriminate].
Qed.

(** X24. Loaded without the parameter [verified=true], the shell only
    subscribes to the identity service: it asks for no session, rewrites no
    address and shows the credential form until a notification comes. *)
Theorem plain_load_only_subscribes (env : Identity) (page : Browser) :
  urlParams_get page "verified" ≠ Some "true" →
  effect env page initialWorld =
    {| after := {| state := initialState; calls := [OnAuthStateChange] |};
       in_flight := [] |} ∧
  render initialState =
    {| alert := None; status := None; main := Credentials |}.
Proof.
  intros Hp. unfold effect. rewrite bool_decide_eq_false_2 by exact Hp.
  split; reflexivity.
Qed.

(** X25. Loaded with [verified=true], the shell shows the banner of the
    verification, asks for the session, replaces the address by "/" and
    subscribes, in this order; the request for the session is then in
    flight and, once answered, its session is the one the shell holds. *)
Theorem verified_redirect_fetches_session (env : Identity) (page : Browser)
    (w : World) :
  urlParams_get page "verified" = Some "true" →
  status (render (state (after (effect env page w)))) =
    Some "Your email has been verified! You can now submit your application." ∧
  calls (after (effect env page w)) =
    calls w ++ [GetSession; ReplaceState (document_title page) "/"; OnAuthStateChange] ∧
  ∃ k,
    in_flight (effect env page w) = [k] ∧
    ∀ w2 current,
      auth_getSession env = Resolved current →
      session (state (fst (k w2))) = current.
Proof.
  intros Hp. unfold effect. rewrite bool_decide_eq_true_2 by exact Hp.
  app_step. repeat split.
  - now rewrite <- !app_assoc.
  - eexists. split; [reflexivity|]. intros w2 current ->. reflexivity.
Qed.

End Shell.

(** * The further properties on the scenarios *)

Lemma confirmed_reachable :
  @reachable Examples.builtins {| world := Scenarios.confirmed; suspended := [] |}.
Proof.
  exact (@reachable_dispatch Examples.builtins (SubmitClick Examples.env)
           {| world := Examples.ready; suspended := [] |} ready_reachable I).
Defined.

Lemma ready_valid :
  @validator Examples.builtins (formData (state Examples.ready))
    (uploadedFiles (state Examples.ready)) = None.
Proof. vm_compute. reflexivity. Defined.

Lemma upload_needs_session_witness :
  let file := Examples.file "plan.pdf" 52100 in
  let w' := @dispatch Examples.builtins
              (FileChange "business_plan" [file] Scenarios.signed_out) initialWorld in
  (File.size file <= 10 * 1024 * 1024)%N ∧
  calls_since initialWorld w' = [GetUser] ∧
  submitMessage (state w') = "Please log in to upload files".
Proof.
  intros file w'.
  assert (Hsize : (File.size file <= 10 * 1024 * 1024)%N) by (vm_compute; discriminate).
  pose proof (@upload_needs_session Examples.builtins Scenarios.signed_out file []
                "business_plan" initialWorld _ Hsize eq_refl
                (or_introl (ex_intro _ _ eq_refl)))
    as (Hc & Hm & _).
  split; [exact Hsize|]. split; [exact Hc | exact Hm].
Defined.

Lemma upload_survives_rejection_witness :
  let file := Examples.file "plan.pdf" 52100 in
  let w' := @dispatch Examples.builtins
              (FileChange "business_plan" [file] Scenarios.offline) initialWorld in
  (File.size file <= 10 * 1024 * 1024)%N ∧
  submitMessage (state w') = "Upload failed. Please try again." ∧
  uploadProgress (state w') !! "business_plan" = Some false.
Proof.
  intros file w'.
  assert (Hsize : (File.size file <= 10 * 1024 * 1024)%N) by (vm_compute; discriminate).
  pose proof (@upload_survives_rejection Examples.builtins Scenarios.offline file []
                "business_plan" initialWorld Hsize eq_refl)
    as (_ & Hm & _ & _ & Hp).
  split; [exact Hsize|]. split; [exact Hm | exact Hp].
Defined.

Lemma upload_progress_flag_witness :
  let file := Examples.file "plan.pdf" 52100 in
  (File.size file <= 10 * 1024 * 1024)%N ∧
  uploadProgress
    (state (fst (handleFileUpload Examples.env [file] "business_plan" initialWorld))) =
    <["business_plan" := true]> ∅ ∧
  uploadProgress
    (state (@dispatch Examples.builtins (FileChange "business_plan" [file] Examples.env)
              initialWorld)) =
    <["business_plan" := false]> ∅.
Proof.
  intros file.
  assert (Hsize : (File.size file <= 10 * 1024 * 1024)%N) by (vm_compute; discriminate).
  pose proof (@upload_progress_flag Examples.builtins Examples.env file []
                "business_plan" initialWorld Hsize)
    as (_ & Hon & Hoff).
  split; [exact Hsize|]. split; [exact Hon | exact Hoff].
Defined.

Lemma file_extension_is_last_segment_witness :
  let file := Examples.file "statements.2023.xlsx" 80200 in
  (File.size file <= 10 * 1024 * 1024)%N ∧
  ∃ ext,
    List.filter is_upload
      (calls_since initialWorld
         (@dispatch Examples.builtins
            (FileChange "financial_statements" [file] Examples.env) initialWorld)) =
      [Upload "grant-documents"
         ("user-1" +:+ "/" +:+ "123e4567-e89b-42d3-a456-426614174000" +:+ "." +:+ ext)
         file "3600" false] ∧
    ("statements.2023.xlsx" = "statements.2023" +:+ "." +:+ ext).
Proof.
  intros file.
  assert (Hsize : (File.size file <= 10 * 1024 * 1024)%N) by (vm_compute; discriminate).
  split; [exact Hsize|].
  destruct (@file_extension_is_last_segment Examples.builtins Examples.env file []
              "financial_statements" initialWorld {| User.id := "user-1" |}
              Hsize eq_refl)
    as (ext & Hcalls & _).
  exists ext. split; [exact Hcalls|].
  pose proof Hcalls as Hext. vm_compute in Hext. injection Hext as <-. reflexivity.
Defined.

Lemma undocumented_well_formed :
  well_formed_application (formData (state Scenarios.undocumented)).
Proof.
  split; [|split].
  - apply text_fields_all;
      (eexists; split; [vm_compute; reflexivity | discriminate]).
  - exists "a@b.co". split; [vm_compute; reflexivity|].
    exists "a", "b", "co". repeat split; discriminate.
  - exists (JS.lit 5000). split; [vm_compute; reflexivity|].
    split; vm_compute; discriminate.
Defined.

Lemma missing_document_rejected_witness :
  well_formed_application (formData (state Scenarios.undocumented)) ∧
  uploadedFiles (state Scenarios.undocumented) !! "business_plan" = None ∧
  rejected
    "Please upload all required documents: Business Plan, Financial Statements, and Supporting Documents."
    Scenarios.undocumented
    (@dispatch Examples.builtins (SubmitClick Examples.env) Scenarios.undocumented).
Proof.
  assert (Hnone : uploadedFiles (state Scenarios.undocumented) !! "business_plan" = None)
    by (vm_compute; reflexivity).
  split; [exact undocumented_well_formed|]. split; [exact Hnone|].
  exact (@missing_document_rejected Examples.builtins Examples.env
           Scenarios.undocumented "business_plan" undocumented_well_formed
           (list_elem_of_here _ _) Hnone).
Defined.

Lemma submission_needs_session_witness :
  let w' := @dispatch Examples.builtins (SubmitClick Scenarios.signed_out) Examples.ready in
  state w' = settled "Please log in to submit your application" (state Examples.ready) ∧
  calls_since Examples.ready w' = [GetUser].
Proof.
  pose proof (@submission_needs_session Examples.builtins Scenarios.signed_out
                Examples.ready _ ready_valid eq_refl
                (or_introl (ex_intro _ _ eq_refl)))
    as (Hs & Hc & _).
  split; [exact Hs | exact Hc].
Defined.

Lemma submission_survives_rejection_witness :
  let w' := @dispatch Examples.builtins (SubmitClick Scenarios.offline) Examples.ready in
  state w' =
    settled "Submission failed. Please check your connection and try again."
      (state Examples.ready) ∧
  timers w' = timers Examples.ready.
Proof.
  pose proof (@submission_survives_rejection Examples.builtins Scenarios.offline
                Examples.ready ready_valid (or_introl eq_refl))
    as (Hs & _ & Ht).
  split; [exact Hs | exact Ht].
Defined.

Lemma submission_in_flight_witness :
  let started :=
    @handleSubmit Examples.builtins Examples.env (formData (state Examples.ready))
      (uploadedFiles (state Examples.ready)) Examples.ready in
  calls (fst started) = calls Examples.ready ++ [GetUser] ∧
  View.submitButton (state (fst started)) = (true, "Submitting Application...").
Proof.
  pose proof (@submission_in_flight Examples.builtins Examples.env
                (formData (state Examples.ready)) (uploadedFiles (state Examples.ready))
                Examples.ready ready_valid)
    as (_ & _ & Hc & Hb).
  split; [exact Hc | exact Hb].
Defined.

Lemma no_second_insert_after_reset_witness :
  let cleared := @dispatch Examples.builtins (Timeout 0) Scenarios.confirmed in
  timers Scenarios.confirmed !! 0%nat = Some {| fires := ResetForm; delay := 5000 |} ∧
  rejected "Please fill in all required fields" cleared
    (@dispatch Examples.builtins (SubmitClick Examples.env) cleared).
Proof.
  intros cleared.
  assert (Ht : timers Scenarios.confirmed !! 0%nat =
               Some {| fires := ResetForm; delay := 5000 |})
    by (vm_compute; reflexivity).
  split; [exact Ht|].
  exact (proj1 (@no_second_insert_after_reset Examples.builtins Examples.env
                  Scenarios.confirmed 0 Ht)).
Defined.

Lemma uploads_within_bounds_witness :
  let sent :=
    Upload "grant-documents" "user-1/123e4567-e89b-42d3-a456-426614174000.pdf"
      (Examples.file "plan.pdf" 52100) "3600" false in
  sent ∈ calls Examples.ready ∧
  (File.size (Examples.file "plan.pdf" 52100) <= 10 * 1024 * 1024)%N.
Proof.
  intros sent.
  assert (Hin : sent ∈ calls Examples.ready).
  { apply (list_elem_of_lookup_2 _ 2). vm_compute. reflexivity. }
  split; [exact Hin|].
  exact (proj1 (proj2 (@uploads_within_bounds Examples.builtins
                         {| world := Examples.ready; suspended := [] |}
                         _ _ _ _ _ ready_reachable Hin))).
Defined.

Lemma inserts_are_validated_witness :
  let record : GrantApplication :=
    <["status" := JS.VStr "pending"]>
      (<["user_id" := JS.VStr "user-1"]> (formData (state Examples.ready))) in
  Insert "grant_applications" record ∈ calls Scenarios.confirmed ∧
  well_formed_application record.
Proof.
  intros record.
  assert (Hin : Insert "grant_applications" record ∈ calls Scenarios.confirmed).
  { apply (list_elem_of_lookup_2 _ 16). vm_compute. reflexivity. }
  split; [exact Hin|].
  exact (proj1 (proj2 (@inserts_are_validated Examples.builtins
                         {| world := Scenarios.confirmed; suspended := [] |}
                         _ _ confirmed_reachable Hin))).
Defined.

Lemma confirmation_styled_as_success_witness :
  View.messageRegion
    (state (@dispatch Examples.builtins (SubmitClick Examples.env) Examples.ready)) =
  Some ("submit-message success",
        "Application submitted successfully! Application ID: " +:+
          Row.id Examples.row +:+ ".").
Proof.
  exact (@confirmation_styled_as_success Examples.builtins Examples.env Examples.ready
           {| User.id := "user-1" |} Examples.row ready_valid eq_refl eq_refl).
Defined.

Lemma rejection_styled_as_error_witness :
  @validator Examples.builtins (formData (state initialWorld))
    (uploadedFiles (state initialWorld)) = Some "Please fill in all required fields" ∧
  View.messageRegion
    (state (@dispatch Examples.builtins (SubmitClick Examples.env) initialWorld)) =
  Some ("submit-message error", "Please fill in all required fields").
Proof.
  assert (Hv : @validator Examples.builtins (formData (state initialWorld))
                 (uploadedFiles (state initialWorld)) =
               Some "Please fill in all required fields")
    by (vm_compute; reflexivity).
  split; [exact Hv|].
  exact (@rejection_styled_as_error Examples.builtins Examples.env initialWorld _ Hv).
Defined.

Lemma insert_error_style_witness :
  View.messageClass
    (submitMessage
       (state (@dispatch Examples.builtins (SubmitClick Examples.refusing) Examples.ready)))
  = "error".
Proof.
  refine (proj2 (@insert_error_style Examples.builtins Examples.refusing Examples.ready
                   {| User.id := "user-1" |} None {| message := "permission denied" |}
                   ready_valid eq_refl eq_refl) _ _);
    intros Hc; apply includes_contains in Hc; vm_compute in Hc; discriminate Hc.
Defined.

Lemma controls_released_when_idle_witness :
  View.submitButton (state Examples.ready) = (false, "Submit Grant Application") ∧
  View.input_disabled (View.fileInput (state Examples.ready) "business_plan") = false.
Proof.
  pose proof (@controls_released_when_idle Examples.builtins
                {| world := Examples.ready; suspended := [] |} ready_reachable eq_refl)
    as (Hb & Hi).
  split; [exact Hb | exact (proj1 (Hi "business_plan"))].
Defined.

Lemma credentials_message_witness :
  ∃ k,
    snd (Auth.handleSubmit Scenarios.identity Scenarios.registering Auth.initialWorld) =
      Async.Yield k ∧
    Auth.shown_message (Auth.render (Auth.state (fst (k Auth.initialWorld)))) =
      Some ("Please, check your inbox. You will receive a confirmation email shortly.",
            "#0369a1").
Proof.
  destruct (credentials_message Scenarios.identity Scenarios.registering Auth.initialWorld
              _ eq_refl) as (k & Hk & Hshown).
  exists k. split; [exact Hk|]. exact (proj1 (Hshown Auth.initialWorld)).
Defined.

Lemma plain_load_only_subscribes_witness :
  App.effect Scenarios.shell_identity Scenarios.plain_page App.initialWorld =
    {| App.after := {| App.state := App.initialState;
                       App.calls := [App.OnAuthStateChange] |};
       App.in_flight := [] |}.
Proof.
  refine (proj1 (plain_load_only_subscribes Scenarios.shell_identity
                   Scenarios.plain_page _)).
  discriminate.
Defined.

Lemma verified_redirect_fetches_session_witness :
  App.calls (App.after (App.effect Scenarios.shell_identity Scenarios.verified_page
                          App.initialWorld)) =
    [App.GetSession; App.ReplaceState "Grant Application" "/"; App.OnAuthStateChange].
Proof.
  exact (proj1 (proj2 (verified_redirect_fetches_session Scenarios.shell_identity
                         Scenarios.verified_page App.initialWorld eq_refl))).
Defined.
